(* ===== verification/_CoqProject ===== *)
-Q . S2P
Prelude.v
Blocks.v
Actions.v
Program.v
PostSave.v
Trash.v
Merge.v
Quote.v
QuoteEdit.v
Autosave.v
Setup.v
MetaBoxes.v
Reusable.v
Effects.v
Store.v
System.v
Document.v
Uids.v
PageAttributes.v
CategorySelect.v
