(* ===== verification/Prelude.v ===== *)
(** * A verification library for the Gutenberg editor effects

    The repository is a slice of the WordPress block editor (Gutenberg):

    - [src/editor/effects.js] is the Redux "effects" table that the refx
      middleware runs: one handler per action type.  A handler reads the
      store with [getState], dispatches follow-up actions, calls the REST
      API (and continues in promise callbacks), the block API
      ([getBlockType], [switchToBlockType], [createBlock], [parse],
      [serialize]) and the browser ([window.history], [window.location],
      [setTimeout], [jQuery.holdReady]).  Handlers interact only through
      the actions they dispatch: refx runs the reducer on an action, then
      its handler, so a dispatch inside a handler nests.
    - [src/blocks/library/quote/index.js] registers the [core/quote] block
      (attribute schema, transforms, edit and save); MERGE_BLOCKS reaches
      its transforms through [switchToBlockType].
    - [src/edit-post/components/sidebar/page-attributes/index.js] and
      [src/blocks/query-panel/category-select.js] are React view components
      connected to the edit-post store and to the REST API.

    ** Files, in dependency order (see [_CoqProject])

    - [Prelude] (this file): JavaScript values ([Value]), attribute objects
      as stdpp [gmap string Value], object spread [{...base, ...over}] as
      the left-biased union [base <+ over], truthiness,
      [Array.prototype.indexOf], property reads that may throw a TypeError
      ([js_get], [index0], as [string + _]), the [gb] hint databases and
      tactics.
    - [Blocks]: blocks, block types, the registry as the class
      [BlockRegistry], [createBlock] and [switchToBlockType] (code of
      [@wordpress/blocks], not under [src/]: modelled from the spec), and
      the parser as the class [BlockParser].  A transform returns the
      [createBlock] calls it makes or the TypeError it throws.
    - [Actions]: posts, REST errors, notices, redux-optimist markers, the
      action vocabulary [action] (one constructor per action [type]) and the
      selectors the handlers read, as the class [EditorSelectors]: the
      handlers' theorems hold for every store that implements it.
    - [Program]: a handler as a program of the free monad [prog] over the
      primitives above, [exec] that runs it on a [world] (store state,
      [uuid()] and [uniqueId()] counters, history entry, event log, pending
      requests, timers) and [dispatch], the refx middleware, with fuel.
    - One file per group of handlers of [effects.js], each a [Section] over
      [EditorSelectors] (and [BlockRegistry], [BlockParser] where used):
      [PostSave] (REQUEST_POST_UPDATE, _SUCCESS, _FAILURE, lines 60-159),
      [Trash] (TRASH_POST, _SUCCESS, _FAILURE, lines 160-199), [Merge]
      (MERGE_BLOCKS, 200-242), [Autosave] (243-269), [Setup] (SETUP_EDITOR,
      270-301), [MetaBoxes] (INITIALIZE_META_BOX_STATE, META_BOX_LOADED,
      302-322), [Reusable] (FETCH_REUSABLE_BLOCKS, SAVE_REUSABLE_BLOCK,
      CONVERT_BLOCK_TO_STATIC, CONVERT_BLOCK_TO_REUSABLE, 323-396).  Each
      handler is one [Definition] whose guards and early returns are the
      code's conditions; a property read on [undefined] is a [Throw].
    - [Quote]: the [core/quote] block: schema, the [from] and [to]
      transforms, [toEditableValue]/[fromEditableValue], the content of
      [save]; and MERGE_BLOCKS of a quote into a paragraph.
    - [QuoteEdit]: the quote's [edit] (lines 168-232) as the record of what
      it renders ([quote_edit_view]: toolbars when focused, class name,
      paragraphs, citation, which [Editable] has the focus) and each
      callback it passes as the update it gives [setAttributes] (style,
      alignment, value, citation) or the focus it gives [setFocus];
      [set_attributes] merges an update into the attributes.
    - [Effects]: the exported table [effects], routing each action type to
      its handler.
    - [Store]: a concrete store ([EditorState], [editor_reducer],
      [store_selectors]); the reducer and selectors are not under [src/]
      and are modelled from the spec.  It serves the witnesses that run
      handlers on concrete states.
    - [System]: the editor as a transition system [sys_step ui]: the user
      interface dispatches an action that the policy [ui] allows, the
      server answers or fails a pending request in any order, or a timer
      fires.
    - [Document]: the store, the effects table and the middleware composed:
      the reusable-block round trip run through [dispatch].
    - [Uids]: the spec's invariant that a uid is unique in the document.
      Two predicates on handlers carry it: [keeps_doc] (an instance of
      [Program.deep_in]: no block written, down to callbacks and timers) and
      [safe B F] (blocks written only with fresh [uuid()] uids or uids they
      replace).  Each writing handler (MERGE_BLOCKS, SETUP_EDITOR, both
      conversions) is proved [safe], every other one [keeps_doc].
    - [PageAttributes]: the panel and its [connect] mapping, proved against
      the class [PanelStore] (the edit-post store's selector, reducer and
      the laws of toggling), which a gmap instance implements.
    - [CategorySelect]: the loading guard and the props of the selector;
      [buildTermsTree] is the class [TermsTree].

    ** What the theorems show

    - [System]: every [BEGIN] of the [post-update] optimistic transaction
      is settled by exactly one [COMMIT] or [REVERT], or its save is still
      pending, in every reachable world, for every policy [ui] (rule
      induction over [sys_step]).
    - [Uids]: in every world reachable from a document with distinct uids,
      the uids stay distinct and none is one [uuid()] is still to hand
      out.  The policy [ui_ok] asks that a merge name a block of the
      document and that the user interface write blocks only to remove
      them: the effects are the only source of new blocks here.  With it
      the reusable round trip holds in every reachable world, with no
      freshness hypothesis.
    - [Effects]: every dispatch and every callback terminates with fuel
      [effects_fuel = 3], and more fuel changes nothing.  Three is enough
      because the deepest chain of handlers is AUTOSAVE, which dispatches
      REQUEST_POST_UPDATE, which dispatches UPDATE_POST, which has no
      handler; callbacks and timers start afresh at the top level.
    - Per handler: the exact sequence of dispatched actions, requests,
      history and location changes on every branch, the callbacks'
      behaviour, thrown TypeErrors, and the notice texts.
    - [MetaBoxes]: the ready hold is released exactly once when each
      unloaded meta box reports with the state read before its own box is
      marked loaded, and never when it is read after.  For meta boxes
      with distinct locations the code's test ([unloadedMetaboxes.length
      === 1] and its location) is equivalent to the declarative
      condition [release_spec].
    - [Document]: converting a block to a reusable block and back restores
      its type and attributes in place (the spec's round trip).
    - [Setup]: the document SETUP_EDITOR builds has distinct uids, all
      fresh from the [uuid()] counter (the spec's uid invariant).
    - [Quote]: the edit helpers are inverse; with an array [value] the
      last branch of the [to] transforms is dead, so a one-paragraph quote
      leaves an empty quote behind, also when merged into a paragraph.
    - [QuoteEdit]: what the author types is what [save] writes and what
      [edit] shows again; the style toolbar activates exactly the clicked
      variation; focusing an [Editable] marks only it; and [save] throws on
      a paragraph whose [children] is a string, which the transforms accept.

    ** What is not modelled

    The REST client, the markup parser and serializer, the i18n layer
    ([__] is the identity), [buildTermsTree] and React rendering are
    external; they enter as type classes or as effects of [prog].  The
    editor and edit-post stores are not under [src/]: [Store] and
    [PanelStore] model them from the spec.  Of the quote's [edit] and
    [save] the markup of the elements and the inline style are not
    modelled, and [Number( style )] of a string or array style (which
    parses text) is left undetermined ([number_is] gives [None]): the
    schema declares [style] a number.  The focus object is reduced to its
    [editable] property, the only part [edit] reads. *)

From stdpp Require Export base gmap strings list.
From Stdlib Require Export ZArith.

Declare Scope gb_scope.
Delimit Scope gb_scope with gb.
Open Scope gb_scope.

(** ** JavaScript values *)

#[local] Set Warnings "-register-all".

(** The values stored in block attributes and post edits.  [VElem tag c]
    is a React element [<tag>{c}</tag>], whose [props.children] is [c]. *)
Inductive Value : Type :=
| VUndef
| VNull
| VBool (b : bool)
| VNum (z : Z)
| VStr (s : string)
| VArr (l : list Value)
| VObj (l : list (string * Value))
| VElem (tag : string) (children : Value).

(** An object whose keys are strings, such as [block.attributes] or the
    pending [edits] of a post. *)
Abbreviation Attrs := (gmap string Value).

(** [{ ...base, ...over }]: the keys of [over] win. *)
Definition spread (base over : Attrs) : Attrs := over ∪ base.

Notation "base <+ over" := (spread base over)
  (at level 50, left associativity) : gb_scope.

(** JavaScript's [ToBoolean]. *)
Definition truthy (v : Value) : bool :=
  match v with
  | VUndef | VNull => false
  | VBool b => b
  | VNum z => negb (Z.eqb z 0)
  | VStr s => negb (String.eqb s "")
  | VArr _ | VObj _ | VElem _ _ => true
  end.

(** An optional string property ([undefined] or a string) in a test. *)
Definition str_truthy (o : option string) : bool :=
  match o with
  | Some s => negb (String.eqb s "")
  | None => false
  end.

(** [Array.prototype.indexOf] on an array of strings. *)
Fixpoint indexOf (l : list string) (s : string) : Z :=
  match l with
  | [] => -1
  | x :: l' => if String.eqb x s then 0 else
                 let i := indexOf l' s in if Z.eqb i (-1) then -1 else i + 1
  end.

(** The string a property holds, if it holds one: a property that is
    missing or not a string never equals a string under [===]. *)
Definition as_string (o : option Value) : option string :=
  match o with
  | Some (VStr s) => Some s
  | _ => None
  end.

(** [arr.indexOf(x) !== -1] for an optional string [x]. *)
Definition mem_str (l : list string) (o : option string) : bool :=
  match o with
  | Some s => negb (Z.eqb (indexOf l s) (-1))
  | None => false
  end.

(** ** Property access *)

(** The value of key [k] in an object literal, the first binding. *)
Fixpoint assoc (k : string) (l : list (string * Value)) : option Value :=
  match l with
  | [] => None
  | (k', v) :: l' => if String.eqb k' k then Some v else assoc k l'
  end.

(** [v.k] for a named property [k]: a TypeError ([None]) on [undefined]
    and [null], [undefined] for a property the value does not have.  A
    React element exposes [props] as [{ children }]; arrays and strings
    have a [length]. *)
Definition get_prop (v : Value) (k : string) : option Value :=
  match v with
  | VUndef | VNull => None
  | VObj l => Some (default VUndef (assoc k l))
  | VElem _ c => Some (if String.eqb k "props" then VObj [("children", c)] else VUndef)
  | VArr l => Some (if String.eqb k "length" then VNum (Z.of_nat (length l)) else VUndef)
  | VStr s => Some (if String.eqb k "length" then VNum (Z.of_nat (String.length s)) else VUndef)
  | VBool _ | VNum _ => Some VUndef
  end.

(** [v.k] with the message of the TypeError it throws ([inl]). *)
Definition js_get (v : Value) (k : string) : string + Value :=
  match get_prop v k with
  | Some x => inr x
  | None => inl ("Cannot read property '" +:+ k +:+ "' of " +:+
                 match v with VNull => "null" | _ => "undefined" end)
  end.

(** [v[0]]. *)
Definition index0 (v : Value) : string + Value :=
  match v with
  | VUndef => inl "Cannot read property '0' of undefined"
  | VNull => inl "Cannot read property '0' of null"
  | VArr (x :: _) => inr x
  | VStr (String c _) => inr (VStr (String c EmptyString))
  | VObj l => inr (default VUndef (assoc "0" l))
  | _ => inr VUndef
  end.

(** [l.map(f)] for an [f] that may throw: the first exception wins. *)
Fixpoint map_sum {A B : Type} (f : A -> string + B) (l : list A) : string + list B :=
  match l with
  | [] => inr []
  | x :: l' =>
      match f x with
      | inl e => inl e
      | inr y => match map_sum f l' with inl e => inl e | inr ys => inr (y :: ys) end
      end
  end.

(** lodash [isString] and [Array.isArray]. *)
Definition is_string (v : Value) : bool := match v with VStr _ => true | _ => false end.
Definition is_array (v : Value) : bool := match v with VArr _ => true | _ => false end.

(** A destructured property: [undefined] when the object lacks it. *)
Definition attr (a : Attrs) (k : string) : Value := default VUndef (a !! k).

(** ** Automation *)

Create HintDb gb.
Create Rewrite HintDb gb_rw.

(** Case analysis on the boolean string and integer tests of the code. *)
Ltac gb_bool :=
  repeat match goal with
  | |- context [String.eqb ?a ?b] => destruct (String.eqb_spec a b); subst
  | H : context [String.eqb ?a ?b] |- _ => destruct (String.eqb_spec a b); subst
  | |- context [Z.eqb ?a ?b] => destruct (Z.eqb_spec a b)
  end.

(** ** Generic lemmas *)

Lemma lookup_spread (base over : Attrs) k :
  (base <+ over) !! k = match over !! k with Some v => Some v | None => base !! k end.
Proof.
  unfold spread. rewrite lookup_union.
  destruct (over !! k), (base !! k); reflexivity.
Qed.

Lemma spread_empty_r (base : Attrs) : base <+ ∅ = base.
Proof. unfold spread. apply map_empty_union. Qed.

Lemma spread_empty_l (over : Attrs) : ∅ <+ over = over.
Proof. unfold spread. apply map_union_empty. Qed.

Lemma spread_assoc (a b c : Attrs) : a <+ b <+ c = a <+ (b <+ c).
Proof. unfold spread. apply map_union_assoc. Qed.

(** Spreading the same object twice adds nothing. *)
Lemma spread_idem (a b : Attrs) : a <+ b <+ b = a <+ b.
Proof.
  apply map_eq. intros k. rewrite !lookup_spread.
  destruct (b !! k); reflexivity.
Qed.

Lemma indexOf_ge (l : list string) s : (-1 <= indexOf l s)%Z.
Proof.
  induction l as [|x l IH]; simpl; [lia|].
  destruct (String.eqb x s); [lia|].
  destruct (Z.eqb_spec (indexOf l s) (-1)); lia.
Qed.

(** [indexOf] answers membership. *)
Lemma indexOf_found (l : list string) s : indexOf l s <> (-1)%Z <-> s ∈ l.
Proof.
  induction l as [|x l IH]; simpl.
  - split; [intros H; by destruct H|]. intros H. inversion H.
  - rewrite elem_of_cons. destruct (String.eqb_spec x s) as [->|Hne].
    + split; [intros _; by left|intros _; lia].
    + destruct (Z.eqb_spec (indexOf l s) (-1)) as [E|E].
      * split; [intros H; by destruct H|]. intros [->|Hin]; [congruence|]. apply IH in Hin. done.
      * split; [intros _; right; apply IH; done|]. pose proof (indexOf_ge l s). lia.
Qed.

Lemma mem_str_spec (l : list string) o :
  mem_str l o = true <-> exists s, o = Some s /\ s ∈ l.
Proof.
  destruct o as [s|]; simpl.
  - pose proof (indexOf_found l s) as Hf.
    destruct (Z.eqb_spec (indexOf l s) (-1)) as [E|E]; simpl; split.
    + done.
    + intros (s' & [= <-] & Hin). apply Hf in Hin. done.
    + intros _. exists s. split; [done|]. by apply Hf.
    + done.
  - split; [done|]. intros (? & ? & _). done.
Qed.

#[export] Hint Rewrite lookup_spread spread_empty_r spread_empty_l : gb_rw.
#[export] Hint Resolve indexOf_ge : gb.

Lemma mem_str_Some (l : list string) s : mem_str l (Some s) = bool_decide (s ∈ l).
Proof.
  pose proof (mem_str_spec l (Some s)) as Hs.
  destruct (mem_str l (Some s)); case_bool_decide as Hin; try done.
  - destruct (proj1 Hs eq_refl) as (s' & [= <-] & ?). done.
  - assert (false = true) as [=]. apply Hs. eauto.
Qed.

#[export] Hint Rewrite mem_str_Some : gb_rw.

(** [Array.prototype.filter] respects permutations. *)
Lemma Permutation_list_filter {A} (f : A -> bool) (l l' : list A) :
  l ≡ₚ l' -> List.filter f l ≡ₚ List.filter f l'.
Proof.
  induction 1 as [|x l l' _ IH|x y l|l l' l'' _ IH1 _ IH2]; simpl.
  - done.
  - destruct (f x); [by constructor|done].
  - destruct (f x), (f y); try constructor; done.
  - by rewrite IH1.
Qed.

(** [Array.prototype.filter] with a test that holds of every element. *)
Lemma list_filter_all {A} (f : A -> bool) (l : list A) :
  Forall (fun x => f x = true) l -> List.filter f l = l.
Proof. induction 1 as [|x l Hx _ IH]; simpl; [done|]. by rewrite Hx, IH. Qed.

Lemma Forall_list_filter {A} (P : A -> Prop) (f : A -> bool) (l : list A) :
  Forall P l -> Forall P (List.filter f l).
Proof. induction 1; simpl; [done|]. destruct (f x); [by constructor|done]. Qed.

Lemma elem_of_List_filter {A} (f : A -> bool) (l : list A) x :
  x ∈ List.filter f l <-> f x = true /\ x ∈ l.
Proof. rewrite !list_elem_of_In, filter_In. tauto. Qed.

(** Filtering keeps the keys of a list distinct. *)
Lemma NoDup_map_filter {A B} (g : A -> B) (f : A -> bool) (l : list A) :
  NoDup (map g l) -> NoDup (map g (List.filter f l)).
Proof.
  induction l as [|x l IH]; simpl; [done|]. intros [Hx Hnd]%NoDup_cons.
  destruct (f x); simpl; [|auto]. constructor; [|auto].
  intros (y & Hy & [_ Hin]%elem_of_List_filter)%list_elem_of_fmap.
  apply Hx, list_elem_of_fmap. by exists y.
Qed.

#[export] Hint Resolve Forall_list_filter : gb.
