(* ===== verification/Blocks.v ===== *)
(** Blocks, block types and the block API the effects call.

    A block is [{ uid, name, attributes }].  A block type carries its
    attribute schema (the defaults [createBlock] fills in), an optional
    [merge] function and its transforms.  The registry of block types is the
    type class [BlockRegistry]; [createBlock] and [switchToBlockType] of
    [@wordpress/blocks] are modelled from the spec over that class: the
    uid that [createBlock] draws from [uuid()] is an argument here and an
    effect of [Program.prog] in the handlers. *)

From S2P Require Import Prelude.

Record block := mkBlock {
  uid : string;
  name : string;
  attributes : Attrs
}.

(** A block type's attribute source: only its [default] matters to
    [createBlock]. *)
Record attr_source := mkSource { attr_default : option Value }.

Inductive transform_kind := TBlock | TPattern | TRaw.

(** A transform.  [tr_transform] maps the source attributes to the
    [createBlock(name, attributes)] calls it makes, in order, or to the
    message of the TypeError it throws ([inl]); a transform with no
    function (a [raw] transform) has [None]. *)
Record transform := mkTransform {
  tr_type : transform_kind;
  tr_blocks : list string;
  tr_transform : option (Attrs -> string + list (string * Attrs))
}.

Record block_type := mkBlockType {
  bt_name : string;
  bt_attributes : gmap string attr_source;
  bt_merge : option (Attrs -> Attrs -> Attrs);
  bt_from : list transform;
  bt_to : list transform
}.

(** The registry of block types: [getBlockType] returns [undefined] (here
    [None]) for a name that was never registered. *)
Class BlockRegistry := { getBlockType : string -> option block_type }.

Section BlockApi.
Context `{BlockRegistry}.

Definition is_undef (v : Value) : bool :=
  match v with VUndef => true | _ => false end.

(** The attributes [createBlock] builds: for each key of the schema, the
    given value unless it is [undefined], else the schema's default
    unless that is [undefined]; keys outside the schema are dropped. *)
Definition create_attributes (schema : gmap string attr_source) (given : Attrs) : Attrs :=
  map_imap (fun k src =>
    match given !! k with
    | Some v => if is_undef v then
                  match attr_default src with
                  | Some d => if is_undef d then None else Some d
                  | None => None
                  end
                else Some v
    | None => match attr_default src with
              | Some d => if is_undef d then None else Some d
              | None => None
              end
    end) schema.

(** [createBlock(name, attributes)] with the uid [u] that [uuid()] gave;
    [None] when [getBlockType(name)] is [undefined], where the code throws
    on [blockType.attributes]. *)
Definition createBlock (nm : string) (given : Attrs) (u : string) : option block :=
  match getBlockType nm with
  | Some bt => Some (mkBlock u nm (create_attributes (bt_attributes bt) given))
  | None => None
  end.

(** The first transform of [ts] of type [block] that lists [nm]. *)
Definition find_block_transform (ts : list transform) (nm : string) : option transform :=
  List.find (fun t => match tr_type t with
                      | TBlock => mem_str (tr_blocks t) (Some nm)
                      | _ => false
                      end) ts.

(** What [switchToBlockType] gives: [null], an exception thrown by the
    transform, or the [createBlock] calls of the switched blocks. *)
Inductive switch_result :=
| SwitchNull
| SwitchThrows (msg : string)
| Switched (calls : list (string * Attrs)).

(** [switchToBlockType(block, name)] on one block: the [to] transforms of
    the source type take priority over the [from] transforms of the
    destination type; [null] when no transform applies, when a result
    names an unregistered type or when no result has the destination
    type. *)
Definition switchToBlockType (b : block) (target : string) : switch_result :=
  let to_ts := match getBlockType (name b) with Some bt => bt_to bt | None => [] end in
  let from_ts := match getBlockType target with Some bt => bt_from bt | None => [] end in
  let tr := match find_block_transform to_ts target with
            | Some t => Some t
            | None => find_block_transform from_ts (name b)
            end in
  match tr with
  | Some t =>
      match tr_transform t with
      | Some f =>
          match f (attributes b) with
          | inl msg => SwitchThrows msg
          | inr res =>
              if List.existsb (fun r => match getBlockType r.1 with Some _ => false | None => true end) res
              then SwitchNull
              else if List.existsb (fun r => String.eqb r.1 target) res then Switched res else SwitchNull
          end
      | None => SwitchNull
      end
  | None => SwitchNull
  end.
End BlockApi.

(** The markup parser and serializer of [@wordpress/blocks]: [parse] gives
    the type name and the attributes of each block of a post's content, in
    order (each becomes a block with a fresh uid); [serialize] renders a
    block back to markup. *)
Class BlockParser := {
  parse : string -> list (string * Attrs);
  serialize : block -> string
}.

(** Fixtures for the witnesses: a parser that reads one [core/text] block
    from any non-empty content, and a registry of [core/text] (attribute
    [content]) and [core/reusable-block] (attribute [ref]). *)
Definition plain_parser : BlockParser := {|
  parse := fun c => if String.eqb c "" then [] else [("core/text", <["content" := VStr c]> ∅)];
  serialize := name
|}.

Definition fixture_registry : BlockRegistry := {|
  getBlockType := fun nm =>
    if String.eqb nm "core/text" then
      Some (mkBlockType "core/text" {["content" := mkSource None]} None [] [])
    else if String.eqb nm "core/reusable-block" then
      Some (mkBlockType "core/reusable-block" {["ref" := mkSource None]} None [] [])
    else None
|}.

Definition no_types : BlockRegistry := {| getBlockType := fun _ => None |}.

Section BlockApiFacts.
Context `{BlockRegistry}.

(** A conversion only ever creates blocks of registered types, and at
    least one of the destination type. *)
Lemma switchToBlockType_registered (b : block) (target : string) calls :
  switchToBlockType b target = Switched calls ->
  Forall (fun c => is_Some (getBlockType c.1)) calls /\
  Exists (fun c => c.1 = target) calls.
Proof.
  unfold switchToBlockType.
  destruct (match find_block_transform _ _ with Some t => Some t | None => _ end)
    as [t|]; [|intros [=]].
  destruct (tr_transform t) as [f|]; [|intros [=]].
  destruct (f (attributes b)) as [msg|res]; [intros [=]|].
  destruct (existsb _ res) eqn:Eunreg; [intros [=]|].
  destruct (existsb (fun r => String.eqb r.1 target) res) eqn:Etarget; [|intros [=]].
  intros [= <-]. split.
  - apply Forall_forall. intros c Hc.
    destruct (getBlockType c.1) eqn:E; [done|].
    assert (existsb (fun r => match getBlockType r.1 with Some _ => false | None => true end)
              res = true) as Hc'.
    { apply existsb_exists. exists c. rewrite E. split; [|done]. by apply list_elem_of_In. }
    congruence.
  - apply existsb_exists in Etarget as (c & Hc & Heq).
    apply Exists_exists. exists c. split; [by apply list_elem_of_In|].
    by apply String.eqb_eq.
Qed.
(** The default [createBlock] takes for an attribute, unless [undefined]. *)
Lemma lookup_create_attributes (schema : gmap string attr_source) (given : Attrs) k :
  create_attributes schema given !! k
  = schema !! k ≫= fun src =>
      let dflt := match attr_default src with
                  | Some d => if is_undef d then None else Some d
                  | None => None
                  end in
      match given !! k with
      | Some v => if is_undef v then dflt else Some v
      | None => dflt
      end.
Proof. unfold create_attributes. by rewrite map_lookup_imap. Qed.

End BlockApiFacts.


