(* ===== verification/Actions.v ===== *)
(** The data the effects exchange with the store and the REST API: posts,
    REST errors, notices, redux-optimist markers, reusable blocks, URLs,
    and the action vocabulary ([action]), one constructor per action
    [type] that [src/editor/effects.js] handles or dispatches.  The action
    creators of [editor/actions] ([removeNotice], [focusBlock], ...) build
    exactly these objects, so the handlers use the constructors. *)

From S2P Require Import Prelude Blocks.

(** A post as the REST API returns it; [content.raw] and [title.raw] are
    the raw strings. *)
Record post := mkPost {
  post_id : Z;
  post_status : string;
  post_link : string;
  post_content_raw : string;
  post_title_raw : string
}.

(** The [{ code, message }] body of a REST error. *)
Record api_error := mkApiError {
  err_code : option string;
  err_message : option string
}.

(** [{ code: 'unknown_error', message: __('An unknown error occurred.') }] *)
Definition unknown_error : api_error :=
  mkApiError (Some "unknown_error") (Some "An unknown error occurred.").

(** The failure value of a jQuery/Backbone request: [responseJSON] is
    [undefined] when the server sent no JSON body. *)
Record xhr_error := mkXhrError { responseJSON : option api_error }.

Inductive optimist_type := BEGIN | COMMIT | REVERT.

Record optimist := mkOptimist { opt_type : optimist_type; opt_id : string }.

Inductive notice_status := NSuccess | NError.

(** A notice's content: a plain message, or the
    [<p><span>{message}</span> <a href={link}>View post</a></p>] element. *)
Inductive notice_content :=
| NText (msg : string)
| NViewPost (msg : string) (link : string).

(** A reusable block as the store keeps it. *)
Record reusable_block := mkReusable {
  rb_id : Z;
  rb_name : string;
  rb_type : string;
  rb_attributes : Attrs
}.

(** A reusable block as the REST API returns it. *)
Record reusable_raw := mkReusableRaw {
  raw_id : Z;
  raw_name : string;
  raw_content : string
}.

(** An admin URL: a page and its query arguments, as [addQueryArgs]
    receives them. *)
Record url := mkUrl { url_page : string; url_query : list (string * Value) }.

(** [settings.template]: a list of [[name, attributes]] pairs. *)
Record editor_settings := mkSettings { template : option (list (string * Attrs)) }.

(** The state of one meta box location, as [getMetaBoxes] reports it. *)
Record metabox := mkMetabox { isActive : bool; isLoaded : bool }.

Inductive action :=
| RequestPostUpdate
| UpdatePost (edits : Attrs) (opt : optimist)
| RemoveNotice (id : string)
| ResetPost (p : post)
| RequestPostUpdateSuccess (previousPost p : post) (opt : optimist)
| RequestPostUpdateFailure (error : api_error) (p : post) (edits : Attrs) (opt : optimist)
| CreateNotice (status : notice_status) (content : notice_content) (id : string)
| RequestMetaBoxUpdates (locations : list string)
| TrashPost (postId : Z) (postType : string)
| TrashPostSuccess (postId : Z) (postType : string)
| TrashPostFailure (postId : Z) (postType : string) (error : api_error)
| MergeBlocks (blockA blockB : block)
| UpdateFocus (u : string) (offset : option Z)
| ReplaceBlocks (uids : list string) (blocks : list block)
| Autosave
| EditPost (edits : Attrs)
| SetupEditor (p : post) (settings : editor_settings)
| ResetBlocks (blocks : list block)
| SetupNewPost (edits : Attrs)
| InitializeMetaBoxState (metaBoxes : gmap string bool)
| MetaBoxLoaded (location : string)
| FetchReusableBlocks (id : option Z)
| FetchReusableBlocksSuccess (rbs : list reusable_block)
| FetchReusableBlocksFailure (error : api_error)
| SaveReusableBlock (id : Z)
| SaveReusableBlockSuccess (id : Z)
| SaveReusableBlockFailure (id : Z)
| ConvertBlockToStatic (u : string)
| ConvertBlockToReusable (u : string)
| UpdateReusableBlock (id : Z) (rb : reusable_block)
| OtherAction (type : string).

(** The [type] string of each action. *)
Definition action_type (a : action) : string :=
  match a with
  | RequestPostUpdate => "REQUEST_POST_UPDATE"
  | UpdatePost _ _ => "UPDATE_POST"
  | RemoveNotice _ => "REMOVE_NOTICE"
  | ResetPost _ => "RESET_POST"
  | RequestPostUpdateSuccess _ _ _ => "REQUEST_POST_UPDATE_SUCCESS"
  | RequestPostUpdateFailure _ _ _ _ => "REQUEST_POST_UPDATE_FAILURE"
  | CreateNotice _ _ _ => "CREATE_NOTICE"
  | RequestMetaBoxUpdates _ => "REQUEST_META_BOX_UPDATES"
  | TrashPost _ _ => "TRASH_POST"
  | TrashPostSuccess _ _ => "TRASH_POST_SUCCESS"
  | TrashPostFailure _ _ _ => "TRASH_POST_FAILURE"
  | MergeBlocks _ _ => "MERGE_BLOCKS"
  | UpdateFocus _ _ => "UPDATE_FOCUS"
  | ReplaceBlocks _ _ => "REPLACE_BLOCKS"
  | Autosave => "AUTOSAVE"
  | EditPost _ => "EDIT_POST"
  | SetupEditor _ _ => "SETUP_EDITOR"
  | ResetBlocks _ => "RESET_BLOCKS"
  | SetupNewPost _ => "SETUP_NEW_POST"
  | InitializeMetaBoxState _ => "INITIALIZE_META_BOX_STATE"
  | MetaBoxLoaded _ => "META_BOX_LOADED"
  | FetchReusableBlocks _ => "FETCH_REUSABLE_BLOCKS"
  | FetchReusableBlocksSuccess _ => "FETCH_REUSABLE_BLOCKS_SUCCESS"
  | FetchReusableBlocksFailure _ => "FETCH_REUSABLE_BLOCKS_FAILURE"
  | SaveReusableBlock _ => "SAVE_REUSABLE_BLOCK"
  | SaveReusableBlockSuccess _ => "SAVE_REUSABLE_BLOCK_SUCCESS"
  | SaveReusableBlockFailure _ => "SAVE_REUSABLE_BLOCK_FAILURE"
  | ConvertBlockToStatic _ => "CONVERT_BLOCK_TO_STATIC"
  | ConvertBlockToReusable _ => "CONVERT_BLOCK_TO_REUSABLE"
  | UpdateReusableBlock _ _ => "UPDATE_REUSABLE_BLOCK"
  | OtherAction t => t
  end.

(** The optimistic-transaction marker an action carries, if any. *)
Definition action_optimist (a : action) : option optimist :=
  match a with
  | UpdatePost _ o | RequestPostUpdateSuccess _ _ o
  | RequestPostUpdateFailure _ _ _ o => Some o
  | _ => None
  end.

(** The selectors of [editor/selectors] the handlers read.  The store's
    state is abstract: the handlers' theorems hold for any store that
    answers these queries. *)
Class EditorSelectors (S : Type) := {
  getCurrentPost : S -> post;
  getCurrentPostType : S -> string;
  getPostEdits : S -> Attrs;
  getEditedPostContent : S -> string;
  getDirtyMetaBoxes : S -> list string;
  isEditedPostSaveable : S -> bool;
  isEditedPostNew : S -> bool;
  isEditedPostDirty : S -> bool;
  isCurrentPostPublished : S -> bool;
  getMetaBoxes : S -> list (string * metabox);
  getBlock : S -> string -> option block;
  getReusableBlock : S -> Z -> option reusable_block
}.

#[export] Instance optimist_type_eq_dec : EqDecision optimist_type.
Proof. solve_decision. Defined.

#[export] Instance optimist_eq_dec : EqDecision optimist.
Proof. solve_decision. Defined.
