(* ===== verification/Program.v ===== *)
(** Handlers as effect programs, and the refx runtime that runs them.

    A handler of [src/editor/effects.js] is a [prog]: a tree whose nodes
    are the primitives it uses ([dispatch], [getState], [uuid()] inside
    [createBlock], lodash [uniqueId()], a REST request with its success and
    failure callbacks, [setTimeout], [window.history], [window.location],
    [jQuery.holdReady]) and whose leaves are a normal return ([Done]) or a
    thrown TypeError ([Throw]).  A REST request ends the synchronous part of
    a handler: its callbacks are stored and run when the server answers.

    [exec] interprets a program against a [world] (the store's state, the
    counters behind [uuid()] and [uniqueId()], the history entry, the log of
    observable events, the pending requests and timers).  [dispatch] is the
    refx middleware: the action first goes to the reducer, then the handler
    registered for it runs; a dispatch inside a handler nests, so
    [dispatch] takes fuel that bounds the nesting depth. *)

From stdpp Require Import pretty.
From S2P Require Import Prelude Blocks Actions.

Inductive request :=
| ApiSavePost (postType : string) (toSend : Attrs)
| ApiDestroyPost (postType : string) (id : Z)
| ApiFetchReusableBlock (id : Z)
| ApiFetchReusableBlocks
| ApiSaveReusableBlock (id : Z) (nm content : string).

Inductive response :=
| RespPost (p : post)
| RespNone
| RespReusable (r : reusable_raw)
| RespReusableList (l : list reusable_raw).

Section Prog.
Context {St : Type}.

Inductive prog :=
| Done
| Throw (msg : string)
| Dispatch (a : action) (k : prog)
| GetState (k : St -> prog)
| Uuid (k : string -> prog)
| UniqueId (k : Z -> prog)
| Request (r : request) (ok : response -> prog) (ko : xhr_error -> prog)
| SetTimeout (cb : prog) (k : prog)
| HistoryStateId (k : option Z -> prog)
| ReplaceHistory (id : Z) (title : string) (u : url) (k : prog)
| SetLocation (u : url) (k : prog)
| HoldReady (hold : bool) (k : prog).

(** Dispatch a list of actions in order, then continue. *)
Fixpoint dispatch_all (l : list action) (k : prog) : prog :=
  match l with
  | [] => k
  | a :: l' => Dispatch a (dispatch_all l' k)
  end.

Context `{BlockRegistry}.

(** [createBlock(name, attributes)]: draws a uid, throws when the type is
    not registered. *)
Definition create_block (nm : string) (given : Attrs) (k : block -> prog) : prog :=
  Uuid (fun u => match createBlock nm given u with
                 | Some b => k b
                 | None => Throw "blockType is undefined"
                 end).

(** [createBlock] on each call of a list, in order. *)
Fixpoint create_blocks (calls : list (string * Attrs)) (k : list block -> prog) : prog :=
  match calls with
  | [] => k []
  | (nm, given) :: calls' =>
      create_block nm given (fun b => create_blocks calls' (fun bs => k (b :: bs)))
  end.

(** The blocks [parse] returns: each parsed block gets a uid. *)
Fixpoint with_uids (parsed : list (string * Attrs)) (k : list block -> prog) : prog :=
  match parsed with
  | [] => k []
  | (nm, given) :: rest => Uuid (fun u => with_uids rest (fun bs => k (mkBlock u nm given :: bs)))
  end.
End Prog.

Arguments prog : clear implicits.

Declare Scope prog_scope.
Delimit Scope prog_scope with prog.
Notation "a ;; k" := (Dispatch a k)
  (at level 100, right associativity) : prog_scope.
Notation "s <- 'getState' ;; k" := (GetState (fun s => k))
  (at level 100, right associativity) : prog_scope.

(** ** The runtime *)

Inductive event :=
| EvDispatch (a : action)
| EvRequest (r : request)
| EvHistory (id : Z) (title : string) (u : url)
| EvLocation (u : url)
| EvHoldReady (hold : bool).

Section Run.
Context {St : Type}.

Record pending := mkPending {
  pend_req : request;
  pend_ok : response -> prog St;
  pend_ko : xhr_error -> prog St
}.

Record world := mkWorld {
  w_state : St;
  w_uuid : N;
  w_unique : Z;
  w_history : option Z;
  w_log : list event;
  w_pending : list pending;
  w_timers : list (prog St)
}.

Definition log_event (e : event) (w : world) : world :=
  mkWorld (w_state w) (w_uuid w) (w_unique w) (w_history w) (w_log w ++ [e])
          (w_pending w) (w_timers w).

Definition set_state (s : St) (w : world) : world :=
  mkWorld s (w_uuid w) (w_unique w) (w_history w) (w_log w) (w_pending w) (w_timers w).

Definition uuid_string (n : N) : string := "uid-" +:+ pretty n.

(** The uids [uuid()] gives [k] times from the counter [n] on. *)
Fixpoint uuid_range (n : N) (k : nat) : list string :=
  match k with
  | O => []
  | S k' => uuid_string n :: uuid_range (N.succ n) k'
  end.

Inductive outcome :=
| Ok (w : world)
| Exn (msg : string) (w : world)
| OutOfFuel.

(** Run a program; [disp] runs a nested dispatch. *)
Fixpoint exec (disp : action -> world -> outcome) (p : prog St) (w : world) : outcome :=
  match p with
  | Done => Ok w
  | Throw m => Exn m w
  | Dispatch a k =>
      match disp a w with
      | Ok w' => exec disp k w'
      | r => r
      end
  | GetState k => exec disp (k (w_state w)) w
  | Uuid k =>
      exec disp (k (uuid_string (w_uuid w)))
        (mkWorld (w_state w) (N.succ (w_uuid w)) (w_unique w) (w_history w)
                 (w_log w) (w_pending w) (w_timers w))
  | UniqueId k =>
      exec disp (k (Z.succ (w_unique w)))
        (mkWorld (w_state w) (w_uuid w) (Z.succ (w_unique w)) (w_history w)
                 (w_log w) (w_pending w) (w_timers w))
  | Request r ok ko =>
      Ok (mkWorld (w_state w) (w_uuid w) (w_unique w) (w_history w)
                  (w_log w ++ [EvRequest r]) (w_pending w ++ [mkPending r ok ko])
                  (w_timers w))
  | SetTimeout cb k =>
      exec disp k (mkWorld (w_state w) (w_uuid w) (w_unique w) (w_history w)
                           (w_log w) (w_pending w) (w_timers w ++ [cb]))
  | HistoryStateId k => exec disp (k (w_history w)) w
  | ReplaceHistory id t u k =>
      exec disp k (mkWorld (w_state w) (w_uuid w) (w_unique w) (Some id)
                           (w_log w ++ [EvHistory id t u]) (w_pending w) (w_timers w))
  | SetLocation u k => exec disp k (log_event (EvLocation u) w)
  | HoldReady b k => exec disp k (log_event (EvHoldReady b) w)
  end.

Context (reduce : action -> St -> St) (effects : action -> option (prog St)).

(** The refx middleware: reducer first, then the handler. *)
Fixpoint dispatch (fuel : nat) (a : action) (w : world) : outcome :=
  match fuel with
  | O => OutOfFuel
  | S f =>
      let w1 := log_event (EvDispatch a) (set_state (reduce a (w_state w)) w) in
      match effects a with
      | Some h => exec (dispatch f) h w1
      | None => Ok w1
      end
  end.

(** ** Fuel *)

Definition not_oof (r : outcome) : Prop :=
  match r with OutOfFuel => False | _ => True end.

(** A dispatcher that answers wherever [d1] answers, with the same
    answer, runs every program to the same outcome. *)
Lemma exec_agree (d1 d2 : action -> world -> outcome) p w :
  (forall a w', not_oof (d1 a w') -> d2 a w' = d1 a w') ->
  not_oof (exec d1 p w) -> exec d2 p w = exec d1 p w.
Proof.
  intros Hd. revert w.
  induction p as [| m | a k IH | k IH | k IH | k IH | r ok ko | cb k IH
                  | k IH | id t u k IH | u k IH | b k IH];
    intros w Hn; simpl in *; auto.
  destruct (d1 a w) eqn:E; try done;
    rewrite Hd by (rewrite E; done); rewrite E; auto.
Qed.

Lemma dispatch_fuel_succ f a w :
  not_oof (dispatch f a w) -> dispatch (Datatypes.S f) a w = dispatch f a w.
Proof.
  revert a w. induction f as [|f IH]; intros a w Hn; [done|].
  simpl in *. destruct (effects a); [|done].
  apply exec_agree; [|done]. intros. apply IH. done.
Qed.

(** More fuel never changes an answer. *)
Lemma dispatch_fuel_mono f g a w :
  f <= g -> not_oof (dispatch f a w) -> dispatch g a w = dispatch f a w.
Proof.
  induction 1 as [|g Hle IH]; intros Hn; [done|].
  rewrite dispatch_fuel_succ; rewrite IH; done.
Qed.

(** A program whose dispatches all go to actions in [D], for every value
    its primitives return. *)
Inductive dispatches_in (D : action -> Prop) : prog St -> Prop :=
| di_done : dispatches_in D Done
| di_throw m : dispatches_in D (Throw m)
| di_dispatch a k : D a -> dispatches_in D k -> dispatches_in D (Dispatch a k)
| di_get k : (forall s, dispatches_in D (k s)) -> dispatches_in D (GetState k)
| di_uuid k : (forall u, dispatches_in D (k u)) -> dispatches_in D (Uuid k)
| di_unique k : (forall n, dispatches_in D (k n)) -> dispatches_in D (UniqueId k)
| di_request r ok ko : dispatches_in D (Request r ok ko)
| di_timeout cb k : dispatches_in D k -> dispatches_in D (SetTimeout cb k)
| di_history k : (forall o, dispatches_in D (k o)) -> dispatches_in D (HistoryStateId k)
| di_replace id t u k : dispatches_in D k -> dispatches_in D (ReplaceHistory id t u k)
| di_location u k : dispatches_in D k -> dispatches_in D (SetLocation u k)
| di_hold b k : dispatches_in D k -> dispatches_in D (HoldReady b k).

(** A program whose dispatches all go to actions in [D] and whose requests
    are all in [R], down to the callbacks and timers it registers, for
    every value its primitives return. *)
Inductive deep_in (D : action -> Prop) (R : request -> Prop) : prog St -> Prop :=
| dp_done : deep_in D R Done
| dp_throw m : deep_in D R (Throw m)
| dp_dispatch a k : D a -> deep_in D R k -> deep_in D R (Dispatch a k)
| dp_get k : (forall s, deep_in D R (k s)) -> deep_in D R (GetState k)
| dp_uuid k : (forall u, deep_in D R (k u)) -> deep_in D R (Uuid k)
| dp_unique k : (forall n, deep_in D R (k n)) -> deep_in D R (UniqueId k)
| dp_request r ok ko : R r -> (forall resp, deep_in D R (ok resp)) ->
    (forall e, deep_in D R (ko e)) -> deep_in D R (Request r ok ko)
| dp_timeout cb k : deep_in D R cb -> deep_in D R k -> deep_in D R (SetTimeout cb k)
| dp_history k : (forall o, deep_in D R (k o)) -> deep_in D R (HistoryStateId k)
| dp_replace id t u k : deep_in D R k -> deep_in D R (ReplaceHistory id t u k)
| dp_location u k : deep_in D R k -> deep_in D R (SetLocation u k)
| dp_hold b k : deep_in D R k -> deep_in D R (HoldReady b k).

(** The actions whose dispatch never runs out of fuel [f]. *)
Definition total_at (f : nat) (a : action) : Prop :=
  forall w, not_oof (dispatch f a w).

Lemma exec_total f p w :
  dispatches_in (total_at f) p -> not_oof (exec (dispatch f) p w).
Proof.
  intros Hp. revert w. induction Hp; intros w; simpl; try done; try auto.
  specialize (H w) as Ha.
  destruct (dispatch f a w); done.
Qed.

(** An action with no handler, or whose handler only dispatches actions
    that are total at [f], is total at [S f]. *)
Lemma total_at_succ f a :
  match effects a with
  | Some h => dispatches_in (total_at f) h
  | None => True
  end -> total_at (Datatypes.S f) a.
Proof.
  intros Hh w. simpl. destruct (effects a); [|done]. apply exec_total. done.
Qed.
End Run.

Arguments world : clear implicits.
Arguments outcome : clear implicits.
Arguments pending : clear implicits.

#[export] Hint Constructors dispatches_in : gb.

(** ** Running one handler

    To state what a handler does on its own, its dispatches go to the
    reducer only ([leaf]): this is what the middleware does for every
    action that has no handler of its own. *)
Section Leaf.
Context {St : Type} (reduce : action -> St -> St).

Definition leaf (a : action) (w : world St) : outcome St :=
  Ok (log_event (EvDispatch a) (set_state (reduce a (w_state w)) w)).

(** The log of a normal return, [None] for a throw or no fuel. *)
Definition ok_log (o : outcome St) : option (list event) :=
  match o with Ok w => Some (w_log w) | _ => None end.

Definition ok_pending (o : outcome St) : option (list (pending St)) :=
  match o with Ok w => Some (w_pending w) | _ => None end.

Lemma dispatch_no_handler (effects : action -> option (prog St)) f a w :
  effects a = None -> dispatch reduce effects (S f) a w = leaf a w.
Proof. intros E. simpl. rewrite E. reflexivity. Qed.

Lemma exec_leaf_dispatch (a : action) k w :
  exec leaf (Dispatch a k) w
  = exec leaf k (log_event (EvDispatch a) (set_state (reduce a (w_state w)) w)).
Proof. reflexivity. Qed.

Lemma ok_log_exec_leaf_dispatch (a : action) k w :
  ok_log (exec leaf (Dispatch a k) w)
  = ok_log (exec leaf k (log_event (EvDispatch a) (set_state (reduce a (w_state w)) w))).
Proof. reflexivity. Qed.

Lemma log_event_log e (w : world St) : w_log (log_event e w) = w_log w ++ [e].
Proof. reflexivity. Qed.

Lemma set_state_log s (w : world St) : w_log (set_state s w) = w_log w.
Proof. reflexivity. Qed.
End Leaf.

#[export] Hint Rewrite @exec_leaf_dispatch @log_event_log @set_state_log : gb_rw.

Section CreateBlocks.
Context {St : Type} `{BlockRegistry} (disp : action -> world St -> outcome St).

(** When every call names a registered type, [create_blocks] hands its
    continuation one block per call, each the result of [createBlock] on
    that call, and changes nothing but the uid counter. *)
Lemma exec_create_blocks (calls : list (string * Attrs)) (k : list block -> prog St) w :
  Forall (fun c => is_Some (getBlockType c.1)) calls ->
  exists bs w',
    exec disp (create_blocks calls k) w = exec disp (k bs) w' /\
    Forall2 (fun c b => createBlock c.1 c.2 (uid b) = Some b) calls bs /\
    w_state w' = w_state w /\ w_log w' = w_log w /\ w_pending w' = w_pending w /\
    w_history w' = w_history w /\ map uid bs = uuid_range (w_uuid w) (length calls).
Proof.
  revert k w. induction calls as [|[nm given] calls IH]; intros k w Hreg.
  - exists [], w. repeat split; constructor.
  - apply Forall_cons in Hreg as [[bt Hbt] Hreg]. simpl in Hbt.
    simpl. unfold createBlock at 1. rewrite Hbt.
    set (w1 := mkWorld _ _ _ _ _ _ _).
    destruct (IH (fun bs => k (mkBlock (uuid_string (w_uuid w)) nm
                                (create_attributes (bt_attributes bt) given) :: bs)) w1 Hreg)
      as (bs & w' & Hrun & Hbs & Hs & Hl & Hp & Hh & Hu).
    eexists (_ :: bs), w'. split; [exact Hrun|].
    repeat split; try done.
    + constructor; [|done]. simpl. unfold createBlock. rewrite Hbt. reflexivity.
    + simpl. by rewrite Hu.
Qed.

(** One [createBlock] of a registered type. *)
Lemma exec_create_block (nm : string) (given : Attrs) (k : block -> prog St) w bt :
  getBlockType nm = Some bt ->
  exists b w',
    exec disp (create_block nm given k) w = exec disp (k b) w' /\
    createBlock nm given (uid b) = Some b /\
    w_state w' = w_state w /\ w_log w' = w_log w /\ w_pending w' = w_pending w /\
    w_history w' = w_history w.
Proof.
  intros Hbt. unfold create_block. simpl. unfold createBlock at 1. rewrite Hbt.
  eexists _, _. split; [reflexivity|]. unfold createBlock. rewrite Hbt. done.
Qed.
End CreateBlocks.

Section WithUids.
Context {St : Type} (disp : action -> world St -> outcome St).

(** [with_uids] keeps every parsed name and attributes, in order, and
    changes nothing but the uid counter. *)
Lemma exec_with_uids (parsed : list (string * Attrs)) (k : list block -> prog St) w :
  exists bs w',
    exec disp (with_uids parsed k) w = exec disp (k bs) w' /\
    map (fun b => (name b, attributes b)) bs = parsed /\
    w_state w' = w_state w /\ w_log w' = w_log w /\ w_pending w' = w_pending w /\
    w_history w' = w_history w /\ map uid bs = uuid_range (w_uuid w) (length parsed).
Proof.
  revert k w. induction parsed as [|[nm given] parsed IH]; intros k w.
  - exists [], w. repeat split.
  - simpl. set (w1 := mkWorld _ _ _ _ _ _ _).
    destruct (IH (fun bs => k (mkBlock (uuid_string (w_uuid w)) nm given :: bs)) w1)
      as (bs & w' & Hrun & Hbs & Hs & Hl & Hp & Hh & Hu).
    eexists (_ :: bs), w'. split; [exact Hrun|]. simpl. rewrite Hbs, Hu. done.
Qed.
End WithUids.

Section DispatchesIn.
Context {St : Type} `{BlockRegistry} (D : action -> Prop).

Lemma dispatches_in_all (p : prog St) : (forall a, D a) -> dispatches_in D p.
Proof. intros HD. induction p; constructor; auto. Qed.

Lemma dispatches_in_dispatch_all (l : list action) (k : prog St) :
  Forall D l -> dispatches_in D k -> dispatches_in D (dispatch_all l k).
Proof. induction 1; simpl; auto using dispatches_in. Qed.

Lemma dispatches_in_create_block nm given (k : block -> prog St) :
  (forall b, dispatches_in D (k b)) -> dispatches_in D (create_block nm given k).
Proof.
  intros Hk. constructor. intros u. destruct (createBlock nm given u); auto using dispatches_in.
Qed.

Lemma dispatches_in_create_blocks calls (k : list block -> prog St) :
  (forall bs, dispatches_in D (k bs)) -> dispatches_in D (create_blocks calls k).
Proof.
  revert k. induction calls as [|[nm given] calls IH]; intros k Hk; simpl; [done|].
  apply dispatches_in_create_block. intros b. apply IH. auto.
Qed.

Lemma dispatches_in_with_uids parsed (k : list block -> prog St) :
  (forall bs, dispatches_in D (k bs)) -> dispatches_in D (with_uids parsed k).
Proof.
  revert k. induction parsed as [|[nm given] parsed IH]; intros k Hk; simpl; [done|].
  constructor. intros u. apply IH. auto.
Qed.
End DispatchesIn.

#[export] Hint Resolve dispatches_in_dispatch_all dispatches_in_create_block
  dispatches_in_create_blocks dispatches_in_with_uids : gb.

Section Deep.
Context {St : Type} `{BlockRegistry} (D : action -> Prop) (R : request -> Prop).

Lemma deep_in_dispatch_all (l : list action) (k : prog St) :
  Forall D l -> deep_in D R k -> deep_in D R (dispatch_all l k).
Proof. induction 1; simpl; auto using deep_in. Qed.

Lemma deep_in_create_block nm given (k : block -> prog St) :
  (forall b, deep_in D R (k b)) -> deep_in D R (create_block nm given k).
Proof. intros Hk. constructor. intros u. destruct (createBlock nm given u); auto using deep_in. Qed.

Lemma deep_in_create_blocks calls (k : list block -> prog St) :
  (forall bs, deep_in D R (k bs)) -> deep_in D R (create_blocks calls k).
Proof.
  revert k. induction calls as [|[nm given] calls IH]; intros k Hk; simpl; [done|].
  apply deep_in_create_block. auto.
Qed.

Lemma deep_in_with_uids parsed (k : list block -> prog St) :
  (forall bs, deep_in D R (k bs)) -> deep_in D R (with_uids parsed k).
Proof.
  revert k. induction parsed as [|[nm given] parsed IH]; intros k Hk; simpl; [done|].
  constructor. auto.
Qed.
End Deep.

(** ** Uids *)

Lemma uuid_string_inj (m n : N) : uuid_string m = uuid_string n -> m = n.
Proof. unfold uuid_string. intros H. by apply (inj pretty), (inj (String.append "uid-")). Qed.

Lemma elem_of_uuid_range x (n : N) k :
  x ∈ uuid_range n k -> exists i, (n <= i)%N /\ x = uuid_string i.
Proof.
  revert n. induction k as [|k IH]; intros n; simpl; [by intros ?%elem_of_nil|].
  rewrite elem_of_cons. intros [->|Hx]; [exists n; split; [lia|done]|].
  destruct (IH _ Hx) as (i & Hi & ->). exists i. split; [lia|done].
Qed.

(** The uids [uuid()] draws are pairwise distinct. *)
Lemma NoDup_uuid_range (n : N) k : NoDup (uuid_range n k).
Proof.
  revert n. induction k as [|k IH]; intros n; simpl; constructor; [|apply IH].
  intros (i & Hi & Heq)%elem_of_uuid_range. apply uuid_string_inj in Heq. lia.
Qed.
