(* ===== verification/PostSave.v ===== *)
(** Saving a post: [REQUEST_POST_UPDATE], [REQUEST_POST_UPDATE_SUCCESS] and
    [REQUEST_POST_UPDATE_FAILURE] of [src/editor/effects.js] (lines
    60-159), with the notice each outcome shows.

    The request handler dispatches the optimistic [UPDATE_POST] (marker
    [BEGIN] on the transaction [post-update]), clears the save notice and
    sends the post; the success callback resets the post and dispatches the
    success action with [COMMIT], the failure callback dispatches the
    failure action with [REVERT].  The theorems give the events of each
    handler and of each callback, and the notice chosen in every case. *)

From stdpp Require Import pretty.
From S2P Require Import Prelude Blocks Actions Program.

Open Scope prog_scope.

Definition SAVE_POST_NOTICE_ID : string := "SAVE_POST_NOTICE_ID".
Definition POST_UPDATE_TRANSACTION_ID : string := "post-update".

(** [const publishStatus = [ 'publish', 'private', 'future' ]] *)
Definition publishStatus : list string := ["publish"; "private"; "future"].

(** The [messages] object of the success handler. *)
Definition success_messages : gmap string string :=
  <["publish" := "Post published!"]> (<["private" := "Post published privately!"]>
    (<["future" := "Post scheduled!"]> ∅)).

(** The [messages] object of the failure handler. *)
Definition failure_messages : gmap string string :=
  <["publish" := "Publishing failed"]> (<["private" := "Publishing failed"]>
    (<["future" := "Scheduling failed"]> ∅)).

(** The notice of a successful save, [None] when none is shown: lines
    106-120. *)
Definition success_notice_message (previousStatus status : string) : option string :=
  let isPublished := mem_str publishStatus (Some previousStatus) in
  if isPublished || mem_str publishStatus (Some status) then
    Some (if negb isPublished && mem_str publishStatus (Some status)
          then default "" (success_messages !! status)
          else "Post updated!")
  else None.

(** The notice of a failed save: lines 146-157.  [editsStatus] is
    [edits.status], absent or not a string when the edits do not set it. *)
Definition failure_notice_message (postStatus : string) (editsStatus : option string) : string :=
  let isPublished := mem_str publishStatus (Some postStatus) in
  if negb isPublished && mem_str publishStatus editsStatus
  then default "" (editsStatus ≫= fun s => failure_messages !! s)
  else "Updating failed".

(** [getPostEditUrl(id)] of [editor/utils/url]. *)
Definition getPostEditUrl (id : Z) : url :=
  mkUrl "post.php" [("post", VNum id); ("action", VStr "edit")].

Section Handlers.
Context {St : Type} `{EditorSelectors St}.

(** [{ ...edits, content: getEditedPostContent(state), id: post.id }] *)
Definition post_to_send (state : St) : Attrs :=
  getPostEdits state <+ <["content" := VStr (getEditedPostContent state)]>
                          (<["id" := VNum (post_id (getCurrentPost state))]> ∅).

(** The failure value of the save: the server's JSON body, else the
    generic error ([get(err, 'responseJSON', {...})]). *)
Definition save_error (err : xhr_error) : api_error :=
  default unknown_error (responseJSON err).

(** Lines 60-101.  The API answers a save with the saved post; any other
    answer is not a save response ([response_fits] in [System]). *)
Definition REQUEST_POST_UPDATE : prog St :=
  state <- getState ;;
  let post := getCurrentPost state in
  let edits := getPostEdits state in
  let toSend := post_to_send state in
  UpdatePost toSend (mkOptimist BEGIN POST_UPDATE_TRANSACTION_ID) ;;
  RemoveNotice SAVE_POST_NOTICE_ID ;;
  Request (ApiSavePost (getCurrentPostType state) toSend)
    (fun resp =>
       match resp with
       | RespPost newPost =>
           ResetPost newPost ;;
           RequestPostUpdateSuccess post newPost
             (mkOptimist COMMIT POST_UPDATE_TRANSACTION_ID) ;;
           Done
       | _ => Done
       end)
    (fun err =>
       RequestPostUpdateFailure (save_error err) post edits
         (mkOptimist REVERT POST_UPDATE_TRANSACTION_ID) ;;
       Done).

(** Lines 131-140: refresh the dirty meta boxes, then point the history
    entry at the saved post unless it already does. *)
Definition after_save_notice (post : post) : prog St :=
  state <- getState ;;
  RequestMetaBoxUpdates (getDirtyMetaBoxes state) ;;
  HistoryStateId (fun hid =>
    if decide (hid = Some (post_id post)) then Done
    else ReplaceHistory (post_id post) ("Post " +:+ pretty (post_id post))
           (getPostEditUrl (post_id post)) Done).

(** Lines 102-141. *)
Definition REQUEST_POST_UPDATE_SUCCESS (previousPost post : post) : prog St :=
  match success_notice_message (post_status previousPost) (post_status post) with
  | Some noticeMessage =>
      CreateNotice NSuccess (NViewPost noticeMessage (post_link post)) SAVE_POST_NOTICE_ID ;;
      after_save_notice post
  | None => after_save_notice post
  end.

(** Lines 142-159. *)
Definition REQUEST_POST_UPDATE_FAILURE (post : post) (edits : Attrs) : prog St :=
  CreateNotice NError
    (NText (failure_notice_message (post_status post) (as_string (edits !! "status"))))
    SAVE_POST_NOTICE_ID ;;
  Done.
(** The state [after_save_notice] reads: after the notice, if one was
    dispatched. *)
Definition state_after_notice (reduce : action -> St -> St) (previousPost p : post) (s : St) : St :=
  match success_notice_message (post_status previousPost) (post_status p) with
  | Some m => reduce (CreateNotice NSuccess (NViewPost m (post_link p)) SAVE_POST_NOTICE_ID) s
  | None => s
  end.

End Handlers.

(** ** Notices *)

Lemma publishStatus_cases s :
  s ∈ publishStatus <-> s = "publish" \/ s = "private" \/ s = "future".
Proof. unfold publishStatus. rewrite !elem_of_cons, elem_of_nil. tauto. Qed.

(** Destruct [s ∈ publishStatus] into its three cases or its negation. *)
Ltac publish_case s :=
  let Hin := fresh "Hin" in
  destruct (decide (s ∈ publishStatus)) as [Hin|Hin];
  [apply publishStatus_cases in Hin; destruct Hin as [Hin|[Hin|Hin]]; subst s|].

(** (C7) The success notice: ["Post updated!"] whenever the previous post
    was published (publish, private or future); otherwise the message of
    the new status when the save publishes, privately publishes or
    schedules it. *)
Theorem success_notice_message_spec (prev st m : string) :
  success_notice_message prev st = Some m <->
  (prev ∈ publishStatus /\ m = "Post updated!") \/
  ((prev ∉ publishStatus) /\
     ((st = "publish" /\ m = "Post published!") \/
      (st = "private" /\ m = "Post published privately!") \/
      (st = "future" /\ m = "Post scheduled!"))).
Proof.
  unfold success_notice_message. rewrite !mem_str_Some.
  case_bool_decide as Hp; simpl.
  - split; [intros [= <-]; by left|]. intros [[_ ->]|[Hn _]]; done.
  - case_bool_decide as Hs; simpl.
    + split.
      * intros [= <-]. right. split; [done|].
        publish_case st; [left|right; left|right; right|done]; done.
      * intros [[Hin _]|[_ Hc]]; [done|].
        destruct Hc as [[-> ->]|[[-> ->]|[-> ->]]]; done.
    + split; [done|]. intros [[Hin _]|[_ Hc]]; [done|].
      destruct Hc as [[-> _]|[[-> _]|[-> _]]]; exfalso; apply Hs, publishStatus_cases; auto.
Qed.

(** (C8) No success notice exactly when neither the previous nor the new
    status is published. *)
Theorem success_notice_message_none (prev st : string) :
  success_notice_message prev st = None <->
  (prev ∉ publishStatus) /\ (st ∉ publishStatus).
Proof.
  unfold success_notice_message. rewrite !mem_str_Some.
  do 2 case_bool_decide; simpl; intuition congruence.
Qed.

(** (C9) The failure notice depends on the post's status and on the status
    the failed save tried to set: publishing or private publishing of an
    unpublished post fails with ["Publishing failed"], scheduling it with
    ["Scheduling failed"], and anything else with ["Updating failed"]. *)
Theorem failure_notice_message_spec (postStatus : string) (editsStatus : option string) :
  failure_notice_message postStatus editsStatus =
  if decide (postStatus ∈ publishStatus) then "Updating failed"
  else if decide (editsStatus = Some "publish" \/ editsStatus = Some "private")
  then "Publishing failed"
  else if decide (editsStatus = Some "future") then "Scheduling failed"
  else "Updating failed".
Proof.
  unfold failure_notice_message. rewrite mem_str_Some.
  destruct (decide (postStatus ∈ publishStatus)) as [Hp|Hp].
  - rewrite bool_decide_true by done. reflexivity.
  - rewrite bool_decide_false by done.
    destruct editsStatus as [es|];
      [|simpl; repeat case_decide; intuition congruence].
    rewrite mem_str_Some. publish_case es; simpl;
      repeat case_decide; try reflexivity; intuition (simplify_eq; try done).
    all: exfalso; apply Hin, publishStatus_cases; auto.
Qed.

(** ** The handlers' events *)

Section Events.
Context {St : Type} `{EditorSelectors St} (reduce : action -> St -> St).

Abbreviation run p w := (exec (leaf reduce) p w).

(** (C6) [REQUEST_POST_UPDATE] dispatches the optimistic [UPDATE_POST]
    ([BEGIN] on [post-update]) with the edits, the edited content and the
    post id, then clears the save notice, then sends the same object to
    the API; its success callback resets the post to the server's copy and
    then dispatches the success action marked [COMMIT], its failure
    callback dispatches the failure action marked [REVERT] carrying the
    server's error or the generic one. *)
Theorem request_post_update_events (w : world St) :
  let s := w_state w in
  let toSend := post_to_send s in
  ok_log (run REQUEST_POST_UPDATE w) =
    Some (w_log w ++ [EvDispatch (UpdatePost toSend (mkOptimist BEGIN POST_UPDATE_TRANSACTION_ID));
                      EvDispatch (RemoveNotice SAVE_POST_NOTICE_ID);
                      EvRequest (ApiSavePost (getCurrentPostType s) toSend)]) /\
  exists ok ko,
    ok_pending (run REQUEST_POST_UPDATE w) =
      Some (w_pending w ++ [mkPending (ApiSavePost (getCurrentPostType s) toSend) ok ko]) /\
    (forall newPost (w' : world St),
       ok_log (run (ok (RespPost newPost)) w') =
         Some (w_log w' ++ [EvDispatch (ResetPost newPost);
                            EvDispatch (RequestPostUpdateSuccess (getCurrentPost s) newPost
                                          (mkOptimist COMMIT POST_UPDATE_TRANSACTION_ID))])) /\
    (forall err (w' : world St),
       ok_log (run (ko err) w') =
         Some (w_log w' ++ [EvDispatch (RequestPostUpdateFailure
                                          (default unknown_error (responseJSON err))
                                          (getCurrentPost s) (getPostEdits s)
                                          (mkOptimist REVERT POST_UPDATE_TRANSACTION_ID))])).
Proof.
  simpl. split; [by rewrite <- ?app_assoc|].
  eexists _, _. split; [reflexivity|].
  split; intros; simpl; by rewrite <- ?app_assoc.
Qed.

(** (C10) [REQUEST_POST_UPDATE_SUCCESS] dispatches the success notice
    chosen by [success_notice_message] (none when it is [None]), then asks
    for the dirty meta boxes to be updated, then replaces the history
    entry with the saved post's edit URL unless the entry already names
    the post. *)
Theorem request_post_update_success_events (previousPost p : post) (w : world St) :
  ok_log (run (REQUEST_POST_UPDATE_SUCCESS previousPost p) w) =
    Some (w_log w
          ++ match success_notice_message (post_status previousPost) (post_status p) with
             | Some m => [EvDispatch (CreateNotice NSuccess (NViewPost m (post_link p))
                                        SAVE_POST_NOTICE_ID)]
             | None => []
             end
          ++ [EvDispatch (RequestMetaBoxUpdates
                           (getDirtyMetaBoxes (state_after_notice reduce previousPost p (w_state w))))]
          ++ if decide (w_history w = Some (post_id p)) then []
             else [EvHistory (post_id p) ("Post " +:+ pretty (post_id p))
                             (getPostEditUrl (post_id p))]).
Proof.
  unfold REQUEST_POST_UPDATE_SUCCESS, state_after_notice.
  destruct (success_notice_message _ _); simpl;
    case_decide; simpl; by rewrite <- ?app_assoc.
Qed.

(** [REQUEST_POST_UPDATE_FAILURE] dispatches exactly one error notice,
    on the save notice id, whose text is [failure_notice_message] of the
    post's status and the status the edits tried to set. *)
Theorem request_post_update_failure_events (p : post) (edits : Attrs) (w : world St) :
  ok_log (run (REQUEST_POST_UPDATE_FAILURE p edits) w) =
    Some (w_log w ++ [EvDispatch (CreateNotice NError
            (NText (failure_notice_message (post_status p) (as_string (edits !! "status"))))
            SAVE_POST_NOTICE_ID)]).
Proof. reflexivity. Qed.
End Events.
