(* ===== verification/Trash.v ===== *)
(** Trashing a post: [TRASH_POST], [TRASH_POST_SUCCESS] and
    [TRASH_POST_FAILURE] of [src/editor/effects.js] (lines 160-199).

    The request handler clears the trash notice and asks the API to
    destroy the post; success redirects to the posts list after a
    [setTimeout], failure shows the server's message unless the error is
    the generic one. *)

From S2P Require Import Prelude Blocks Actions Program PostSave.

Open Scope prog_scope.

Definition TRASH_POST_NOTICE_ID : string := "TRASH_POST_NOTICE_ID".

(** [getWPAdminURL(page, query)] of [editor/utils/url]. *)
Definition getWPAdminURL (page : string) (query : list (string * Value)) : url :=
  mkUrl page query.

(** The URL of the posts list after trashing [postId] (lines 189-193). *)
Definition trashed_url (postId : Z) (postType : string) : url :=
  getWPAdminURL "edit.php" [("trashed", VNum 1); ("post_type", VStr postType); ("ids", VNum postId)].

(** Line 197: [action.error.message && action.error.code !== 'unknown_error'
    ? action.error.message : __('Trashing failed')]. *)
Definition trash_failure_message (error : api_error) : string :=
  match err_message error with
  | Some m => if str_truthy (Some m) && negb (bool_decide (err_code error = Some "unknown_error"))
              then m else "Trashing failed"
  | None => "Trashing failed"
  end.

Section Handlers.
Context {St : Type} `{EditorSelectors St}.

(** Lines 160-183: the success and failure actions copy the request's
    [postId] and [postType] ([{ ...action, type }]). *)
Definition TRASH_POST (postId : Z) (postType : string) : prog St :=
  state <- getState ;;
  RemoveNotice TRASH_POST_NOTICE_ID ;;
  Request (ApiDestroyPost (getCurrentPostType state) postId)
    (fun _ => TrashPostSuccess postId postType ;; Done)
    (fun err => TrashPostFailure postId postType (save_error err) ;; Done).

(** Lines 184-195. *)
Definition TRASH_POST_SUCCESS (postId : Z) (postType : string) : prog St :=
  SetTimeout (SetLocation (trashed_url postId postType) Done) Done.

(** Lines 196-199. *)
Definition TRASH_POST_FAILURE (error : api_error) : prog St :=
  CreateNotice NError (NText (trash_failure_message error)) TRASH_POST_NOTICE_ID ;;
  Done.
End Handlers.

Section Events.
Context {St : Type} `{EditorSelectors St} (reduce : action -> St -> St).

Abbreviation run p w := (exec (leaf reduce) p w).

(** (C31) [TRASH_POST] clears the trash notice and then sends the delete
    request for the post; its success callback dispatches the success
    action and its failure callback the failure action with the server's
    error or the generic one, both with the request's id and type. *)
Theorem trash_post_events (postId : Z) (postType : string) (w : world St) :
  let req := ApiDestroyPost (getCurrentPostType (w_state w)) postId in
  ok_log (run (TRASH_POST postId postType) w) =
    Some (w_log w ++ [EvDispatch (RemoveNotice TRASH_POST_NOTICE_ID); EvRequest req]) /\
  exists ok ko,
    ok_pending (run (TRASH_POST postId postType) w) = Some (w_pending w ++ [mkPending req ok ko]) /\
    (forall resp (w' : world St),
       ok_log (run (ok resp) w') =
         Some (w_log w' ++ [EvDispatch (TrashPostSuccess postId postType)])) /\
    (forall err (w' : world St),
       ok_log (run (ko err) w') =
         Some (w_log w' ++ [EvDispatch (TrashPostFailure postId postType
                                          (default unknown_error (responseJSON err)))])).
Proof.
  simpl. split; [by rewrite <- ?app_assoc|].
  eexists _, _. split; [reflexivity|]. split; reflexivity.
Qed.

(** [TRASH_POST_SUCCESS] changes nothing at once: it only schedules
    one timer, and that timer navigates to the posts list with
    [trashed=1], the post type and the post id. *)
Theorem trash_post_success_deferred (postId : Z) (postType : string) (w : world St) :
  exists w', run (TRASH_POST_SUCCESS postId postType) w = Ok w' /\
    w_log w' = w_log w /\ w_state w' = w_state w /\
    w_timers w' = w_timers w ++ [SetLocation (trashed_url postId postType) Done] /\
    ok_log (run (SetLocation (trashed_url postId postType) Done) w')
      = Some (w_log w ++ [EvLocation (trashed_url postId postType)]).
Proof. eexists. repeat split. Qed.
End Events.
