(* ===== verification/Merge.v ===== *)
(** Merging two blocks: [MERGE_BLOCKS] of [src/editor/effects.js] (lines
    200-242), against the block-type registry [BlockRegistry].

    [blockA] is the merge target.  Without a [merge] function on its type
    only the focus moves to it.  Otherwise [blockB] is taken as it is when
    the two types agree, or converted with [switchToBlockType]; an empty or
    failed conversion does nothing, an exception of the transform goes
    through; else the target's attributes are
    overridden by [merge(A.attributes, first.attributes)], the focus moves
    to the end of [blockA], and the two blocks are replaced by the merged
    block followed by the rest of the converted blocks. *)

From S2P Require Import Prelude Blocks Actions Program.

Open Scope prog_scope.

Section Merge.
Context {St : Type} `{BlockRegistry}.

(** Lines 213-215: [[ blockB ]] for equal names, else the blocks
    [switchToBlockType] creates ([None] for its [null]); an exception of
    the transform propagates. *)
Definition blocks_with_the_same_type (blockA blockB : block)
    (k : option (list block) -> prog St) : prog St :=
  if String.eqb (name blockA) (name blockB) then k (Some [blockB])
  else match switchToBlockType blockB (name blockA) with
       | Switched calls => create_blocks calls (fun bs => k (Some bs))
       | SwitchNull => k None
       | SwitchThrows msg => Throw msg
       end.

(** [{ ...blockA, attributes: { ...blockA.attributes, ...updatedAttributes } }] *)
Definition merged_block (blockA : block) (updatedAttributes : Attrs) : block :=
  mkBlock (uid blockA) (name blockA) (attributes blockA <+ updatedAttributes).

(** Lines 200-242.  [getBlockType(blockA.name)] is [undefined] for an
    unregistered type, and reading [.merge] on it throws. *)
Definition MERGE_BLOCKS (blockA blockB : block) : prog St :=
  match getBlockType (name blockA) with
  | None => Throw "Cannot read property 'merge' of undefined"
  | Some blockType =>
      match bt_merge blockType with
      | None => UpdateFocus (uid blockA) None ;; Done
      | Some merge =>
          blocks_with_the_same_type blockA blockB (fun same =>
            match same with
            | None | Some [] => Done
            | Some (first :: rest) =>
                let updatedAttributes := merge (attributes blockA) (attributes first) in
                UpdateFocus (uid blockA) (Some (-1)%Z) ;;
                ReplaceBlocks [uid blockA; uid blockB]
                  (merged_block blockA updatedAttributes :: rest) ;;
                Done
            end)
      end
  end.
End Merge.

(** ** Fixtures for the witnesses: a registry with one mergeable type
    [core/text] whose [merge] returns [{ a: 1 }], and one type [core/plain]
    without [merge]. *)
Definition text_merge (_ _ : Attrs) : Attrs := <["a" := VNum 1]> ∅.

(** [core/plain] converts to a [core/text] block followed by an empty
    [core/plain] block. *)
Definition plain_to : list transform :=
  [mkTransform TBlock ["core/text"] (Some (fun a => inr [("core/text", a); ("core/plain", ∅)]))].

Definition fixture_types (nm : string) : option block_type :=
  if String.eqb nm "core/text" then Some (mkBlockType "core/text" ∅ (Some text_merge) [] [])
  else if String.eqb nm "core/plain" then Some (mkBlockType "core/plain" ∅ None [] plain_to)
  else None.

Definition fixture_world : world unit := mkWorld tt 0 0 None [] [] [].

Section Events.
Context {St : Type} `{BlockRegistry} (reduce : action -> St -> St).

Abbreviation run p w := (exec (leaf reduce) p w).

(** (C12) When the target's type declares no [merge], the handler only
    moves the focus to the target: one [UPDATE_FOCUS] and no
    [REPLACE_BLOCKS], whatever the second block is. *)
Theorem merge_blocks_not_mergeable (blockA blockB : block) (bt : block_type) (w : world St) :
  getBlockType (name blockA) = Some bt -> bt_merge bt = None ->
  ok_log (run (MERGE_BLOCKS blockA blockB) w)
  = Some (w_log w ++ [EvDispatch (UpdateFocus (uid blockA) None)]).
Proof. intros Hbt Hm. unfold MERGE_BLOCKS. rewrite Hbt, Hm. reflexivity. Qed.

(** (C11) Two blocks of one mergeable type: the focus moves to the end of
    the target ([offset: -1]), then both blocks are replaced by the target
    alone, its attributes overridden by those [merge] returns. *)
Theorem merge_blocks_same_type (blockA blockB : block) (bt : block_type) merge (w : world St) :
  getBlockType (name blockA) = Some bt -> bt_merge bt = Some merge ->
  name blockA = name blockB ->
  ok_log (run (MERGE_BLOCKS blockA blockB) w)
  = Some (w_log w ++ [EvDispatch (UpdateFocus (uid blockA) (Some (-1)%Z));
                      EvDispatch (ReplaceBlocks [uid blockA; uid blockB]
                        [merged_block blockA (merge (attributes blockA) (attributes blockB))])]).
Proof.
  intros Hbt Hm Hn. unfold MERGE_BLOCKS, blocks_with_the_same_type.
  rewrite Hbt, Hm, Hn, String.eqb_refl. simpl. by rewrite <- app_assoc.
Qed.

(** A cross-type merge once [switchToBlockType] has converted the second
    block: the blocks [createBlock] makes of the conversion's calls, the
    first merged into the target and the rest after it. *)
Lemma exec_merge_switched (blockA blockB : block) (bt : block_type) merge calls (w : world St) :
  getBlockType (name blockA) = Some bt -> bt_merge bt = Some merge ->
  name blockA <> name blockB ->
  switchToBlockType blockB (name blockA) = Switched calls ->
  exists first rest,
    Forall2 (fun c b => createBlock c.1 c.2 (uid b) = Some b) calls (first :: rest) /\
    ok_log (run (MERGE_BLOCKS blockA blockB) w)
    = Some (w_log w ++ [EvDispatch (UpdateFocus (uid blockA) (Some (-1)%Z));
                        EvDispatch (ReplaceBlocks [uid blockA; uid blockB]
                          (merged_block blockA (merge (attributes blockA) (attributes first))
                           :: rest))]).
Proof.
  intros Hbt Hm Hn Hsw. unfold MERGE_BLOCKS, blocks_with_the_same_type.
  rewrite Hbt, Hm, Hsw. destruct (String.eqb_spec (name blockA) (name blockB)); [done|].
  destruct (switchToBlockType_registered _ _ _ Hsw) as [Hreg Hex].
  edestruct (exec_create_blocks (leaf reduce) calls) as (bs & w' & Hrun & Hbs & Hs & Hl & _);
    [exact Hreg|].
  rewrite Hrun. destruct bs as [|first rest].
  - apply Forall2_nil_inv_r in Hbs as ->. inversion Hex.
  - exists first, rest. split; [done|]. simpl. rewrite Hl. by rewrite <- app_assoc.
Qed.

(** (C13) Blocks of different types: when [switchToBlockType] converts the
    second block, the first converted block is merged into the target and
    the rest follow it in the replacement; every converted block is what
    [createBlock] makes of a conversion result, in order. *)
Theorem merge_blocks_converted (blockA blockB : block) (bt : block_type) merge calls (w : world St) :
  getBlockType (name blockA) = Some bt -> bt_merge bt = Some merge ->
  name blockA <> name blockB ->
  switchToBlockType blockB (name blockA) = Switched calls ->
  exists first rest,
    Forall2 (fun c b => createBlock c.1 c.2 (uid b) = Some b) calls (first :: rest) /\
    ok_log (run (MERGE_BLOCKS blockA blockB) w)
    = Some (w_log w ++ [EvDispatch (UpdateFocus (uid blockA) (Some (-1)%Z));
                        EvDispatch (ReplaceBlocks [uid blockA; uid blockB]
                          (merged_block blockA (merge (attributes blockA) (attributes first))
                           :: rest))]).
Proof. apply exec_merge_switched. Qed.

(** When the transform of [switchToBlockType] throws, so does the handler,
    after no dispatch. *)
Lemma merge_blocks_transform_throws (blockA blockB : block) (bt : block_type) merge msg (w : world St) :
  getBlockType (name blockA) = Some bt -> bt_merge bt = Some merge ->
  name blockA <> name blockB ->
  switchToBlockType blockB (name blockA) = SwitchThrows msg ->
  run (MERGE_BLOCKS blockA blockB) w = Exn msg w.
Proof.
  intros Hbt Hm Hn Hsw. unfold MERGE_BLOCKS, blocks_with_the_same_type.
  rewrite Hbt, Hm, Hsw. by destruct (String.eqb_spec (name blockA) (name blockB)).
Qed.

(** (C14) When the types differ and [switchToBlockType] gives [null], the
    handler does nothing. *)
Theorem merge_blocks_incompatible (blockA blockB : block) (bt : block_type) merge (w : world St) :
  getBlockType (name blockA) = Some bt -> bt_merge bt = Some merge ->
  name blockA <> name blockB ->
  switchToBlockType blockB (name blockA) = SwitchNull ->
  run (MERGE_BLOCKS blockA blockB) w = Ok w.
Proof.
  intros Hbt Hm Hn Hsw. unfold MERGE_BLOCKS, blocks_with_the_same_type.
  rewrite Hbt, Hm, Hsw. destruct (String.eqb_spec (name blockA) (name blockB)); done.
Qed.

(** (C15) On a target whose type is not registered the handler throws the
    TypeError of reading [merge] of [undefined], before any dispatch. *)
Theorem merge_blocks_unregistered (blockA blockB : block) (w : world St) :
  getBlockType (name blockA) = None ->
  run (MERGE_BLOCKS blockA blockB) w = Exn "Cannot read property 'merge' of undefined" w.
Proof. intros Hbt. unfold MERGE_BLOCKS. by rewrite Hbt. Qed.
End Events.

(** The merged attributes: each key takes [merge]'s value when it returns
    one, else keeps the target's. *)
Lemma merged_block_attributes (blockA : block) (upd : Attrs) k :
  attributes (merged_block blockA upd) !! k
  = match upd !! k with Some v => Some v | None => attributes blockA !! k end.
Proof. apply lookup_spread. Qed.

(** Witness of (C12). *)
Lemma merge_blocks_not_mergeable_witness :
  ok_log (exec (leaf (fun _ s => s))
            (MERGE_BLOCKS (H := {| getBlockType := fixture_types |})
               (mkBlock "u1" "core/plain" ∅) (mkBlock "u2" "core/plain" ∅)) fixture_world)
  = Some [EvDispatch (UpdateFocus "u1" None)].
Proof.
  rewrite (merge_blocks_not_mergeable (H := {| getBlockType := fixture_types |})
             _ _ _ (mkBlockType "core/plain" ∅ None [] plain_to)); reflexivity.
Defined.

(** Witness of (C11), on the spec's example: merging into [{ a: 0, b: 2 }]
    with a [merge] that returns [{ a: 1 }] gives [{ a: 1, b: 2 }] and
    removes the second block. *)
Lemma merge_blocks_same_type_witness :
  let blockA := mkBlock "u1" "core/text" (<["a" := VNum 0]> (<["b" := VNum 2]> ∅)) in
  let blockB := mkBlock "u2" "core/text" (<["a" := VNum 5]> ∅) in
  ok_log (exec (leaf (fun _ s => s))
            (MERGE_BLOCKS (H := {| getBlockType := fixture_types |}) blockA blockB) fixture_world)
  = Some [EvDispatch (UpdateFocus "u1" (Some (-1)%Z));
          EvDispatch (ReplaceBlocks ["u1"; "u2"]
            [mkBlock "u1" "core/text" (<["a" := VNum 1]> (<["b" := VNum 2]> ∅))])].
Proof.
  intros blockA blockB.
  rewrite (merge_blocks_same_type (H := {| getBlockType := fixture_types |})
             _ blockA blockB (mkBlockType "core/text" ∅ (Some text_merge) [] []) text_merge);
    reflexivity.
Defined.

(** Witness of (C13): a [core/plain] block converted into [core/text]. *)
Lemma merge_blocks_converted_witness :
  exists first rest,
    Forall2 (fun c b => createBlock (H := {| getBlockType := fixture_types |}) c.1 c.2 (uid b) = Some b)
      [("core/text", ∅); ("core/plain", ∅)] (first :: rest) /\
    ok_log (exec (leaf (fun _ s => s))
              (MERGE_BLOCKS (H := {| getBlockType := fixture_types |})
                 (mkBlock "u1" "core/text" ∅) (mkBlock "u2" "core/plain" ∅)) fixture_world)
    = Some (w_log fixture_world ++
            [EvDispatch (UpdateFocus (uid (mkBlock "u1" "core/text" ∅)) (Some (-1)%Z));
             EvDispatch (ReplaceBlocks [uid (mkBlock "u1" "core/text" ∅); uid (mkBlock "u2" "core/plain" ∅)]
               (merged_block (mkBlock "u1" "core/text" ∅)
                  (text_merge (attributes (mkBlock "u1" "core/text" ∅)) (attributes first))
                :: rest))]).
Proof.
  apply (merge_blocks_converted (H := {| getBlockType := fixture_types |}) (fun _ s => s)
           (mkBlock "u1" "core/text" ∅) (mkBlock "u2" "core/plain" ∅)
           (mkBlockType "core/text" ∅ (Some text_merge) [] [])); try reflexivity; discriminate.
Defined.

(** Witness of (C14): a block of an unregistered type cannot be converted. *)
Lemma merge_blocks_incompatible_witness :
  exec (leaf (fun _ s => s))
    (MERGE_BLOCKS (H := {| getBlockType := fixture_types |})
       (mkBlock "u1" "core/text" ∅) (mkBlock "u2" "core/other" ∅)) fixture_world
  = Ok fixture_world.
Proof.
  apply (merge_blocks_incompatible (H := {| getBlockType := fixture_types |}) _ _ _
           (mkBlockType "core/text" ∅ (Some text_merge) [] []) text_merge);
    try reflexivity; discriminate.
Defined.

(** Witness of (C15): a target of the unregistered type [core/unknown]. *)
Lemma merge_blocks_unregistered_witness :
  exec (leaf (fun _ s => s))
    (MERGE_BLOCKS (H := {| getBlockType := fixture_types |})
       (mkBlock "u1" "core/unknown" ∅) (mkBlock "u2" "core/text" ∅)) fixture_world
  = Exn "Cannot read property 'merge' of undefined" fixture_world.
Proof. apply (merge_blocks_unregistered (H := {| getBlockType := fixture_types |})). reflexivity. Defined.
