(* ===== verification/Quote.v ===== *)
(** The [core/quote] block of [src/blocks/library/quote/index.js]: its
    attribute schema (lines 34-58), its transforms (60-166), the helpers
    [toEditableValue] and [fromEditableValue] its edit function uses
    (24-27, 204-208) and the content of its saved markup (234-250).

    The [value] attribute is an array of [{ children }] objects, one per
    paragraph, each [children] a [<p>] element or a string.  A transform
    reads JavaScript properties that may be missing: a read on [undefined]
    is the TypeError the code throws, returned as [inl].  The React
    rendering of [edit] (toolbars, inspector, class names, styles) is not
    modelled. *)

From S2P Require Import Prelude Blocks Actions Program Merge.

Open Scope prog_scope.

(** Line 24: [value.map( subValue => subValue.children )]. *)
Definition toEditableValue (value : Value) : string + list Value :=
  match value with
  | VArr l => map_sum (fun subValue => js_get subValue "children") l
  | VUndef => inl "Cannot read property 'map' of undefined"
  | VNull => inl "Cannot read property 'map' of null"
  | _ => inl "value.map is not a function"
  end.

(** Lines 25-27: [value.map( subValue => ( { children: subValue } ) )]. *)
Definition fromEditableValue (value : list Value) : Value :=
  VArr (map (fun subValue => VObj [("children", subValue)]) value).

(** Lines 34-58: the schema; only the defaults matter to [createBlock]. *)
Definition quote_attributes : gmap string attr_source :=
  <["value" := mkSource (Some (VArr []))]> (<["citation" := mkSource None]>
    (<["align" := mkSource None]> (<["style" := mkSource (Some (VNum 1))]> ∅))).

(** Lines 65-71 (also 76-82 and 87-93): a quote whose one paragraph is
    [<p>{ content }</p>]. *)
Definition quote_from_content (a : Attrs) : string + list (string * Attrs) :=
  inr [("core/quote", <["value" := VArr [VObj [("children", VElem "p" (attr a "content"))]]]> ∅)].

(** Lines 61-99: from a paragraph, from a heading, from the [> ] pattern,
    and the raw transform of a [BLOCKQUOTE] node, which has no function. *)
Definition quote_from : list transform :=
  [mkTransform TBlock ["core/paragraph"] (Some quote_from_content);
   mkTransform TBlock ["core/heading"] (Some quote_from_content);
   mkTransform TPattern [] (Some quote_from_content);
   mkTransform TRaw [] None].

(** Lines 111-113: [isString( textElement.children ) ? textElement.children
    : textElement.children.props.children]. *)
Definition text_content (textElement : Value) : string + Value :=
  match js_get textElement "children" with
  | inl e => inl e
  | inr ch =>
      if is_string ch then inr ch
      else match js_get ch "props" with
           | inl e => inl e
           | inr pr => js_get pr "children"
           end
  end.

(** Lines 104-131, to a paragraph, and 136-163, to a heading: the same
    function with the target's name. *)
Definition quote_to (target : string) (a : Attrs) : string + list (string * Attrs) :=
  let value := attr a "value" in
  let citation := attr a "citation" in
  let attrs := delete "citation" (delete "value" a) in
  match index0 value with
  | inl e => inl e
  | inr textElement =>
      if negb (truthy textElement) then inr [(target, <["content" := citation]> ∅)]
      else match text_content textElement with
           | inl e => inl e
           | inr textContent =>
               if is_array value || truthy citation then
                 inr [(target, <["content" := textContent]> ∅);
                      ("core/quote",
                        attrs <+ <["citation" := citation]>
                          (<["value" := match value with
                                        | VArr l => VArr (tl l)
                                        | _ => VArr []
                                        end]> ∅))]
               else inr [(target, <["content" := textContent]> ∅)]
           end
  end.

(** Lines 101-132. *)
Definition quote_to_paragraph : transform :=
  mkTransform TBlock ["core/paragraph"] (Some (quote_to "core/paragraph")).

(** Lines 133-164. *)
Definition quote_to_heading : transform :=
  mkTransform TBlock ["core/heading"] (Some (quote_to "core/heading")).

(** Lines 29-166: the registered type; it declares no [merge]. *)
Definition quote_block_type : block_type :=
  mkBlockType "core/quote" quote_attributes None quote_from [quote_to_paragraph; quote_to_heading].

(** Line 243: [paragraph.children && paragraph.children.props.children]. *)
Definition save_paragraph (paragraph : Value) : string + Value :=
  match js_get paragraph "children" with
  | inl e => inl e
  | inr ch =>
      if truthy ch then
        match js_get ch "props" with
        | inl e => inl e
        | inr pr => js_get pr "children"
        end
      else inr ch
  end.

(** Line 245: [citation && citation.length > 0]. *)
Definition shows_citation (citation : Value) : bool :=
  truthy citation &&
  match get_prop citation "length" with Some (VNum n) => Z.ltb 0 n | _ => false end.

(** Lines 234-250: the children of the saved [<blockquote>], one [<p>] per
    paragraph and then the [<footer>] when there is a citation. *)
Definition quote_save (a : Attrs) : string + list Value :=
  let citation := attr a "citation" in
  match attr a "value" with
  | VArr l =>
      match map_sum save_paragraph l with
      | inl e => inl e
      | inr ps => inr (map (VElem "p") ps ++
                       if shows_citation citation then [VElem "footer" citation] else [])
      end
  | VUndef => inl "Cannot read property 'map' of undefined"
  | VNull => inl "Cannot read property 'map' of null"
  | _ => inl "value.map is not a function"
  end.

(** A [value] in the shape [fromEditableValue] builds: an array of objects
    whose only key is [children]. *)
Definition quote_value_wf (v : Value) : bool :=
  match v with
  | VArr l => forallb (fun sv => match sv with
                                 | VObj [(k, _)] => String.eqb k "children"
                                 | _ => false
                                 end) l
  | _ => false
  end.

(** ** Fixtures for the witnesses *)

(** A registry of [core/paragraph] (merging joins the two contents),
    [core/heading] and [core/quote]. *)
Definition para_merge (a b : Attrs) : Attrs :=
  <["content" := VArr [attr a "content"; attr b "content"]]> ∅.

Definition para_type : block_type :=
  mkBlockType "core/paragraph" {["content" := mkSource None]} (Some para_merge) [] [].

Definition quote_registry : BlockRegistry := {|
  getBlockType := fun nm =>
    if String.eqb nm "core/paragraph" then Some para_type
    else if String.eqb nm "core/heading" then
      Some (mkBlockType "core/heading" {["content" := mkSource None]} None [] [])
    else if String.eqb nm "core/quote" then Some quote_block_type
    else None
|}.

(** The paragraph [{ children: <p>{ s }</p> }] of a quote's [value]. *)
Definition quote_par (s : string) : Value := VObj [("children", VElem "p" (VStr s))].

(** A two-paragraph quote with a citation, a one-paragraph quote, and an
    empty one with only a citation. *)
Definition two_par_quote : Attrs :=
  <["value" := VArr [quote_par "one"; quote_par "two"]]>
    (<["citation" := VStr "me"]> (<["style" := VNum 2]> ∅)).
Definition one_par_quote : Attrs :=
  <["value" := VArr [quote_par "one"]]> (<["style" := VNum 1]> ∅).
Definition citation_quote : Attrs :=
  <["value" := VArr []]> (<["citation" := VStr "me"]> ∅).

(** ** The edit helpers *)

(** [toEditableValue] reads back what [fromEditableValue] builds. *)
Lemma to_from_editable (l : list Value) : toEditableValue (fromEditableValue l) = inr l.
Proof. induction l as [|v l IH]; [done|]. simpl in *. by rewrite IH. Qed.

(** (C25) The value the edit function hands to [Editable] comes back
    unchanged through [fromEditableValue] and [toEditableValue]: editing
    and then reading the paragraphs loses nothing. *)
Theorem editable_value_roundtrip (l : list Value) :
  toEditableValue (fromEditableValue l) = inr l.
Proof. apply to_from_editable. Qed.

(** (C26) Conversely, a [value] of [{ children }] objects is rebuilt
    exactly by [fromEditableValue] from what [toEditableValue] reads. *)
Theorem editable_value_roundtrip_back (v : Value) (cs : list Value) :
  quote_value_wf v = true -> toEditableValue v = inr cs -> fromEditableValue cs = v.
Proof.
  destruct v as [| | | | |l| |]; try done. simpl. revert cs.
  induction l as [|sv l IH]; intros cs Hwf Hto; simpl in *.
  - by injection Hto as <-.
  - apply andb_prop in Hwf as [Hsv Hwf].
    destruct sv as [| | | | | |[|[k c] [|]]|]; try done.
    apply String.eqb_eq in Hsv as ->. simpl in Hto.
    destruct (map_sum _ l) as [|cs'] eqn:E; [done|]. injection Hto as <-.
    specialize (IH cs' Hwf eq_refl). unfold fromEditableValue in *. simpl. congruence.
Qed.

(** ** The transforms *)

(** (C27) With an array [value] whose first paragraph is truthy and has a
    text, converting a quote to a paragraph or heading gives two blocks:
    the first paragraph's text as the new block, and a quote holding the
    other paragraphs, the citation and every other attribute. *)
Theorem quote_to_array_split (target : string) (a : Attrs) (x : Value) (rest : list Value) tc :
  attr a "value" = VArr (x :: rest) -> truthy x = true -> text_content x = inr tc ->
  quote_to target a
  = inr [(target, <["content" := tc]> ∅);
         ("core/quote", delete "citation" (delete "value" a)
                          <+ <["citation" := attr a "citation"]> (<["value" := VArr rest]> ∅))].
Proof. intros Hv Hx Htc. unfold quote_to. rewrite Hv. simpl. by rewrite Hx, Htc. Qed.

(** (C22) With an array [value], the conversion gives a single block only
    from the empty-quote branch (lines 106-110), the citation as the new
    block's content: the final single-block return (lines 128-130) is
    dead code, and a one-paragraph quote always leaves a quote behind. *)
Theorem quote_to_array_single (target : string) (a : Attrs) (l : list Value) c :
  attr a "value" = VArr l -> quote_to target a = inr [c] ->
  c = (target, <["content" := attr a "citation"]> ∅).
Proof.
  intros Hv. unfold quote_to. rewrite Hv.
  destruct l as [|x rest]; simpl; [by intros [= <-]|].
  destruct (truthy x); simpl; [|by intros [= <-]].
  by destruct (text_content x).
Qed.

(** A quote whose attributes lack [value] (never one [createBlock]
    made, whose default is [[]]) cannot be converted: [value[0]] throws. *)
Theorem quote_to_missing_value (target : string) (a : Attrs) :
  a !! "value" = None -> quote_to target a = inl "Cannot read property '0' of undefined".
Proof. intros Hv. unfold quote_to, attr. by rewrite Hv. Qed.

(** (C24) Paragraph to quote and back: the quote [createBlock] makes from
    a paragraph's [content] converts back to a paragraph with the same
    content, followed by an empty quote that keeps the default style. *)
Theorem quote_paragraph_roundtrip (a : Attrs) :
  exists g, quote_from_content a = inr [("core/quote", g)] /\
    quote_to "core/paragraph" (create_attributes quote_attributes g)
    = inr [("core/paragraph", <["content" := attr a "content"]> ∅);
           ("core/quote", <["style" := VNum 1]> ∅
                            <+ <["citation" := VUndef]> (<["value" := VArr []]> ∅))].
Proof. eexists. split; [reflexivity|]. vm_compute. reflexivity. Qed.

(** The quote made from a paragraph saves its content as the one
    [<p>] of the blockquote, with no footer. *)
Theorem quote_from_saves_content (a : Attrs) :
  exists g, quote_from_content a = inr [("core/quote", g)] /\
    quote_save (create_attributes quote_attributes g) = inr [VElem "p" (attr a "content")].
Proof. eexists. split; [reflexivity|]. vm_compute. reflexivity. Qed.

(** ** Merging a quote into a paragraph *)

Section MergeQuote.
Context {St : Type} `{BlockRegistry} (reduce : action -> St -> St).

Abbreviation run p w := (exec (leaf reduce) p w).

(** The [value] of a block [createBlock] made with the quote schema is
    the given one, unless [undefined]. *)
Lemma quote_created_value (given : Attrs) u b v :
  getBlockType "core/quote" = Some quote_block_type ->
  createBlock "core/quote" given u = Some b -> given !! "value" = Some v -> is_undef v = false ->
  attr (attributes b) "value" = v.
Proof.
  intros Hq Hb Hv Hu. unfold createBlock in Hb. rewrite Hq in Hb. injection Hb as <-.
  unfold attr. simpl. rewrite lookup_create_attributes, Hv, Hu. reflexivity.
Qed.

(** (C23) MERGE_BLOCKS of a one-paragraph quote into a paragraph (whose
    type has a [merge]) goes through the quote's [to] transform: the
    paragraph absorbs the quote's text, and an empty quote block (its
    [value] is [[]]) is left after it in the document. *)
Theorem merge_paragraph_quote (blockA blockB : block) (pbt : block_type) merge x tc (w : world St) :
  getBlockType "core/quote" = Some quote_block_type ->
  getBlockType "core/paragraph" = Some pbt -> bt_merge pbt = Some merge ->
  name blockA = "core/paragraph" -> name blockB = "core/quote" ->
  attr (attributes blockB) "value" = VArr [x] -> truthy x = true -> text_content x = inr tc ->
  exists para quote,
    createBlock "core/paragraph" (<["content" := tc]> ∅) (uid para) = Some para /\
    attr (attributes quote) "value" = VArr [] /\
    ok_log (run (MERGE_BLOCKS blockA blockB) w)
    = Some (w_log w ++ [EvDispatch (UpdateFocus (uid blockA) (Some (-1)%Z));
                        EvDispatch (ReplaceBlocks [uid blockA; uid blockB]
                          [merged_block blockA (merge (attributes blockA) (attributes para)); quote])]).
Proof.
  intros Hq Hp Hm HnA HnB Hv Hx Htc.
  set (rest_attrs := delete "citation" (delete "value" (attributes blockB))
                       <+ <["citation" := attr (attributes blockB) "citation"]> (<["value" := VArr []]> ∅)).
  assert (Hsw : switchToBlockType blockB (name blockA)
                = Switched [("core/paragraph", <["content" := tc]> ∅); ("core/quote", rest_attrs)]).
  { unfold switchToBlockType. rewrite HnA, HnB, Hq. simpl.
    unfold quote_to. rewrite Hv. simpl. rewrite Hx, Htc. simpl. by rewrite Hp, Hq. }
  rewrite <- HnA in Hp.
  assert (Hne : name blockA <> name blockB) by (by rewrite HnA, HnB).
  destruct (exec_merge_switched reduce blockA blockB pbt merge _ w Hp Hm Hne Hsw)
    as (first & rest & Hbs & Hlog).
  inversion Hbs as [|c1 b1 cs bs Hfirst Hrest]; subst.
  inversion Hrest as [|c2 quote cs' bs' Hquote Hnil]; subst.
  inversion Hnil; subst.
  exists first, quote. split; [done|]. split; [|done].
  eapply quote_created_value; [done|exact Hquote| |done].
  cbn [snd]. unfold rest_attrs. rewrite lookup_spread. reflexivity.
Qed.
End MergeQuote.

(** ** Witnesses *)

(** Witness of (C26). *)
Lemma editable_value_roundtrip_back_witness :
  fromEditableValue [VElem "p" (VStr "one"); VElem "p" (VStr "two")]
  = VArr [quote_par "one"; quote_par "two"].
Proof.
  exact (editable_value_roundtrip_back (VArr [quote_par "one"; quote_par "two"])
           [VElem "p" (VStr "one"); VElem "p" (VStr "two")] eq_refl eq_refl).
Defined.

(** Witness of (C27): the two-paragraph quote to a paragraph. *)
Lemma quote_to_array_split_witness :
  quote_to "core/paragraph" two_par_quote
  = inr [("core/paragraph", <["content" := VStr "one"]> ∅);
         ("core/quote", delete "citation" (delete "value" two_par_quote)
                          <+ <["citation" := VStr "me"]> (<["value" := VArr [quote_par "two"]]> ∅))].
Proof.
  exact (quote_to_array_split "core/paragraph" two_par_quote (quote_par "one") [quote_par "two"]
           (VStr "one") eq_refl eq_refl eq_refl).
Defined.

(** Witness of (C22): the empty quote converts to its citation. *)
Lemma quote_to_array_single_witness :
  ("core/heading", <["content" := VStr "me"]> (∅ : Attrs))
  = ("core/heading", <["content" := attr citation_quote "citation"]> ∅).
Proof.
  exact (quote_to_array_single "core/heading" citation_quote [] ("core/heading", <["content" := VStr "me"]> ∅)
           eq_refl eq_refl).
Defined.

(** An instance of [quote_to_missing_value]. *)
Lemma quote_to_missing_value_witness :
  quote_to "core/paragraph" (<["citation" := VStr "me"]> ∅)
  = inl "Cannot read property '0' of undefined".
Proof. exact (quote_to_missing_value "core/paragraph" (<["citation" := VStr "me"]> ∅) eq_refl). Defined.

(** Witness of (C23): merging the one-paragraph quote into a paragraph. *)
Lemma merge_paragraph_quote_witness :
  exists para quote,
    createBlock (H := quote_registry) "core/paragraph" (<["content" := VStr "one"]> ∅) (uid para)
      = Some para /\
    attr (attributes quote) "value" = VArr [] /\
    ok_log (exec (leaf (fun _ s => s))
              (MERGE_BLOCKS (H := quote_registry)
                 (mkBlock "p1" "core/paragraph" {["content" := VStr "zero"]})
                 (mkBlock "q1" "core/quote" one_par_quote))
              (mkWorld tt 0 0 None [] [] []))
    = Some ([] ++ [EvDispatch (UpdateFocus "p1" (Some (-1)%Z));
                   EvDispatch (ReplaceBlocks ["p1"; "q1"]
                     [merged_block (mkBlock "p1" "core/paragraph" {["content" := VStr "zero"]})
                        (para_merge {["content" := VStr "zero"]} (attributes para)); quote])]).
Proof.
  exact (merge_paragraph_quote (H := quote_registry) (fun _ s => s)
           (mkBlock "p1" "core/paragraph" {["content" := VStr "zero"]})
           (mkBlock "q1" "core/quote" one_par_quote) para_type para_merge (quote_par "one")
           (VStr "one") (mkWorld tt 0 0 None [] [] [])
           eq_refl eq_refl eq_refl eq_refl eq_refl eq_refl eq_refl eq_refl).
Defined.
