(* ===== verification/QuoteEdit.v ===== *)
(** The [edit] function of the [core/quote] block,
    [src/blocks/library/quote/index.js] lines 168-232, and what its
    callbacks do to the block's attributes.

    [edit] renders, when the block has the focus, a toolbar of the two
    quote styles and an alignment toolbar, then the blockquote with its
    paragraphs in a multiline [Editable] and, when there is a citation or
    the focus, the citation's [Editable].  Each callback passes an update
    to [setAttributes], which the editor merges into the block's
    attributes ([set_attributes]).  The view is a record of what is
    rendered; a callback is the update it passes.  [focus] is the focus
    object of the editor, [None] when it is falsy, else its [editable]
    property. *)

From stdpp Require Import pretty.
From S2P Require Import Prelude Blocks Quote.

(** [`${ v }`]: the string a template literal makes of a value. *)
Fixpoint js_to_string (v : Value) : string :=
  match v with
  | VUndef => "undefined"
  | VNull => "null"
  | VBool b => if b then "true" else "false"
  | VNum z => pretty z
  | VStr s => s
  | VArr l => String.concat "," (map (fun x => match x with
                                               | VUndef | VNull => ""
                                               | _ => js_to_string x
                                               end) l)
  | VObj _ | VElem _ _ => "[object Object]"
  end.

(** [Number( v ) === n] for the values whose [Number] needs no parsing of
    text: numbers, booleans, [null] ([0]), [undefined] and objects (NaN).
    [None] for a string or an array, whose conversion parses their text;
    the schema declares [style] a number. *)
Definition number_is (v : Value) (n : Z) : option bool :=
  match v with
  | VNum z => Some (Z.eqb z n)
  | VBool b => Some (Z.eqb (if b then 1 else 0) n)
  | VNull => Some (Z.eqb 0 n)
  | VUndef | VObj _ | VElem _ _ => Some false
  | VStr _ | VArr _ => None
  end.

(** Line 170: [focus ? focus.editable || 'value' : null]. *)
Definition focused_editable (focus : option (option string)) : option string :=
  match focus with
  | None => None
  | Some ed => Some (if str_truthy ed then default "" ed else "value")
  end.

(** One control of the style toolbar. *)
Record style_control := mkStyleControl {
  sc_icon : string;
  sc_title : string;
  sc_isActive : option bool;
  sc_onClick : Attrs
}.

(** Lines 175-182: [[ 1, 2 ].map( variation => ... )]. *)
Definition style_controls (style : Value) : list style_control :=
  map (fun variation =>
         mkStyleControl (if Z.eqb 1 variation then "format-quote" else "testimonial")
           ("Quote style " +:+ pretty variation) (number_is style variation)
           (<["style" := VNum variation]> ∅))
      [1; 2]%Z.

(** Lines 185-187: the alignment toolbar's [onChange]. *)
Definition on_align_change (nextAlign : Value) : Attrs := <["align" := nextAlign]> ∅.

(** Lines 205-209: the paragraphs' [onChange]. *)
Definition on_value_change (nextValue : list Value) : Attrs :=
  <["value" := fromEditableValue nextValue]> ∅.

(** Lines 221-225: the citation's [onChange]. *)
Definition on_citation_change (nextCitation : Value) : Attrs :=
  <["citation" := nextCitation]> ∅.

(** Lines 211 and 227: an [Editable]'s [onFocus] passes [setFocus] the
    focus props with [editable] set to its own name. *)
Definition on_focus (props : option string) (editable : string) : option (option string) :=
  Some (Some editable).

(** What [edit] renders. *)
Record quote_edit_view := mkQuoteEditView {
  qe_controls : option (list style_control);
  qe_align : Value;
  qe_inspector : bool;
  qe_className : string;
  qe_value : list Value;
  qe_value_focused : bool;
  qe_citation : option Value;
  qe_citation_focused : bool
}.

(** Lines 168-232.  The elements are built in order; the only one that
    can throw is the paragraphs' [toEditableValue( value )]. *)
Definition quote_edit (a : Attrs) (focus : option (option string)) (className : string)
    : string + quote_edit_view :=
  let align := attr a "align" in
  let value := attr a "value" in
  let citation := attr a "citation" in
  let style := attr a "style" in
  let focusedEditable := focused_editable focus in
  match toEditableValue value with
  | inl e => inl e
  | inr editable =>
      inr (mkQuoteEditView
             (if bool_decide (is_Some focus) then Some (style_controls style) else None)
             align (bool_decide (is_Some focus))
             (className +:+ " blocks-quote-style-" +:+ js_to_string style)
             editable (bool_decide (focusedEditable = Some "value"))
             (if shows_citation citation || bool_decide (is_Some focus) then Some citation else None)
             (bool_decide (focusedEditable = Some "citation")))
  end.

(** [setAttributes( update )]: the editor merges the update into the
    block's attributes. *)
Definition set_attributes (a update : Attrs) : Attrs := a <+ update.

(** ** What the callbacks do *)

Lemma attr_set (a update : Attrs) k v :
  update !! k = Some v -> attr (set_attributes a update) k = v.
Proof. intros Hk. unfold attr, set_attributes. by rewrite lookup_spread, Hk. Qed.

Lemma attr_set_insert (a m : Attrs) k v : attr (set_attributes a (<[k := v]> m)) k = v.
Proof. apply attr_set, lookup_insert_eq. Qed.

(** The paragraphs an [Editable] with [multiline="p"] hands back save as
    the same [<p>] elements. *)
Lemma save_typed_paragraphs (cs : list Value) :
  map_sum save_paragraph (map (fun sv => VObj [("children", sv)]) (map (VElem "p") cs)) = inr cs.
Proof. induction cs as [|c cs IH]; [done|]. simpl. by rewrite IH. Qed.

(** (C28) What the author types in the quote is what is saved and what
    is rendered again: after the paragraphs' [onChange] with [<p>]
    elements, [save] writes those paragraphs (and the citation's footer
    when there is one), and [edit] hands the same paragraphs back to the
    [Editable], whatever the focus. *)
Theorem quote_edit_typing_saved (a : Attrs) (cs : list Value) focus className :
  let a' := set_attributes a (on_value_change (map (VElem "p") cs)) in
  quote_save a'
  = inr (map (VElem "p") cs ++
         if shows_citation (attr a "citation") then [VElem "footer" (attr a "citation")] else []) /\
  exists view, quote_edit a' focus className = inr view /\ qe_value view = map (VElem "p") cs.
Proof.
  intros a'. assert (Hv : attr a' "value" = fromEditableValue (map (VElem "p") cs)).
  { apply attr_set_insert. }
  assert (Hc : attr a' "citation" = attr a "citation").
  { unfold a', attr, set_attributes, on_value_change. rewrite lookup_spread. by rewrite lookup_insert_ne. }
  split.
  - unfold quote_save. rewrite Hv, Hc. cbn [fromEditableValue]. by rewrite save_typed_paragraphs.
  - unfold quote_edit. rewrite Hv, to_from_editable. by eexists.
Qed.

(** (C29) The style toolbar offers the variations 1 and 2; clicking the
    control of a variation, whatever the style was, leaves exactly that
    control active. *)
Theorem quote_style_toolbar (a : Attrs) :
  Forall2 (fun v c =>
             sc_title c = "Quote style " +:+ pretty v /\
             map sc_isActive (style_controls (attr (set_attributes a (sc_onClick c)) "style"))
             = [Some (Z.eqb 1 v); Some (Z.eqb 2 v)])
          [1; 2]%Z (style_controls (attr a "style")).
Proof.
  unfold style_controls at 2. cbn [map].
  apply Forall2_cons; split; [split; [reflexivity|]|].
  { cbn [sc_onClick]. by rewrite attr_set_insert. }
  apply Forall2_cons; split; [split; [reflexivity|]|done].
  cbn [sc_onClick]. by rewrite attr_set_insert.
Qed.

(** Focusing one [Editable] marks it, and only it, as focused, and
    shows the style toolbar and the citation. *)
Lemma quote_edit_focus (a : Attrs) props editable className view :
  editable = "value" \/ editable = "citation" ->
  quote_edit a (on_focus props editable) className = inr view ->
  qe_value_focused view = bool_decide (editable = "value") /\
  qe_citation_focused view = bool_decide (editable = "citation") /\
  qe_controls view = Some (style_controls (attr a "style")) /\ qe_citation view = Some (attr a "citation").
Proof.
  intros Hed. unfold quote_edit, on_focus, focused_editable.
  destruct (toEditableValue (attr a "value")); [done|]. intros [= <-]. cbn.
  rewrite orb_true_r. destruct Hed as [-> | ->]; cbn; repeat split.
Qed.

(** (C30) [save] does not read a paragraph whose [children] is a string:
    the transforms accept one (lines 111-113), but line 243 reads
    [children.props.children] of it and throws, so such a quote cannot be
    saved. *)
Theorem quote_save_string_children (a : Attrs) (s : string) (rest : list Value) :
  attr a "value" = VArr (VObj [("children", VStr s)] :: rest) -> s <> "" ->
  text_content (VObj [("children", VStr s)]) = inr (VStr s) /\
  quote_save a = inl "Cannot read property 'children' of undefined".
Proof.
  intros Hv Hs. split; [reflexivity|]. unfold quote_save. rewrite Hv. cbn [map_sum].
  unfold save_paragraph. cbn [js_get get_prop assoc default String.eqb].
  replace (truthy (VStr s)) with true by (simpl; destruct (String.eqb_spec s ""); done).
  destruct s; [done|]. reflexivity.
Qed.

(** Witness of (C30). *)
Lemma quote_save_string_children_witness :
  text_content (VObj [("children", VStr "one")]) = inr (VStr "one") /\
  quote_save (<["value" := VArr [VObj [("children", VStr "one")]]]> ∅)
  = inl "Cannot read property 'children' of undefined".
Proof.
  exact (quote_save_string_children (<["value" := VArr [VObj [("children", VStr "one")]]]> ∅)
           "one" [] eq_refl ltac:(discriminate)).
Defined.
