(* ===== verification/Autosave.v ===== *)
(** Autosaving: [AUTOSAVE] of [src/editor/effects.js] (lines 243-269).

    The handler does nothing unless the post is saveable, new or dirty, and
    not already published (autosaving a published post is left undone by
    the code's TODO); a new post is first moved from [auto-draft] to
    [draft], then the save is requested with [savePost()], whose action is
    [REQUEST_POST_UPDATE]. *)

From S2P Require Import Prelude Blocks Actions Program.

Open Scope prog_scope.

(** [editPost({ status: 'draft' })] *)
Definition draft_edit : Attrs := <["status" := VStr "draft"]> ∅.

Section Handler.
Context {St : Type} `{EditorSelectors St}.

(** Lines 243-269. *)
Definition AUTOSAVE : prog St :=
  state <- getState ;;
  if negb (isEditedPostSaveable state) then Done
  else if negb (isEditedPostNew state) && negb (isEditedPostDirty state) then Done
  else if isCurrentPostPublished state then Done
  else if isEditedPostNew state then
    EditPost draft_edit ;; RequestPostUpdate ;; Done
  else RequestPostUpdate ;; Done.

(** What the guards let through: a saveable, new or dirty, unpublished
    post. *)
Definition autosave_allowed (s : St) : bool :=
  isEditedPostSaveable s && (isEditedPostNew s || isEditedPostDirty s)
  && negb (isCurrentPostPublished s).
End Handler.

Section Events.
Context {St : Type} `{EditorSelectors St} (reduce : action -> St -> St).

Abbreviation run p w := (exec (leaf reduce) p w).

(** (C17) [AUTOSAVE] dispatches nothing unless the post is saveable, new or
    dirty, and unpublished; then it dispatches the [draft] status edit when
    the post is new, and the save request in every case. *)
Theorem autosave_events (w : world St) :
  let s := w_state w in
  ok_log (run AUTOSAVE w) =
    Some (w_log w ++
          if autosave_allowed s then
            (if isEditedPostNew s then [EvDispatch (EditPost draft_edit)] else [])
            ++ [EvDispatch RequestPostUpdate]
          else []).
Proof.
  unfold AUTOSAVE, autosave_allowed. simpl.
  destruct (isEditedPostSaveable _), (isEditedPostNew _), (isEditedPostDirty _),
    (isCurrentPostPublished _); simpl; by rewrite <- ?app_assoc, ?app_nil_r.
Qed.

(** Autosaving a post that is neither new nor dirty requests no save;
    autosaving a new saveable unpublished post requests the [draft] edit and
    then the save, even when it is not dirty. *)
Theorem autosave_clean_and_new (w : world St) :
  (isEditedPostNew (w_state w) = false -> isEditedPostDirty (w_state w) = false ->
   ok_log (run AUTOSAVE w) = Some (w_log w)) /\
  (isEditedPostSaveable (w_state w) = true -> isEditedPostNew (w_state w) = true ->
   isCurrentPostPublished (w_state w) = false ->
   ok_log (run AUTOSAVE w) =
     Some (w_log w ++ [EvDispatch (EditPost draft_edit); EvDispatch RequestPostUpdate])).
Proof.
  rewrite autosave_events. unfold autosave_allowed. split.
  - intros -> ->. rewrite andb_false_r. simpl. by rewrite app_nil_r.
  - intros -> -> ->. reflexivity.
Qed.
End Events.
