(* ===== verification/Setup.v ===== *)
(** Opening the editor: [SETUP_EDITOR] of [src/editor/effects.js] (lines
    270-301).

    The handler returns the actions refx then dispatches in order: the
    blocks parsed from the post's raw content, or else one block per
    template entry (the entry's attributes spread over the type's
    defaults), then the post reset, then, for an [auto-draft], the title as
    an edit that does not make the post dirty. *)

From S2P Require Import Prelude Blocks Actions Program.

Open Scope prog_scope.

Section Handler.
Context {St : Type} `{BlockRegistry} `{BlockParser}.

(** Lines 278-285: [createBlock(name)] with the type's defaults, then
    [block.attributes = { ...block.attributes, ...attributes }]. *)
Fixpoint template_blocks (tpl : list (string * Attrs)) (k : list block -> prog St) : prog St :=
  match tpl with
  | [] => k []
  | (nm, given) :: rest =>
      create_block nm ∅ (fun b =>
        template_blocks rest (fun bs => k (mkBlock (uid b) (name b) (attributes b <+ given) :: bs)))
  end.

(** Lines 289-300: the post reset, and for an [auto-draft] the title. *)
Definition setup_post_actions (p : post) : list action :=
  ResetPost p ::
  (if String.eqb (post_status p) "auto-draft"
   then [SetupNewPost (<["title" := VStr (post_title_raw p)]> ∅)] else []).

(** Lines 270-301: the returned [effects], dispatched in order. *)
Definition SETUP_EDITOR (p : post) (settings : editor_settings) : prog St :=
  if str_truthy (Some (post_content_raw p)) then
    with_uids (parse (post_content_raw p)) (fun blocks =>
      dispatch_all (ResetBlocks blocks :: setup_post_actions p) Done)
  else match template settings with
       | Some tpl =>
           template_blocks tpl (fun blocks =>
             dispatch_all (ResetBlocks blocks :: setup_post_actions p) Done)
       | None => dispatch_all (setup_post_actions p) Done
       end.
End Handler.

Section Events.
Context {St : Type} `{BlockRegistry} `{BlockParser} (reduce : action -> St -> St).

Abbreviation run p w := (exec (leaf reduce) p w).

Lemma exec_leaf_dispatch_all (l : list action) k (w : world St) :
  exists w', exec (leaf reduce) (dispatch_all l k) w = exec (leaf reduce) k w' /\
             w_log w' = w_log w ++ map EvDispatch l.
Proof.
  revert w. induction l as [|a l IH]; intros w; simpl.
  - exists w. by rewrite app_nil_r.
  - destruct (IH (log_event (EvDispatch a) (set_state (reduce a (w_state w)) w)))
      as (w' & Hrun & Hlog).
    exists w'. split; [done|]. rewrite Hlog. simpl. by rewrite <- app_assoc.
Qed.

(** Each template entry, when its type is registered, becomes a block of
    that type whose attributes are the entry's spread over what
    [createBlock] gives with no attributes. *)
Lemma exec_template_blocks (tpl : list (string * Attrs)) (k : list block -> prog St) w :
  Forall (fun e => is_Some (getBlockType e.1)) tpl ->
  exists bs w',
    exec (leaf reduce) (template_blocks tpl k) w = exec (leaf reduce) (k bs) w' /\
    Forall2 (fun e b => exists bt, getBlockType e.1 = Some bt /\ name b = e.1 /\
               attributes b = create_attributes (bt_attributes bt) ∅ <+ e.2) tpl bs /\
    w_log w' = w_log w /\ map uid bs = uuid_range (w_uuid w) (length tpl).
Proof.
  revert k w. induction tpl as [|[nm given] tpl IH]; intros k w Hreg.
  - exists [], w. repeat split. constructor.
  - apply Forall_cons in Hreg as [[bt Hbt] Hreg]. simpl in Hbt.
    simpl. unfold createBlock at 1. rewrite Hbt.
    set (w1 := mkWorld _ _ _ _ _ _ _).
    destruct (IH (fun bs => k (mkBlock (uuid_string (w_uuid w)) nm
                   (create_attributes (bt_attributes bt) ∅ <+ given) :: bs)) w1 Hreg)
      as (bs & w' & Hrun & Hbs & Hl & Hu).
    eexists (_ :: bs), w'. split; [exact Hrun|]. split; [|split; [done|simpl; by rewrite Hu]].
    constructor; [|done]. exists bt. done.
Qed.

(** The dispatches of lines 289-298: the post reset, then for an
    [auto-draft] the edit that seeds its title. *)
Lemma setup_post_events (p : post) :
  map EvDispatch (setup_post_actions p)
  = EvDispatch (ResetPost p) ::
    (if String.eqb (post_status p) "auto-draft"
     then [EvDispatch (SetupNewPost (<["title" := VStr (post_title_raw p)]> ∅))] else []).
Proof. unfold setup_post_actions. by destruct (String.eqb _ _). Qed.

(** (C32) With raw content, [SETUP_EDITOR] resets the blocks to the parsed
    content (in order, with their names and attributes), then resets the
    post, then, only for an [auto-draft], seeds the edited title with the
    post's raw title; it dispatches nothing else. *)
Theorem setup_editor_content (p : post) (settings : editor_settings) (w : world St) :
  post_content_raw p <> "" ->
  exists blocks,
    map (fun b => (name b, attributes b)) blocks = parse (post_content_raw p) /\
    ok_log (run (SETUP_EDITOR p settings) w)
    = Some (w_log w ++ EvDispatch (ResetBlocks blocks) :: EvDispatch (ResetPost p) ::
            (if String.eqb (post_status p) "auto-draft"
             then [EvDispatch (SetupNewPost (<["title" := VStr (post_title_raw p)]> ∅))] else [])).
Proof.
  intros Hraw. unfold SETUP_EDITOR, str_truthy.
  destruct (String.eqb_spec (post_content_raw p) ""); [done|]. cbn [negb].
  destruct (exec_with_uids (leaf reduce) (parse (post_content_raw p))
              (fun blocks => dispatch_all (ResetBlocks blocks :: setup_post_actions p) Done) w)
    as (bs & w1 & Hrun & Hbs & _ & Hl & _).
  exists bs. split; [done|]. rewrite Hrun.
  destruct (exec_leaf_dispatch_all (ResetBlocks bs :: setup_post_actions p) Done w1)
    as (w2 & Hrun2 & Hl2).
  rewrite Hrun2. simpl. rewrite Hl2, Hl. cbn [map]. by rewrite setup_post_events.
Qed.

(** (C33) Without raw content but with a template whose types are
    registered, [SETUP_EDITOR] resets the blocks to one block per entry, of
    the entry's type, with the entry's attributes layered over the type's
    defaults, then resets the post. *)
Theorem setup_editor_template (p : post) (tpl : list (string * Attrs)) (w : world St) :
  post_content_raw p = "" ->
  Forall (fun e => is_Some (getBlockType e.1)) tpl ->
  exists blocks,
    Forall2 (fun e b => exists bt, getBlockType e.1 = Some bt /\ name b = e.1 /\
               attributes b = create_attributes (bt_attributes bt) ∅ <+ e.2) tpl blocks /\
    ok_log (run (SETUP_EDITOR p (mkSettings (Some tpl))) w)
    = Some (w_log w ++ map EvDispatch (ResetBlocks blocks :: setup_post_actions p)).
Proof.
  intros Hraw Hreg. unfold SETUP_EDITOR, str_truthy. rewrite Hraw. cbn [negb String.eqb template].
  destruct (exec_template_blocks tpl
              (fun blocks => dispatch_all (ResetBlocks blocks :: setup_post_actions p) Done) w Hreg)
    as (bs & w1 & Hrun & Hbs & Hl & _).
  exists bs. split; [done|]. rewrite Hrun.
  destruct (exec_leaf_dispatch_all (ResetBlocks bs :: setup_post_actions p) Done w1)
    as (w2 & Hrun2 & Hl2).
  rewrite Hrun2. simpl. by rewrite Hl2, Hl.
Qed.

(** With neither raw content nor a template, [SETUP_EDITOR] only
    resets the post (and seeds the title of an [auto-draft]). *)
Theorem setup_editor_empty (p : post) (w : world St) :
  post_content_raw p = "" ->
  ok_log (run (SETUP_EDITOR p (mkSettings None)) w)
  = Some (w_log w ++ map EvDispatch (setup_post_actions p)).
Proof.
  intros Hraw. unfold SETUP_EDITOR, str_truthy. rewrite Hraw. cbn [negb String.eqb template].
  destruct (exec_leaf_dispatch_all (setup_post_actions p) Done w) as (w2 & Hrun2 & Hl2).
  rewrite Hrun2. simpl. by rewrite Hl2.
Qed.
(** Every branch of [SETUP_EDITOR]: the blocks it resets the document to,
    if any, and the uids they carry. *)
Lemma setup_editor_run (p : post) (settings : editor_settings) (w : world St) :
  Forall (fun e => is_Some (getBlockType e.1)) (default [] (template settings)) ->
  exists obs : option (list block),
    ok_log (run (SETUP_EDITOR p settings) w)
    = Some (w_log w ++ map EvDispatch (option_list (ResetBlocks <$> obs) ++ setup_post_actions p)) /\
    forall bs, obs = Some bs -> exists k, map uid bs = uuid_range (w_uuid w) k.
Proof.
  intros Hreg. unfold SETUP_EDITOR. destruct (str_truthy _).
  - destruct (exec_with_uids (leaf reduce) (parse (post_content_raw p))
                (fun blocks => dispatch_all (ResetBlocks blocks :: setup_post_actions p) Done) w)
      as (bs & w1 & Hrun & _ & _ & Hl & _ & _ & Hu).
    exists (Some bs). split; [|intros ? [= <-]; by eexists].
    rewrite Hrun. destruct (exec_leaf_dispatch_all (ResetBlocks bs :: setup_post_actions p) Done w1)
      as (w2 & Hrun2 & Hl2).
    rewrite Hrun2. simpl. by rewrite Hl2, Hl.
  - destruct (template settings) as [tpl|]; simpl in Hreg.
    + destruct (exec_template_blocks tpl
                  (fun blocks => dispatch_all (ResetBlocks blocks :: setup_post_actions p) Done) w Hreg)
        as (bs & w1 & Hrun & _ & Hl & Hu).
      exists (Some bs). split; [|intros ? [= <-]; by eexists].
      rewrite Hrun. destruct (exec_leaf_dispatch_all (ResetBlocks bs :: setup_post_actions p) Done w1)
        as (w2 & Hrun2 & Hl2).
      rewrite Hrun2. simpl. by rewrite Hl2, Hl.
    + exists None. split; [|done].
      destruct (exec_leaf_dispatch_all (setup_post_actions p) Done w) as (w2 & Hrun2 & Hl2).
      rewrite Hrun2. simpl. by rewrite Hl2.
Qed.

(** (C16) The document [SETUP_EDITOR] resets to, parsed from the content
    or built from the template, has pairwise distinct uids, each drawn
    from the [uuid()] counter at or after its value when the handler
    started: the spec's invariant that a uid is unique in the document. *)
Theorem setup_editor_unique_uids (p : post) (settings : editor_settings) (w : world St) :
  Forall (fun e => is_Some (getBlockType e.1)) (default [] (template settings)) ->
  exists obs : option (list block),
    ok_log (run (SETUP_EDITOR p settings) w)
    = Some (w_log w ++ map EvDispatch (option_list (ResetBlocks <$> obs) ++ setup_post_actions p)) /\
    forall bs, obs = Some bs ->
      NoDup (map uid bs) /\
      Forall (fun x => exists i, (w_uuid w <= i)%N /\ x = uuid_string i) (map uid bs).
Proof.
  intros Hreg. destruct (setup_editor_run p settings w Hreg) as (obs & Hlog & Hu).
  exists obs. split; [done|]. intros bs Hbs. destruct (Hu bs Hbs) as [k ->].
  split; [apply NoDup_uuid_range|]. apply Forall_forall. intros x Hx. by apply elem_of_uuid_range in Hx.
Qed.
End Events.

Lemma dispatches_in_template_blocks {St : Type} `{BlockRegistry} (D : action -> Prop)
    tpl (k : list block -> prog St) :
  (forall bs, dispatches_in D (k bs)) -> dispatches_in D (template_blocks tpl k).
Proof.
  revert k. induction tpl as [|[nm given] tpl IH]; intros k Hk; simpl; [done|].
  apply dispatches_in_create_block. intros b. apply IH. auto.
Qed.

Lemma deep_in_template_blocks {St : Type} `{BlockRegistry} (D : action -> Prop) (R : request -> Prop)
    tpl (k : list block -> prog St) :
  (forall bs, deep_in D R (k bs)) -> deep_in D R (template_blocks tpl k).
Proof.
  revert k. induction tpl as [|[nm given] tpl IH]; intros k Hk; simpl; [done|].
  apply deep_in_create_block. intros b. apply IH. auto.
Qed.

#[export] Hint Resolve dispatches_in_template_blocks : gb.

#[local] Existing Instances fixture_registry plain_parser.

(** Witness of (C32): a post whose raw content parses to one block. *)
Lemma setup_editor_content_witness :
  let p := mkPost 7 "auto-draft" "" "hello" "Title" in
  let w := mkWorld tt 0 0 None [] [] [] in
  exists blocks,
    map (fun b => (name b, attributes b)) blocks = parse (post_content_raw p) /\
    ok_log (exec (leaf (fun _ s => s)) (SETUP_EDITOR p (mkSettings None)) w)
    = Some (w_log w ++ EvDispatch (ResetBlocks blocks) :: EvDispatch (ResetPost p) ::
            (if String.eqb (post_status p) "auto-draft"
             then [EvDispatch (SetupNewPost (<["title" := VStr (post_title_raw p)]> ∅))] else [])).
Proof. intros p w. apply setup_editor_content. discriminate. Defined.

(** Witness of (C33): an empty post with a one-entry template. *)
Lemma setup_editor_template_witness :
  let p := mkPost 7 "draft" "" "" "Title" in
  let tpl := [("core/text", <["content" := VStr "Intro"]> ∅)] in
  let w := mkWorld tt 0 0 None [] [] [] in
  exists blocks,
    Forall2 (fun e b => exists bt, getBlockType e.1 = Some bt /\ name b = e.1 /\
               attributes b = create_attributes (bt_attributes bt) ∅ <+ e.2) tpl blocks /\
    ok_log (exec (leaf (fun _ s => s)) (SETUP_EDITOR p (mkSettings (Some tpl))) w)
    = Some (w_log w ++ map EvDispatch (ResetBlocks blocks :: setup_post_actions p)).
Proof.
  intros p tpl w. apply setup_editor_template; [reflexivity|].
  repeat constructor. simpl. eexists. reflexivity.
Defined.

(** [setup_editor_empty] at an empty post and no template. *)
Lemma setup_editor_empty_witness :
  let p := mkPost 7 "auto-draft" "" "" "Title" in
  let w := mkWorld tt 0 0 None [] [] [] in
  ok_log (exec (leaf (fun _ s => s)) (SETUP_EDITOR p (mkSettings None)) w)
  = Some (w_log w ++ map EvDispatch (setup_post_actions p)).
Proof. intros p w. apply setup_editor_empty. reflexivity. Defined.

(** Witness of (C16): a two-entry template of the same type. *)
Lemma setup_editor_unique_uids_witness :
  let p := mkPost 7 "auto-draft" "" "" "Title" in
  let settings := mkSettings (Some [("core/text", ∅); ("core/text", ∅)]) in
  let w := mkWorld tt 0 0 None [] [] [] in
  exists obs : option (list block),
    ok_log (exec (leaf (fun _ s => s)) (SETUP_EDITOR p settings) w)
    = Some (w_log w ++ map EvDispatch (option_list (ResetBlocks <$> obs) ++ setup_post_actions p)) /\
    forall bs, obs = Some bs ->
      NoDup (map uid bs) /\
      Forall (fun x => exists i, (w_uuid w <= i)%N /\ x = uuid_string i) (map uid bs).
Proof.
  intros p settings w.
  exact (setup_editor_unique_uids (fun _ s => s) p settings w
           ltac:(repeat constructor; simpl; eexists; reflexivity)).
Defined.
