(* ===== verification/MetaBoxes.v ===== *)
(** Meta box readiness: [INITIALIZE_META_BOX_STATE] and [META_BOX_LOADED]
    of [src/editor/effects.js] (lines 302-322).

    The first holds jQuery's ready event when the [normal] or [side]
    location has meta boxes; the second releases it when the box that just
    reported is the only active box not yet loaded.  The release test reads
    the store, and which store it reads matters: [releases_before] counts
    the releases when every report reads the state before its own box is
    marked loaded, [releases_after] when it reads the state after
    ([mark_loaded], the store's [META_BOX_LOADED] case, modelled from the
    spec).  The first is exactly one for any order of reports; the second
    is zero. *)

From S2P Require Import Prelude Blocks Actions Program.

Open Scope prog_scope.

(** [const locations = [ 'normal', 'side' ]] *)
Definition metabox_locations : list string := ["normal"; "side"].

(** Lines 305: [some(locations, location => !! action.metaBoxes[location])] *)
Definition holds_ready (metaBoxes : gmap string bool) : bool :=
  existsb (fun location => default false (metaBoxes !! location)) metabox_locations.

(** Lines 312-318: the active meta boxes not yet loaded, in key order. *)
Definition unloaded_metaboxes (mbs : list (string * metabox)) : list (string * metabox) :=
  List.filter (fun km => isActive km.2 && negb (isLoaded km.2)) mbs.

(** Line 319: the release test. *)
Definition releases_hold (location : string) (mbs : list (string * metabox)) : bool :=
  match unloaded_metaboxes mbs with
  | [km] => String.eqb km.1 location
  | _ => false
  end.

Section Handlers.
Context {St : Type} `{EditorSelectors St}.

(** Lines 302-308. *)
Definition INITIALIZE_META_BOX_STATE (metaBoxes : gmap string bool) : prog St :=
  if holds_ready metaBoxes then HoldReady true Done else Done.

(** Lines 309-322. *)
Definition META_BOX_LOADED (location : string) : prog St :=
  state <- getState ;;
  if releases_hold location (getMetaBoxes state) then HoldReady false Done else Done.
End Handlers.

(** The store's [META_BOX_LOADED] case: the reporting location is loaded. *)
Definition mark_loaded (location : string) (mbs : list (string * metabox)) : list (string * metabox) :=
  map (fun km => if String.eqb km.1 location then (km.1, mkMetabox (isActive km.2) true) else km) mbs.

(** Releases over a sequence of reports, each reading the state before its
    box is marked loaded. *)
Fixpoint releases_before (mbs : list (string * metabox)) (reports : list string) : nat :=
  match reports with
  | [] => 0
  | loc :: rest =>
      (if releases_hold loc mbs then 1 else 0) + releases_before (mark_loaded loc mbs) rest
  end.

(** The same, each report reading the state after its box is marked. *)
Fixpoint releases_after (mbs : list (string * metabox)) (reports : list string) : nat :=
  match reports with
  | [] => 0
  | loc :: rest =>
      let mbs' := mark_loaded loc mbs in
      (if releases_hold loc mbs' then 1 else 0) + releases_after mbs' rest
  end.

(** The reference condition for releasing the ready hold: the reporting
    meta box is active and not yet loaded, and it is the only one. *)
Definition release_spec (location : string) (mbs : list (string * metabox)) : Prop :=
  (exists m, (location, m) ∈ mbs /\ isActive m = true /\ isLoaded m = false) /\
  forall k m, (k, m) ∈ mbs -> isActive m = true -> isLoaded m = false -> k = location.

Lemma releases_hold_keys location mbs :
  releases_hold location mbs = bool_decide (map fst (unloaded_metaboxes mbs) = [location]).
Proof.
  unfold releases_hold.
  destruct (unloaded_metaboxes mbs) as [|[k m] [|km' l]]; cbn [map fst].
  - by rewrite bool_decide_false.
  - destruct (String.eqb_spec k location) as [->|Hne].
    + by rewrite bool_decide_true.
    + rewrite bool_decide_false; [done|]. congruence.
  - by rewrite bool_decide_false.
Qed.

Lemma elem_of_unloaded (k : string) (m : metabox) mbs :
  (k, m) ∈ unloaded_metaboxes mbs <-> (k, m) ∈ mbs /\ isActive m = true /\ isLoaded m = false.
Proof.
  unfold unloaded_metaboxes. rewrite !list_elem_of_In, filter_In. simpl.
  destruct (isActive m), (isLoaded m); simpl; naive_solver.
Qed.

(** A duplicate-free list of keys that all equal [x] and contains it is
    [[x]]. *)
Lemma NoDup_all_eq (x : string) (ks : list string) :
  NoDup ks -> x ∈ ks -> Forall (fun k => k = x) ks -> ks = [x].
Proof.
  intros Hnd Hx Hall. destruct ks as [|k [|k' ks]].
  - by apply elem_of_nil in Hx.
  - apply Forall_cons in Hall as [-> _]. done.
  - apply Forall_cons in Hall as [-> Hall]. apply Forall_cons in Hall as [-> _].
    apply NoDup_cons in Hnd as [Hn _]. destruct Hn. by left.
Qed.

(** (C18) The code's release test, [unloadedMetaboxes.length === 1 &&
    unloadedMetaboxes[0].key === action.location], is equivalent to the
    reference condition: the reporting box is active and unloaded and no
    other active box is still loading.  The keys of [getMetaBoxes] are
    those of an object, so they are distinct. *)
Theorem releases_hold_spec (location : string) (mbs : list (string * metabox)) :
  NoDup (map fst mbs) -> releases_hold location mbs = true <-> release_spec location mbs.
Proof.
  intros Hnd. rewrite releases_hold_keys, bool_decide_eq_true. unfold release_spec. split.
  - intros Hk. split.
    + assert (Hin : location ∈ map fst (unloaded_metaboxes mbs)) by (rewrite Hk; by left).
      apply list_elem_of_fmap in Hin as ([k m] & -> & Hin). apply elem_of_unloaded in Hin. by exists m.
    + intros k m Hin Ha Hl. assert (Hk' : k ∈ map fst (unloaded_metaboxes mbs)).
      { apply list_elem_of_fmap. exists (k, m). split; [done|]. by apply elem_of_unloaded. }
      rewrite Hk in Hk'. by apply list_elem_of_singleton in Hk'.
  - intros [(m & Hin & Ha & Hl) Hall]. apply NoDup_all_eq.
    + by apply NoDup_map_filter.
    + apply list_elem_of_fmap. exists (location, m). split; [done|]. by apply elem_of_unloaded.
    + apply Forall_forall. intros k (km & -> & Hkm)%list_elem_of_fmap. destruct km as [k' m'].
      apply elem_of_unloaded in Hkm as (? & ? & ?). simpl. by eapply Hall.
Qed.

Section Events.
Context {St : Type} `{EditorSelectors St} (reduce : action -> St -> St).

Abbreviation run p w := (exec (leaf reduce) p w).

(** [INITIALIZE_META_BOX_STATE] holds the ready event exactly when
    the [normal] or the [side] location has meta boxes. *)
Theorem initialize_meta_box_state_events (metaBoxes : gmap string bool) (w : world St) :
  ok_log (run (INITIALIZE_META_BOX_STATE metaBoxes) w)
  = Some (w_log w ++ if default false (metaBoxes !! "normal") || default false (metaBoxes !! "side")
                      then [EvHoldReady true] else []).
Proof.
  unfold INITIALIZE_META_BOX_STATE, holds_ready. simpl. rewrite orb_false_r.
  destruct (_ || _); simpl; by rewrite ?app_nil_r.
Qed.

(** (C21) [META_BOX_LOADED] releases the ready event exactly when the
    reporting location is the only active meta box not yet loaded in the
    state it reads. *)
Theorem meta_box_loaded_events (location : string) (w : world St) :
  ok_log (run (META_BOX_LOADED location) w)
  = Some (w_log w ++ if decide (map fst (unloaded_metaboxes (getMetaBoxes (w_state w))) = [location])
                      then [EvHoldReady false] else []).
Proof.
  unfold META_BOX_LOADED. simpl. rewrite releases_hold_keys.
  case_bool_decide; case_decide; try done; simpl; by rewrite ?app_nil_r.
Qed.
End Events.

(** ** Counting releases *)

Lemma unloaded_mark_loaded location mbs :
  map fst (unloaded_metaboxes (mark_loaded location mbs))
  = List.filter (fun k => negb (String.eqb k location)) (map fst (unloaded_metaboxes mbs)).
Proof.
  induction mbs as [|[k m] mbs IH]; [done|]. simpl.
  destruct (String.eqb_spec k location) as [->|Hne]; simpl.
  - rewrite andb_false_r. simpl. rewrite IH.
    destruct (isActive m && negb (isLoaded m)); simpl; [|done].
    by rewrite String.eqb_refl.
  - destruct (isActive m && negb (isLoaded m)); simpl; [|done].
    rewrite IH. destruct (String.eqb_spec k location); done.
Qed.

Lemma filter_not_in (l : list string) (x : string) :
  x ∉ l -> List.filter (fun k => negb (String.eqb k x)) l = l.
Proof.
  induction l as [|y l IH]; intros Hx; [done|]. simpl.
  rewrite elem_of_cons in Hx.
  destruct (String.eqb_spec y x); [naive_solver|]. simpl. f_equal. apply IH. naive_solver.
Qed.

(** (C19) When every active, not yet loaded meta box reports once, in any
    order, and each report reads the state before its own box is marked
    loaded, the ready event is released exactly once. *)
Theorem releases_before_once (mbs : list (string * metabox)) (reports : list string) :
  NoDup reports -> reports ≡ₚ map fst (unloaded_metaboxes mbs) -> reports <> [] ->
  releases_before mbs reports = 1.
Proof.
  revert mbs. induction reports as [|loc rest IH]; intros mbs Hnd Hperm Hne; [done|].
  apply NoDup_cons in Hnd as [Hloc Hnd]. simpl. rewrite releases_hold_keys.
  assert (rest ≡ₚ map fst (unloaded_metaboxes (mark_loaded loc mbs))) as Hrest.
  { rewrite unloaded_mark_loaded.
    transitivity (List.filter (fun k => negb (String.eqb k loc)) (loc :: rest)).
    - simpl. rewrite String.eqb_refl. simpl. by rewrite filter_not_in.
    - by apply Permutation_list_filter. }
  destruct rest as [|r rest].
  - rewrite bool_decide_true; [done|].
    symmetry. apply Permutation_singleton_l. by symmetry.
  - rewrite bool_decide_false.
    + simpl. apply IH; done.
    + intros Heq. rewrite Heq in Hperm. apply Permutation_length in Hperm. done.
Qed.

(** (C20) If each report instead reads the state after its own box is
    marked loaded, the release test never holds: the ready event held by
    [INITIALIZE_META_BOX_STATE] is never released. *)
Theorem releases_after_never (mbs : list (string * metabox)) (reports : list string) :
  releases_after mbs reports = 0.
Proof.
  revert mbs. induction reports as [|loc rest IH]; intros mbs; [done|]. simpl.
  rewrite IH, releases_hold_keys, unloaded_mark_loaded.
  rewrite bool_decide_false; [done|].
  intros Heq. assert (location_in : loc ∈ List.filter (fun k => negb (String.eqb k loc))
                                      (map fst (unloaded_metaboxes mbs))).
  { rewrite Heq. by left. }
  apply list_elem_of_In, filter_In in location_in as [_ Hf].
  by rewrite String.eqb_refl in Hf.
Qed.

(** Witness of (C19): boxes [normal] and [side], both active and unloaded;
    reporting [normal] alone releases nothing, reporting both releases once. *)
Lemma releases_before_once_witness :
  let mbs := [("normal", mkMetabox true false); ("side", mkMetabox true false)] in
  releases_before mbs ["normal"] = 0 /\ releases_before mbs ["normal"; "side"] = 1.
Proof.
  split; [reflexivity|].
  apply releases_before_once.
  - apply (bool_decide_unpack _). reflexivity.
  - reflexivity.
  - done.
Defined.

(** Witness of (C18): [normal] still loading, [side] loaded. *)
Lemma releases_hold_spec_witness :
  releases_hold "normal" [("normal", mkMetabox true false); ("side", mkMetabox true true)] = true <->
  release_spec "normal" [("normal", mkMetabox true false); ("side", mkMetabox true true)].
Proof. apply releases_hold_spec. repeat constructor; set_solver. Defined.
