(* ===== verification/Reusable.v ===== *)
(** Reusable blocks: [FETCH_REUSABLE_BLOCKS], [SAVE_REUSABLE_BLOCK],
    [CONVERT_BLOCK_TO_STATIC] and [CONVERT_BLOCK_TO_REUSABLE] of
    [src/editor/effects.js] (lines 323-396).

    A fetch keeps, of each item, its id, its name and the type and
    attributes of the first block its content parses to.  A save serializes
    [createBlock(type, attributes)] and reports with a notice.  Converting
    to static replaces the placeholder by a fresh block of the referenced
    reusable block's type and attributes; converting to reusable stores a
    new reusable block ([createReusableBlock], id [-uniqueId()]), saves it
    and replaces the block by a [core/reusable-block] placeholder. *)

From S2P Require Import Prelude Blocks Actions Program PostSave.

Open Scope prog_scope.

Definition SAVE_REUSABLE_BLOCK_NOTICE_ID : string := "SAVE_REUSABLE_BLOCK_NOTICE_ID".

(** [castArray(reusableBlockOrBlocks)] *)
Definition castArray (resp : response) : list reusable_raw :=
  match resp with
  | RespReusable r => [r]
  | RespReusableList l => l
  | _ => []
  end.

(** Line 373: [get(error.responseJSON, 'message', __('An unknown error occured'))] *)
Definition reusable_save_error_message (err : xhr_error) : string :=
  match responseJSON err with
  | Some e => default "An unknown error occured" (err_message e)
  | None => "An unknown error occured"
  end.

(** [createReusableBlock(type, attributes)] of [@wordpress/blocks], with
    the number [uniqueId()] returned. *)
Definition createReusableBlock (type : string) (attrs : Attrs) (n : Z) : reusable_block :=
  mkReusable (- n) "Untitled block" type attrs.

(** [oldBlock.attributes.ref] as a reusable block id. *)
Definition ref_id (v : option Value) : option Z :=
  match v with Some (VNum z) => Some z | _ => None end.

(** The request of line 328-332: one block when [id] is truthy. *)
Definition fetch_request (id : option Z) : request :=
  match id with
  | Some i => if Z.eqb i 0 then ApiFetchReusableBlocks else ApiFetchReusableBlock i
  | None => ApiFetchReusableBlocks
  end.

Section Handlers.
Context {St : Type} `{EditorSelectors St} `{BlockRegistry} `{BlockParser}.

(** Lines 338-341: [const [ { name: type, attributes } ] = parse(content)];
    [None] where the destructuring of an empty parse throws. *)
Definition normalize_reusable (item : reusable_raw) : option reusable_block :=
  match parse (raw_content item) with
  | (type, attributes) :: _ => Some (mkReusable (raw_id item) (raw_name item) type attributes)
  | [] => None
  end.

(** Lines 323-354. *)
Definition FETCH_REUSABLE_BLOCKS (id : option Z) : prog St :=
  Request (fetch_request id)
    (fun resp =>
       match mapM normalize_reusable (castArray resp) with
       | Some rbs => FetchReusableBlocksSuccess rbs ;; Done
       | None => Throw "Cannot destructure an empty parse"
       end)
    (fun err => FetchReusableBlocksFailure (default unknown_error (responseJSON err)) ;; Done).

(** Lines 355-378. *)
Definition SAVE_REUSABLE_BLOCK (id : Z) : prog St :=
  state <- getState ;;
  match getReusableBlock state id with
  | None => Throw "Cannot destructure undefined"
  | Some rb =>
      create_block (rb_type rb) (rb_attributes rb) (fun b =>
        Request (ApiSaveReusableBlock id (rb_name rb) (serialize b))
          (fun _ =>
             SaveReusableBlockSuccess id ;;
             CreateNotice NSuccess (NText "Reusable block updated") SAVE_REUSABLE_BLOCK_NOTICE_ID ;;
             Done)
          (fun err =>
             SaveReusableBlockFailure id ;;
             CreateNotice NError (NText (reusable_save_error_message err))
               SAVE_REUSABLE_BLOCK_NOTICE_ID ;;
             Done))
  end.

(** Lines 379-386. *)
Definition CONVERT_BLOCK_TO_STATIC (u : string) : prog St :=
  state <- getState ;;
  match getBlock state u with
  | None => Throw "Cannot read property 'attributes' of undefined"
  | Some oldBlock =>
      state' <- getState ;;
      match ref_id (attributes oldBlock !! "ref") ≫= getReusableBlock state' with
      | None => Throw "Cannot read property 'type' of undefined"
      | Some reusableBlock =>
          create_block (rb_type reusableBlock) (rb_attributes reusableBlock) (fun newBlock =>
            ReplaceBlocks [uid oldBlock] [newBlock] ;; Done)
      end
  end.

(** Lines 387-396. *)
Definition CONVERT_BLOCK_TO_REUSABLE (u : string) : prog St :=
  state <- getState ;;
  match getBlock state u with
  | None => Throw "Cannot read property 'name' of undefined"
  | Some oldBlock =>
      UniqueId (fun n =>
        let reusableBlock := createReusableBlock (name oldBlock) (attributes oldBlock) n in
        create_block "core/reusable-block" (<["ref" := VNum (rb_id reusableBlock)]> ∅) (fun newBlock =>
          UpdateReusableBlock (rb_id reusableBlock) reusableBlock ;;
          SaveReusableBlock (rb_id reusableBlock) ;;
          ReplaceBlocks [uid oldBlock] [newBlock] ;;
          Done))
  end.
End Handlers.

Section Events.
Context {St : Type} `{EditorSelectors St} `{BlockRegistry} `{BlockParser}
  (reduce : action -> St -> St).

Abbreviation run p w := (exec (leaf reduce) p w).

(** Normalizing a list of items keeps, of each, its id and name and the
    type and attributes of the first parsed block. *)
Lemma mapM_normalize_reusable (items : list reusable_raw) rbs :
  mapM normalize_reusable items = Some rbs ->
  Forall2 (fun item rb => rb_id rb = raw_id item /\ rb_name rb = raw_name item /\
             exists rest, parse (raw_content item) = (rb_type rb, rb_attributes rb) :: rest)
    items rbs.
Proof.
  intros Hm. apply mapM_Some_1 in Hm. eapply Forall2_impl; [exact Hm|].
  intros item rb. unfold normalize_reusable.
  destruct (parse (raw_content item)) as [|[ty attrs] rest] eqn:E; [done|].
  intros [= <-]. simpl. eauto.
Qed.

(** (C34) [FETCH_REUSABLE_BLOCKS] sends one request (a single block when
    the id is truthy, the collection otherwise); its success callback
    dispatches one record per fetched item, with the item's id and name and
    the type and attributes of the first block its content parses to, or
    throws without dispatching when an item parses to no block; its failure
    callback dispatches the failure with the server's error or the
    generic one. *)
Theorem fetch_reusable_blocks_events (id : option Z) (w : world St) :
  ok_log (run (FETCH_REUSABLE_BLOCKS id) w) = Some (w_log w ++ [EvRequest (fetch_request id)]) /\
  exists ok ko,
    ok_pending (run (FETCH_REUSABLE_BLOCKS id) w)
      = Some (w_pending w ++ [mkPending (fetch_request id) ok ko]) /\
    (forall resp (w' : world St),
       (exists rbs,
          Forall2 (fun item rb => rb_id rb = raw_id item /\ rb_name rb = raw_name item /\
                     exists rest, parse (raw_content item) = (rb_type rb, rb_attributes rb) :: rest)
            (castArray resp) rbs /\
          ok_log (run (ok resp) w') = Some (w_log w' ++ [EvDispatch (FetchReusableBlocksSuccess rbs)]))
       \/ (Exists (fun item => parse (raw_content item) = []) (castArray resp) /\
           exists m, run (ok resp) w' = Exn m w')) /\
    (forall err (w' : world St),
       ok_log (run (ko err) w') =
         Some (w_log w' ++ [EvDispatch (FetchReusableBlocksFailure
                                          (default unknown_error (responseJSON err)))])).
Proof.
  split; [reflexivity|]. eexists _, _. split; [reflexivity|]. split; [|reflexivity].
  intros resp w'. destruct (mapM normalize_reusable (castArray resp)) as [rbs|] eqn:Em.
  - left. exists rbs. split; [by apply mapM_normalize_reusable|]. reflexivity.
  - right. split.
    + apply mapM_None_1 in Em. eapply Exists_impl; [exact Em|].
      intros item. unfold normalize_reusable. by destruct (parse (raw_content item)) as [|[]].
    + simpl. eauto.
Qed.

(** (C35) Saving a reusable block that the store holds sends its name and
    the serialization of [createBlock(type, attributes)]; success
    dispatches the success action then the ["Reusable block updated"]
    notice, failure dispatches the failure action then an error notice with
    the server's message or the fallback text. *)
Theorem save_reusable_block_events (id : Z) (rb : reusable_block) (bt : block_type) (w : world St) :
  getReusableBlock (w_state w) id = Some rb -> getBlockType (rb_type rb) = Some bt ->
  exists b ok ko,
    createBlock (rb_type rb) (rb_attributes rb) (uid b) = Some b /\
    ok_log (run (SAVE_REUSABLE_BLOCK id) w)
      = Some (w_log w ++ [EvRequest (ApiSaveReusableBlock id (rb_name rb) (serialize b))]) /\
    ok_pending (run (SAVE_REUSABLE_BLOCK id) w)
      = Some (w_pending w ++ [mkPending (ApiSaveReusableBlock id (rb_name rb) (serialize b)) ok ko]) /\
    (forall resp (w' : world St),
       ok_log (run (ok resp) w') =
         Some (w_log w' ++ [EvDispatch (SaveReusableBlockSuccess id);
                            EvDispatch (CreateNotice NSuccess (NText "Reusable block updated")
                                          SAVE_REUSABLE_BLOCK_NOTICE_ID)])) /\
    (forall err (w' : world St),
       ok_log (run (ko err) w') =
         Some (w_log w' ++ [EvDispatch (SaveReusableBlockFailure id);
                            EvDispatch (CreateNotice NError (NText (reusable_save_error_message err))
                                          SAVE_REUSABLE_BLOCK_NOTICE_ID)])).
Proof.
  intros Hrb Hbt. unfold SAVE_REUSABLE_BLOCK. simpl. rewrite Hrb.
  match goal with
  | |- context [create_block ?n ?g ?k] =>
      destruct (exec_create_block (leaf reduce) n g k w bt Hbt) as (b & w1 & Hrun & Hb & Hs & Hl & Hp & _)
  end.
  exists b. eexists _, _. rewrite Hrun. simpl. rewrite Hl, Hp.
  split; [done|]. split; [done|]. split; [done|].
  split; intros; simpl; by rewrite <- ?app_assoc.
Qed.

(** (C36) [CONVERT_BLOCK_TO_REUSABLE] on a block of the store stores a new
    reusable block with a negative temporary id [-uniqueId()], the name
    ["Untitled block"] and the block's type and attributes, then asks for
    it to be saved, then replaces the block by a [core/reusable-block]
    placeholder that references it. *)
Theorem convert_block_to_reusable_events (u : string) (oldBlock : block) (bt : block_type) (w : world St) :
  getBlock (w_state w) u = Some oldBlock -> getBlockType "core/reusable-block" = Some bt ->
  let rb := createReusableBlock (name oldBlock) (attributes oldBlock) (Z.succ (w_unique w)) in
  exists newBlock,
    createBlock "core/reusable-block" (<["ref" := VNum (rb_id rb)]> ∅) (uid newBlock) = Some newBlock /\
    ok_log (run (CONVERT_BLOCK_TO_REUSABLE u) w)
    = Some (w_log w ++ [EvDispatch (UpdateReusableBlock (rb_id rb) rb);
                        EvDispatch (SaveReusableBlock (rb_id rb));
                        EvDispatch (ReplaceBlocks [uid oldBlock] [newBlock])]).
Proof.
  intros Hb Hbt rb. unfold CONVERT_BLOCK_TO_REUSABLE. simpl. rewrite Hb. simpl.
  unfold createBlock. rewrite Hbt. eexists (mkBlock _ _ _). split; [reflexivity|].
  simpl. by rewrite <- ?app_assoc.
Qed.

(** (C37) [CONVERT_BLOCK_TO_STATIC] on a placeholder whose [ref] names a
    reusable block of the store replaces the placeholder by a fresh block
    that [createBlock] makes of the reusable block's type and attributes. *)
Theorem convert_block_to_static_events (u : string) (oldBlock : block) (ref : Z)
    (rb : reusable_block) (bt : block_type) (w : world St) :
  getBlock (w_state w) u = Some oldBlock -> attributes oldBlock !! "ref" = Some (VNum ref) ->
  getReusableBlock (w_state w) ref = Some rb -> getBlockType (rb_type rb) = Some bt ->
  exists newBlock,
    createBlock (rb_type rb) (rb_attributes rb) (uid newBlock) = Some newBlock /\
    ok_log (run (CONVERT_BLOCK_TO_STATIC u) w)
    = Some (w_log w ++ [EvDispatch (ReplaceBlocks [uid oldBlock] [newBlock])]).
Proof.
  intros Hb Href Hrb Hbt. unfold CONVERT_BLOCK_TO_STATIC. simpl. rewrite Hb. simpl.
  rewrite Href. simpl. rewrite Hrb. unfold createBlock. rewrite Hbt.
  eexists (mkBlock _ _ _). split; [reflexivity|]. simpl. unfold createBlock. rewrite Hbt. reflexivity.
Qed.

(** (C38) [CONVERT_BLOCK_TO_STATIC] on a block whose [ref] names no
    reusable block of the store (not fetched yet, or no [ref] at all)
    throws the TypeError of reading [type] of [undefined] and dispatches
    nothing. *)
Theorem convert_block_to_static_unloaded (u : string) (oldBlock : block) (w : world St) :
  getBlock (w_state w) u = Some oldBlock ->
  ref_id (attributes oldBlock !! "ref") ≫= getReusableBlock (w_state w) = None ->
  run (CONVERT_BLOCK_TO_STATIC u) w = Exn "Cannot read property 'type' of undefined" w.
Proof. intros Hb Hrb. unfold CONVERT_BLOCK_TO_STATIC. simpl. rewrite Hb. simpl. by rewrite Hrb. Qed.
End Events.

