(* ===== verification/Effects.v ===== *)
(** The effects table of [src/editor/effects.js] (lines 59-397) and the
    refx runtime it runs in.

    [effects] maps each action to the handler registered under its [type],
    [None] for the types the table does not list (refx then only reduces
    the action).  With this table, dispatch nests at most three deep
    (AUTOSAVE dispatches REQUEST_POST_UPDATE, whose handler dispatches
    UPDATE_POST; CONVERT_BLOCK_TO_REUSABLE dispatches SAVE_REUSABLE_BLOCK):
    three units of fuel run every dispatch and every callback to its end,
    for every reducer and store. *)

From S2P Require Import Prelude Blocks Actions Program PostSave Trash Merge Autosave Setup MetaBoxes Reusable.

Section Router.
Context {St : Type} `{EditorSelectors St} `{BlockRegistry} `{BlockParser}.

(** The exported object, keyed by action type. *)
Definition effects (a : action) : option (prog St) :=
  match a with
  | RequestPostUpdate => Some REQUEST_POST_UPDATE
  | RequestPostUpdateSuccess previousPost p _ => Some (REQUEST_POST_UPDATE_SUCCESS previousPost p)
  | RequestPostUpdateFailure _ p edits _ => Some (REQUEST_POST_UPDATE_FAILURE p edits)
  | TrashPost postId postType => Some (TRASH_POST postId postType)
  | TrashPostSuccess postId postType => Some (TRASH_POST_SUCCESS postId postType)
  | TrashPostFailure _ _ error => Some (TRASH_POST_FAILURE error)
  | MergeBlocks blockA blockB => Some (MERGE_BLOCKS blockA blockB)
  | Autosave => Some AUTOSAVE
  | SetupEditor p settings => Some (SETUP_EDITOR p settings)
  | InitializeMetaBoxState metaBoxes => Some (INITIALIZE_META_BOX_STATE metaBoxes)
  | MetaBoxLoaded location => Some (META_BOX_LOADED location)
  | FetchReusableBlocks id => Some (FETCH_REUSABLE_BLOCKS id)
  | SaveReusableBlock id => Some (SAVE_REUSABLE_BLOCK id)
  | ConvertBlockToStatic u => Some (CONVERT_BLOCK_TO_STATIC u)
  | ConvertBlockToReusable u => Some (CONVERT_BLOCK_TO_REUSABLE u)
  | _ => None
  end.

(** The fuel that bounds the nesting of dispatches. *)
Definition effects_fuel : nat := 3.
End Router.

(** Unfold the handlers of the table and the helpers they branch on. *)
Ltac unfold_handlers :=
  unfold REQUEST_POST_UPDATE, REQUEST_POST_UPDATE_SUCCESS, REQUEST_POST_UPDATE_FAILURE,
    after_save_notice, TRASH_POST, TRASH_POST_SUCCESS, TRASH_POST_FAILURE, MERGE_BLOCKS,
    blocks_with_the_same_type, AUTOSAVE, SETUP_EDITOR, INITIALIZE_META_BOX_STATE,
    META_BOX_LOADED, FETCH_REUSABLE_BLOCKS, SAVE_REUSABLE_BLOCK, CONVERT_BLOCK_TO_STATIC,
    CONVERT_BLOCK_TO_REUSABLE.

(** One step of a proof that a handler is [deep_in D R]: through the
    branches and the block helpers down to the dispatches and requests,
    whose conditions are left to the caller. *)
Ltac deep_step :=
  match goal with
  | |- forall _, _ => intros
  | |- deep_in _ _ (match ?x with _ => _ end) => destruct x
  | |- deep_in _ _ (if ?b then _ else _) => destruct b
  | |- deep_in _ _ (dispatch_all _ _) => apply deep_in_dispatch_all
  | |- deep_in _ _ (create_block _ _ _) => apply deep_in_create_block
  | |- deep_in _ _ (create_blocks _ _) => apply deep_in_create_blocks
  | |- deep_in _ _ (with_uids _ _) => apply deep_in_with_uids
  | |- deep_in _ _ (template_blocks _ _) => apply deep_in_template_blocks
  | |- deep_in _ _ _ => constructor
  | |- Forall _ (if ?b then _ else _) => destruct b
  | |- Forall _ _ => constructor
  | |- _ => progress unfold_handlers
  end.

Section Termination.
Context {St : Type} `{EditorSelectors St} `{BlockRegistry} `{BlockParser}
  (reduce : action -> St -> St).

Abbreviation total f := (total_at reduce effects f).

(** Prove [total f a] by unfolding the handler of [a] and checking every
    action it dispatches, one level of fuel down. *)
Ltac solve_total :=
  apply total_at_succ; cbn [effects];
  repeat match goal with
  | |- True => exact I
  | |- forall _, _ => intros
  | |- dispatches_in _ (match ?x with _ => _ end) => destruct x
  | |- dispatches_in _ (if ?b then _ else _) => destruct b
  | |- dispatches_in _ (dispatch_all _ _) => apply dispatches_in_dispatch_all
  | |- dispatches_in _ (create_block _ _ _) => apply dispatches_in_create_block
  | |- dispatches_in _ (create_blocks _ _) => apply dispatches_in_create_blocks
  | |- dispatches_in _ (with_uids _ _) => apply dispatches_in_with_uids
  | |- dispatches_in _ (template_blocks _ _) => apply dispatches_in_template_blocks
  | |- dispatches_in _ _ => constructor
  | |- Forall _ (if ?b then _ else _) => destruct b
  | |- Forall _ _ => constructor
  | |- total _ _ => solve_total
  | |- _ => progress unfold_handlers
  end.

Lemma effects_total_at_fuel (a : action) : total effects_fuel a.
Proof. unfold effects_fuel. destruct a; solve_total. Qed.

(** (C3) Every dispatch, its nested dispatches included, and every program
    run by the runtime (a handler, a REST callback or a timer) ends with
    [effects_fuel] units of fuel, and any larger fuel gives the same
    outcome. *)
Theorem effects_terminate (a : action) (p : prog St) (w : world St) (f : nat) :
  not_oof (dispatch reduce effects effects_fuel a w) /\
  not_oof (exec (dispatch reduce effects effects_fuel) p w) /\
  (effects_fuel <= f -> dispatch reduce effects f a w = dispatch reduce effects effects_fuel a w).
Proof.
  split; [apply effects_total_at_fuel|]. split.
  - apply exec_total, dispatches_in_all. intros b. apply effects_total_at_fuel.
  - intros Hf. apply dispatch_fuel_mono; [done|]. apply effects_total_at_fuel.
Qed.
End Termination.
