(* ===== verification/Store.v ===== *)
(** A concrete editor store: the state the selectors read and the reducer
    the refx middleware runs before each handler.  [editor/reducer] and
    [editor/selectors] are not part of [src/]: they are modelled from the
    spec, for the actions whose effect the handlers' theorems rely on (the
    post and its edits, the block list, the reusable blocks, notices, meta
    boxes); every other action leaves the state unchanged. *)

From S2P Require Import Prelude Blocks Actions Program PostSave MetaBoxes Reusable.

Record EditorState := mkEditorState {
  es_post : post;
  es_postType : string;
  es_edits : Attrs;
  es_dirty : bool;
  es_blocks : list block;
  es_reusable : gmap Z reusable_block;
  es_metaBoxes : list (string * metabox);
  es_notices : list (string * notice_status * notice_content)
}.

(** The position of the first block with uid [u]. *)
Fixpoint block_index (u : string) (l : list block) : option nat :=
  match l with
  | [] => None
  | b :: l' => if String.eqb (uid b) u then Some 0 else S <$> block_index u l'
  end.

(** [REPLACE_BLOCKS]: the blocks [uids] leave the list and [bs] take the
    place of the first of them. *)
(** The blocks whose uid is not one of [uids]. *)
Definition keep_blocks (uids : list string) (l : list block) : list block :=
  List.filter (fun b => negb (mem_str uids (Some (uid b)))) l.

Definition replace_blocks (uids : list string) (bs : list block) (l : list block) : list block :=
  match head uids ≫= fun u => block_index u l with
  | Some i => keep_blocks uids (take i l) ++ bs ++ keep_blocks uids (drop i l)
  | None => keep_blocks uids l ++ bs
  end.

Definition with_blocks (bs : list block) (s : EditorState) : EditorState :=
  mkEditorState (es_post s) (es_postType s) (es_edits s) (es_dirty s) bs (es_reusable s)
    (es_metaBoxes s) (es_notices s).

Definition with_reusable (r : gmap Z reusable_block) (s : EditorState) : EditorState :=
  mkEditorState (es_post s) (es_postType s) (es_edits s) (es_dirty s) (es_blocks s) r
    (es_metaBoxes s) (es_notices s).

Definition with_notices (n : list (string * notice_status * notice_content)) (s : EditorState) : EditorState :=
  mkEditorState (es_post s) (es_postType s) (es_edits s) (es_dirty s) (es_blocks s) (es_reusable s)
    (es_metaBoxes s) n.

Definition drop_notice (id : string) (n : list (string * notice_status * notice_content)) :=
  List.filter (fun x => negb (String.eqb x.1.1 id)) n.

Definition editor_reducer (a : action) (s : EditorState) : EditorState :=
  match a with
  | ResetPost p =>
      mkEditorState p (es_postType s) ∅ false (es_blocks s) (es_reusable s) (es_metaBoxes s) (es_notices s)
  | EditPost edits =>
      mkEditorState (es_post s) (es_postType s) (es_edits s <+ edits) true (es_blocks s)
        (es_reusable s) (es_metaBoxes s) (es_notices s)
  | SetupNewPost edits =>
      mkEditorState (es_post s) (es_postType s) (es_edits s <+ edits) (es_dirty s) (es_blocks s)
        (es_reusable s) (es_metaBoxes s) (es_notices s)
  | ResetBlocks bs => with_blocks bs s
  | ReplaceBlocks uids bs => with_blocks (replace_blocks uids bs (es_blocks s)) s
  | UpdateReusableBlock id rb => with_reusable (<[id := rb]> (es_reusable s)) s
  | FetchReusableBlocksSuccess rbs =>
      with_reusable (foldr (fun rb m => <[rb_id rb := rb]> m) (es_reusable s) rbs) s
  | CreateNotice st c id => with_notices (drop_notice id (es_notices s) ++ [(id, st, c)]) s
  | RemoveNotice id => with_notices (drop_notice id (es_notices s)) s
  | MetaBoxLoaded location =>
      mkEditorState (es_post s) (es_postType s) (es_edits s) (es_dirty s) (es_blocks s)
        (es_reusable s) (mark_loaded location (es_metaBoxes s)) (es_notices s)
  | _ => s
  end.

(** The selectors over this state; the content is the serialization of
    the blocks. *)
Definition store_selectors `{BlockParser} : EditorSelectors EditorState := {|
  getCurrentPost := es_post;
  getCurrentPostType := es_postType;
  getPostEdits := es_edits;
  getEditedPostContent := fun s => String.concat "" (map serialize (es_blocks s));
  getDirtyMetaBoxes := fun _ => [];
  isEditedPostSaveable := fun s => negb (String.eqb (post_title_raw (es_post s)) "")
                                   || negb (bool_decide (es_blocks s = []));
  isEditedPostNew := fun s => String.eqb (post_status (es_post s)) "auto-draft";
  isEditedPostDirty := es_dirty;
  isCurrentPostPublished := fun s => mem_str publishStatus (Some (post_status (es_post s)));
  getMetaBoxes := es_metaBoxes;
  getBlock := fun s u => List.find (fun b => String.eqb (uid b) u) (es_blocks s);
  getReusableBlock := fun s id => es_reusable s !! id
|}.

(** A fresh post and an empty editor, for the witnesses. *)
Definition sample_post : post := mkPost 7 "draft" "http://example.org/?p=7" "" "Hello".

Definition empty_state : EditorState :=
  mkEditorState sample_post "post" ∅ false [] ∅ [] [].

#[local] Existing Instances fixture_registry plain_parser store_selectors.

(** Fixture for the witnesses: a text block, a placeholder referencing the
    reusable block [-1], and that reusable block. *)
Definition text_block : block := mkBlock "b1" "core/text" {["content" := VStr "Hi"]}.
Definition placeholder : block := mkBlock "b2" "core/reusable-block" {["ref" := VNum (-1)]}.
Definition stored_reusable : reusable_block :=
  mkReusable (-1) "Untitled block" "core/text" {["content" := VStr "Hi"]}.

Definition blocks_world : world EditorState :=
  mkWorld (mkEditorState sample_post "post" ∅ false [text_block; placeholder]
             {[(-1)%Z := stored_reusable]} [] []) 0 0 None [] [] [].

(** The same blocks before any reusable block was fetched. *)
Definition unfetched_world : world EditorState :=
  mkWorld (mkEditorState sample_post "post" ∅ false [text_block; placeholder] ∅ [] []) 0 0 None [] [] [].

(** Witness of (C35): saving the stored reusable block. *)
Lemma save_reusable_block_events_witness :
  exists b ok ko,
    createBlock (rb_type stored_reusable) (rb_attributes stored_reusable) (uid b) = Some b /\
    ok_log (exec (leaf editor_reducer) (SAVE_REUSABLE_BLOCK (-1)) blocks_world)
      = Some (w_log blocks_world ++
              [EvRequest (ApiSaveReusableBlock (-1) (rb_name stored_reusable) (serialize b))]) /\
    ok_pending (exec (leaf editor_reducer) (SAVE_REUSABLE_BLOCK (-1)) blocks_world)
      = Some (w_pending blocks_world ++
              [mkPending (ApiSaveReusableBlock (-1) (rb_name stored_reusable) (serialize b)) ok ko]) /\
    (forall resp (w' : world EditorState),
       ok_log (exec (leaf editor_reducer) (ok resp) w') =
         Some (w_log w' ++ [EvDispatch (SaveReusableBlockSuccess (-1));
                            EvDispatch (CreateNotice NSuccess (NText "Reusable block updated")
                                          SAVE_REUSABLE_BLOCK_NOTICE_ID)])) /\
    (forall err (w' : world EditorState),
       ok_log (exec (leaf editor_reducer) (ko err) w') =
         Some (w_log w' ++ [EvDispatch (SaveReusableBlockFailure (-1));
                            EvDispatch (CreateNotice NError (NText (reusable_save_error_message err))
                                          SAVE_REUSABLE_BLOCK_NOTICE_ID)])).
Proof.
  apply (save_reusable_block_events editor_reducer (-1) stored_reusable
           (mkBlockType "core/text" {["content" := mkSource None]} None [] [])); reflexivity.
Defined.

(** Witness of (C36): converting the text block to a reusable block. *)
Lemma convert_block_to_reusable_events_witness :
  let rb := createReusableBlock (name text_block) (attributes text_block)
              (Z.succ (w_unique blocks_world)) in
  exists newBlock,
    createBlock "core/reusable-block" (<["ref" := VNum (rb_id rb)]> ∅) (uid newBlock) = Some newBlock /\
    ok_log (exec (leaf editor_reducer) (CONVERT_BLOCK_TO_REUSABLE "b1") blocks_world)
    = Some (w_log blocks_world ++ [EvDispatch (UpdateReusableBlock (rb_id rb) rb);
                                   EvDispatch (SaveReusableBlock (rb_id rb));
                                   EvDispatch (ReplaceBlocks [uid text_block] [newBlock])]).
Proof.
  apply (convert_block_to_reusable_events editor_reducer "b1" text_block
           (mkBlockType "core/reusable-block" {["ref" := mkSource None]} None [] [])); reflexivity.
Defined.

(** Witness of (C37): converting the placeholder back to a static block. *)
Lemma convert_block_to_static_events_witness :
  exists newBlock,
    createBlock (rb_type stored_reusable) (rb_attributes stored_reusable) (uid newBlock) = Some newBlock /\
    ok_log (exec (leaf editor_reducer) (CONVERT_BLOCK_TO_STATIC "b2") blocks_world)
    = Some (w_log blocks_world ++ [EvDispatch (ReplaceBlocks [uid placeholder] [newBlock])]).
Proof.
  apply (convert_block_to_static_events editor_reducer "b2" placeholder (-1) stored_reusable
           (mkBlockType "core/text" {["content" := mkSource None]} None [] [])); reflexivity.
Defined.

(** Witness of (C38): the placeholder before its reusable block is fetched. *)
Lemma convert_block_to_static_unloaded_witness :
  exec (leaf editor_reducer) (CONVERT_BLOCK_TO_STATIC "b2") unfetched_world
  = Exn "Cannot read property 'type' of undefined" unfetched_world.
Proof. apply (convert_block_to_static_unloaded editor_reducer "b2" placeholder); reflexivity. Defined.
