(* ===== verification/System.v ===== *)
(** The editor as a system: handlers, REST answers and timers interleaved.

    A [sys_step ui] is one of: the UI dispatches an action that the
    policy [ui] allows and that carries no redux-optimist marker (only the
    effects add those); the server answers
    a pending request (a save is answered with a post, [response_fits]) or
    fails it; a pending timer fires.  Each runs to its end under the refx
    runtime with [effects_fuel].

    The invariant is the spec's rule for optimistic post updates: every
    [BEGIN] on the [post-update] transaction is settled by exactly one
    [COMMIT] or [REVERT], or its save request is still pending.  It is
    proved with the weight of a world ([balance]): [+1] per [BEGIN] in the
    log, [-1] per [COMMIT] or [REVERT], [-1] per pending save; every
    handler but [REQUEST_POST_UPDATE] is [neutral] (it dispatches no
    marker and issues no save), and the callbacks of a save [settle] it
    (they dispatch exactly one [COMMIT] or [REVERT], after actions that
    cannot throw). *)

From S2P Require Import Prelude Blocks Actions Program PostSave Trash Merge Autosave Setup MetaBoxes Reusable Effects Store.

Open Scope prog_scope.

Definition is_save_request (r : request) : bool :=
  match r with ApiSavePost _ _ => true | _ => false end.

(** The answers a request can get: a save is answered with the saved post. *)
Definition response_fits (r : request) (resp : response) : Prop :=
  match r, resp with
  | ApiSavePost _ _, RespPost _ => True
  | ApiSavePost _ _, _ => False
  | _, _ => True
  end.

Definition post_update (t : optimist_type) : optimist := mkOptimist t POST_UPDATE_TRANSACTION_ID.

(** [+1] for a [BEGIN], [-1] for a [COMMIT] or [REVERT] of [post-update]. *)
Definition opt_weight (a : action) : Z :=
  match action_optimist a with
  | Some o => if decide (o = post_update BEGIN) then 1
              else if decide (o = post_update COMMIT \/ o = post_update REVERT) then -1 else 0
  | None => 0
  end.

Definition ev_weight (e : event) : Z :=
  match e with EvDispatch a => opt_weight a | _ => 0 end.

Fixpoint log_weight (l : list event) : Z :=
  match l with [] => 0 | e :: l' => ev_weight e + log_weight l' end.

(** The dispatches of a log that carry the marker [t] of [post-update]. *)
Definition count_marker (t : optimist_type) (l : list event) : nat :=
  length (List.filter (fun e => match e with
                                | EvDispatch a => bool_decide (action_optimist a = Some (post_update t))
                                | _ => false
                                end) l).

(** The policy that lets the user interface dispatch any action. *)
Definition ui_any {St : Type} (w : world St) (a : action) : Prop := True.

Definition unmarked (a : action) : Prop := action_optimist a = None.
Definition unsaved (r : request) : Prop := is_save_request r = false.

(** Programs that dispatch no marker and issue no save, down to the
    callbacks and timers they register. *)
Abbreviation neutral := (deep_in unmarked unsaved).

Section System.
Context {St : Type} `{EditorSelectors St} `{BlockRegistry} `{BlockParser}
  (reduce : action -> St -> St).

Definition pending_saves (ps : list (pending St)) : nat :=
  length (List.filter (fun p => is_save_request (pend_req p)) ps).

Definition balance (w : world St) : Z :=
  log_weight (w_log w) - Z.of_nat (pending_saves (w_pending w)).

(** The callback of a save: actions without handler and marker, then one
    [COMMIT] or [REVERT]. *)
Inductive settles : prog St -> Prop :=
| settles_outcome a : opt_weight a = (-1)%Z -> settles (Dispatch a Done)
| settles_before a k : action_optimist a = None -> effects (St := St) a = None ->
    settles k -> settles (Dispatch a k).

Definition pending_ok (p : pending St) : Prop :=
  if is_save_request (pend_req p)
  then (forall resp, response_fits (pend_req p) resp -> settles (pend_ok p resp)) /\
       (forall e, settles (pend_ko p e))
  else (forall resp, neutral (pend_ok p resp)) /\ (forall e, neutral (pend_ko p e)).

(** What every pending callback and timer does. *)
Definition shape (w : world St) : Prop :=
  Forall pending_ok (w_pending w) /\ Forall neutral (w_timers w).

Definition result_world (o : outcome St) : option (world St) :=
  match o with Ok w | Exn _ w => Some w | OutOfFuel => None end.

Definition with_pending (ps : list (pending St)) (w : world St) : world St :=
  mkWorld (w_state w) (w_uuid w) (w_unique w) (w_history w) (w_log w) ps (w_timers w).

Definition with_timers (ts : list (prog St)) (w : world St) : world St :=
  mkWorld (w_state w) (w_uuid w) (w_unique w) (w_history w) (w_log w) (w_pending w) ts.

Abbreviation run p w := (exec (dispatch reduce effects effects_fuel) p w).

(** [ui w a]: the user interface may dispatch [a] in the world [w]. *)
Context (ui : world St -> action -> Prop).

Inductive sys_step : world St -> world St -> Prop :=
| step_action a w w' :
    ui w a -> action_optimist a = None ->
    result_world (dispatch reduce effects effects_fuel a w) = Some w' -> sys_step w w'
| step_respond w pre p post resp w' :
    w_pending w = pre ++ p :: post -> response_fits (pend_req p) resp ->
    result_world (run (pend_ok p resp) (with_pending (pre ++ post) w)) = Some w' -> sys_step w w'
| step_fail w pre p post err w' :
    w_pending w = pre ++ p :: post ->
    result_world (run (pend_ko p err) (with_pending (pre ++ post) w)) = Some w' -> sys_step w w'
| step_timer w pre cb post w' :
    w_timers w = pre ++ cb :: post ->
    result_world (run cb (with_timers (pre ++ post) w)) = Some w' -> sys_step w w'.

(** The editor before any action: nothing logged, pending or scheduled. *)
Definition initial_world (s : St) : world St := mkWorld s 0 0 None [] [] [].
End System.

#[local] Existing Instances store_selectors plain_parser no_types.

(** The concrete store after the UI asks for a save and the server answers
    with the post. *)
Definition saved_world : option (world EditorState) :=
  match result_world (dispatch editor_reducer effects effects_fuel RequestPostUpdate
                        (initial_world empty_state)) with
  | Some w1 =>
      match w_pending w1 with
      | [p] => result_world (exec (dispatch editor_reducer effects effects_fuel)
                               (pend_ok p (RespPost sample_post)) (with_pending [] w1))
      | _ => None
      end
  | None => None
  end.

(** ** Weights *)

Lemma log_weight_app (l1 l2 : list event) : log_weight (l1 ++ l2) = (log_weight l1 + log_weight l2)%Z.
Proof. induction l1 as [|e l1 IH]; simpl; lia. Qed.

Lemma pending_saves_app {St : Type} (p1 p2 : list (pending St)) :
  pending_saves (p1 ++ p2) = pending_saves p1 + pending_saves p2.
Proof. unfold pending_saves. by rewrite List.filter_app, length_app. Qed.

Definition is_marker (t : optimist_type) (e : event) : bool :=
  match e with
  | EvDispatch a => bool_decide (action_optimist a = Some (post_update t))
  | _ => false
  end.

Lemma ev_weight_marker (e : event) :
  ev_weight e = ((if is_marker BEGIN e then 1 else 0) - (if is_marker COMMIT e then 1 else 0)
                 - (if is_marker REVERT e then 1 else 0))%Z.
Proof.
  destruct e as [a| | | |]; try reflexivity. simpl. unfold opt_weight.
  destruct (action_optimist a) as [[t id]|]; [|reflexivity].
  destruct (decide (id = POST_UPDATE_TRANSACTION_ID)) as [->|Hid]; [destruct t; reflexivity|].
  unfold post_update.
  rewrite !decide_False, !bool_decide_false; try reflexivity; intros Hc; try destruct Hc as [Hc|Hc];
    simplify_eq; done.
Qed.

(** The weight of a log counts [BEGIN]s minus [COMMIT]s and [REVERT]s. *)
Lemma log_weight_count (l : list event) :
  log_weight l = (Z.of_nat (count_marker BEGIN l) - Z.of_nat (count_marker COMMIT l)
                  - Z.of_nat (count_marker REVERT l))%Z.
Proof.
  unfold count_marker. induction l as [|e l IH]; [done|]. simpl.
  rewrite IH, ev_weight_marker. unfold is_marker.
  destruct e; simpl; try lia.
  repeat case_bool_decide; simpl; lia.
Qed.

Lemma pending_saves_cons {St : Type} (p : pending St) ps :
  pending_saves (p :: ps) = (if is_save_request (pend_req p) then 1 else 0) + pending_saves ps.
Proof. unfold pending_saves. simpl. by destruct (is_save_request (pend_req p)). Qed.

#[export] Hint Rewrite log_weight_app @pending_saves_app : gb_rw.

Section Balance.
Context {St : Type} `{EditorSelectors St} `{BlockRegistry} `{BlockParser}
  (reduce : action -> St -> St).

Ltac weight := unfold balance; simpl; autorewrite with gb_rw; simpl; lia.

(** A neutral program keeps the shape and the balance, when every
    dispatch of an unmarked action does. *)
Lemma exec_neutral (disp : action -> world St -> outcome St) (p : prog St) (w w' : world St) :
  (forall a w1 w2, action_optimist a = None -> shape w1 -> result_world (disp a w1) = Some w2 ->
     shape w2 /\ balance w2 = balance w1) ->
  neutral p -> shape w -> result_world (exec disp p w) = Some w' ->
  shape w' /\ balance w' = balance w.
Proof.
  intros Hd Hp. revert w.
  induction Hp as [|m|a k Ha Hk IH|k Hk IH|k Hk IH|k Hk IH|r ok ko Hr Hok IHok Hko IHko|cb k Hcb IHcb Hk IH
                   |k Hk IH|id t u k Hk IH|u k Hk IH|b k Hk IH];
    intros w [Hps Hts] Hres; simpl in Hres.
  - injection Hres as <-. done.
  - injection Hres as <-. done.
  - destruct (disp a w) as [w1|m w1|] eqn:E; simpl in Hres.
    + destruct (Hd a w w1 Ha (conj Hps Hts)) as [Hs1 Hb1]; [by rewrite E|].
      destruct (IH w1 Hs1 Hres) as [? ->]. done.
    + injection Hres as <-. apply (Hd a w); [done|done|by rewrite E].
    + done.
  - apply (IH (w_state w) w); done.
  - apply IH in Hres as [? Hb]; [|split; done]. split; [done|]. rewrite Hb. weight.
  - apply IH in Hres as [? Hb]; [|split; done]. split; [done|]. rewrite Hb. weight.
  - injection Hres as <-. split.
    + split; [|done]. simpl. apply Forall_app. split; [done|].
      constructor; [|done]. unfold pending_ok. simpl. rewrite Hr. done.
    + unfold balance, pending_saves. simpl. rewrite log_weight_app, List.filter_app, length_app.
      simpl. rewrite Hr. simpl. lia.
  - apply IH in Hres as [? Hb]; [|split; [done|simpl; apply Forall_app; auto]].
    split; [done|]. rewrite Hb. weight.
  - apply (IH (w_history w) w); done.
  - apply IH in Hres as [? Hb]; [|split; done]. split; [done|]. rewrite Hb. weight.
  - apply IH in Hres as [? Hb]; [|split; done]. split; [done|]. rewrite Hb. weight.
  - apply IH in Hres as [? Hb]; [|split; done]. split; [done|]. rewrite Hb. weight.
Qed.
End Balance.

Section Classes.
Context {St : Type} `{EditorSelectors St} `{BlockRegistry} `{BlockParser}.

Ltac solve_neutral :=
  repeat first
    [ deep_step
    | match goal with
      | |- unmarked _ => reflexivity
      | |- unsaved _ => unfold unsaved, fetch_request;
                        repeat match goal with
                        | |- context [match ?x with _ => _ end] => destruct x
                        end; reflexivity
      end ].

(** Every handler of the table but [REQUEST_POST_UPDATE] is neutral. *)
Lemma effects_class (a : action) (h : prog St) :
  effects a = Some h -> (a = RequestPostUpdate /\ h = REQUEST_POST_UPDATE) \/ neutral h.
Proof.
  destruct a; simpl; intros [= <-]; first [by left | right; solve_neutral].
Qed.
End Classes.

Lemma opt_weight_unmarked (a : action) : action_optimist a = None -> opt_weight a = 0%Z.
Proof. unfold opt_weight. by intros ->. Qed.

Lemma opt_weight_marked (a : action) (t : optimist_type) :
  action_optimist a = Some (post_update t) ->
  opt_weight a = match t with BEGIN => 1%Z | _ => (-1)%Z end.
Proof.
  unfold opt_weight. intros ->. destruct t; repeat case_decide; unfold post_update in *;
    naive_solver.
Qed.

Section Invariant.
Context {St : Type} `{EditorSelectors St} `{BlockRegistry} `{BlockParser}
  (reduce : action -> St -> St) (ui : world St -> action -> Prop).

Abbreviation run p w := (exec (dispatch reduce effects effects_fuel) p w).

(** The save callbacks [REQUEST_POST_UPDATE] registers settle the
    transaction. *)
Lemma request_post_update_pending_ok (s : St) :
  pending_ok (mkPending (ApiSavePost (getCurrentPostType s) (post_to_send s))
    (fun resp => match resp with
                 | RespPost newPost =>
                     ResetPost newPost ;;
                     RequestPostUpdateSuccess (getCurrentPost s) newPost (post_update COMMIT) ;; Done
                 | _ => Done
                 end)
    (fun err => RequestPostUpdateFailure (save_error err) (getCurrentPost s) (getPostEdits s)
                  (post_update REVERT) ;; Done)).
Proof.
  unfold pending_ok. simpl. split.
  - intros [np| | |] []. apply settles_before; [done|done|].
    apply settles_outcome. by apply (opt_weight_marked _ COMMIT).
  - intros e. apply settles_outcome. by apply (opt_weight_marked _ REVERT).
Qed.

(** A dispatch at any fuel moves the balance by the weight of the action
    and keeps the shape. *)
Lemma dispatch_balance (f : nat) (a : action) (w w' : world St) :
  shape w -> result_world (dispatch reduce effects f a w) = Some w' ->
  shape w' /\ balance w' = (balance w + opt_weight a)%Z.
Proof.
  revert a w w'. induction f as [|f IH]; intros a w w' Hs Hres; [done|].
  simpl in Hres.
  assert (Hb1 : balance (log_event (EvDispatch a) (set_state (reduce a (w_state w)) w))
                = (balance w + opt_weight a)%Z).
  { unfold balance. simpl. rewrite log_weight_app. simpl. lia. }
  destruct (effects a) as [h|] eqn:E; [|injection Hres as <-; done].
  destruct (effects_class a h E) as [[-> ->]|Hn].
  - destruct f as [|f]; [done|]. simpl in Hres. injection Hres as <-. split.
    + destruct Hs as [Hps Hts]. split; [|done]. simpl. apply Forall_app. split; [done|].
      constructor; [|done]. apply request_post_update_pending_ok.
    + unfold balance, pending_saves. simpl.
      rewrite !log_weight_app, List.filter_app, length_app. simpl.
      rewrite (opt_weight_marked (UpdatePost _ _) BEGIN) by done.
      rewrite !opt_weight_unmarked by done. lia.
  - eapply exec_neutral in Hres as [Hs' Hb']; [| |exact Hn|exact Hs].
    + split; [done|]. rewrite Hb', Hb1. done.
    + intros b w1 w2 Hb Hs1 Hr. destruct (IH b w1 w2 Hs1 Hr) as [? ->].
      rewrite opt_weight_unmarked by done. split; [done|lia].
Qed.

Lemma exec_settles (p : prog St) (w w' : world St) :
  settles p -> shape w -> result_world (run p w) = Some w' ->
  shape w' /\ balance w' = (balance w - 1)%Z.
Proof.
  intros Hp. revert w. induction Hp as [a Ha|a k Ha He Hk IH]; intros w Hs Hres; cbn [exec] in Hres.
  - assert (Hd : result_world (dispatch reduce effects effects_fuel a w) = Some w').
    { destruct (dispatch reduce effects effects_fuel a w); simpl in *; congruence. }
    destruct (dispatch_balance _ a w w' Hs Hd) as [? Hb]. rewrite Hb, Ha. split; [done|lia].
  - unfold effects_fuel in Hres. rewrite dispatch_no_handler in Hres by exact He. cbn [leaf] in Hres.
    apply IH in Hres as [? Hb]; [|done]. split; [done|]. rewrite Hb.
    unfold balance. simpl. rewrite log_weight_app. simpl. rewrite opt_weight_unmarked by done. lia.
Qed.

Definition Inv (w : world St) : Prop := shape w /\ balance w = 0%Z.

Lemma run_neutral (p : prog St) (w w' : world St) :
  neutral p -> shape w -> result_world (run p w) = Some w' -> shape w' /\ balance w' = balance w.
Proof.
  intros Hp Hs Hres. eapply exec_neutral; [|exact Hp|exact Hs|exact Hres].
  intros a w1 w2 Ha Hs1 Hr. destruct (dispatch_balance _ a w1 w2 Hs1 Hr) as [? ->].
  rewrite opt_weight_unmarked by done. split; [done|lia].
Qed.

Lemma sys_step_inv (w w' : world St) : Inv w -> sys_step reduce ui w w' -> Inv w'.
Proof.
  intros [[Hps Hts] Hb] Hstep.
  destruct Hstep as [a w w' _ Ha Hres|w pre p post resp w' Hw Hfit Hres|w pre p post err w' Hw Hres
                    |w pre cb post w' Hw Hres].
  - destruct (dispatch_balance _ a w w' (conj Hps Hts) Hres) as [? Hb'].
    split; [done|]. rewrite Hb', opt_weight_unmarked by done. lia.
  - rewrite Hw in Hps. apply Forall_app in Hps as [Hpre Hpost]. inversion Hpost as [|? ? Hp Hpost'].
    assert (Hs0 : shape (with_pending (pre ++ post) w)) by (split; [apply Forall_app|]; done).
    unfold balance in Hb. rewrite Hw, pending_saves_app, pending_saves_cons in Hb.
    unfold pending_ok in Hp. destruct (is_save_request (pend_req p)) eqn:Es.
    + try rewrite Es in Hb. destruct Hp as [Hok _]. apply exec_settles in Hres as [? Hb']; [|auto|done].
      split; [done|]. rewrite Hb'. unfold balance. simpl. rewrite pending_saves_app. lia.
    + try rewrite Es in Hb. destruct Hp as [Hok _]. apply run_neutral in Hres as [? Hb']; [|auto|done].
      split; [done|]. rewrite Hb'. unfold balance. simpl. rewrite pending_saves_app. lia.
  - rewrite Hw in Hps. apply Forall_app in Hps as [Hpre Hpost]. inversion Hpost as [|? ? Hp Hpost'].
    assert (Hs0 : shape (with_pending (pre ++ post) w)) by (split; [apply Forall_app|]; done).
    unfold balance in Hb. rewrite Hw, pending_saves_app, pending_saves_cons in Hb.
    unfold pending_ok in Hp. destruct (is_save_request (pend_req p)) eqn:Es.
    + try rewrite Es in Hb. destruct Hp as [_ Hko]. apply exec_settles in Hres as [? Hb']; [|auto|done].
      split; [done|]. rewrite Hb'. unfold balance. simpl. rewrite pending_saves_app. lia.
    + try rewrite Es in Hb. destruct Hp as [_ Hko]. apply run_neutral in Hres as [? Hb']; [|auto|done].
      split; [done|]. rewrite Hb'. unfold balance. simpl. rewrite pending_saves_app. lia.
  - rewrite Hw in Hts. apply Forall_app in Hts as [Hpre Hpost]. inversion Hpost as [|? ? Hc Hpost'].
    apply run_neutral in Hres as [? Hb']; [|done|split; [done|apply Forall_app; done]].
    split; [done|]. rewrite Hb'. done.
Qed.

(** (C1) In every world the editor reaches, whatever the interleaving of
    user actions, server answers, failures and timers, each optimistic
    [BEGIN] on the [post-update] transaction is matched by exactly one
    [COMMIT] or [REVERT], or its save request is still pending. *)
Theorem optimistic_update_settles (s : St) (w : world St) :
  rtc (sys_step reduce ui) (initial_world s) w ->
  count_marker BEGIN (w_log w)
  = count_marker COMMIT (w_log w) + count_marker REVERT (w_log w) + pending_saves (w_pending w).
Proof.
  intros Hr. assert (Inv w) as [_ Hb].
  { assert (Hi : Inv (initial_world s)) by (split; [split; constructor|reflexivity]).
    revert Hi. induction Hr as [w0|w0 w1 w2 Hstep _ IH]; [done|].
    intros Hi. apply IH. by apply (sys_step_inv w0). }
  unfold balance in Hb. rewrite log_weight_count in Hb. lia.
Qed.
End Invariant.

(** Witness of (C1): a save requested and answered; the log holds one
    [BEGIN] and one [COMMIT], and nothing is pending. *)
Lemma optimistic_update_settles_witness :
  exists w, saved_world = Some w /\ count_marker COMMIT (w_log w) = 1 /\
    count_marker BEGIN (w_log w)
    = count_marker COMMIT (w_log w) + count_marker REVERT (w_log w) + pending_saves (w_pending w).
Proof.
  eexists. split; [vm_compute; reflexivity|]. split; [vm_compute; reflexivity|].
  apply (optimistic_update_settles editor_reducer ui_any empty_state).
  eapply rtc_l.
  { eapply (step_action editor_reducer ui_any RequestPostUpdate); [exact I|reflexivity|reflexivity]. }
  eapply rtc_l; [|apply rtc_refl].
  eapply (step_respond editor_reducer ui_any _ [] _ [] (RespPost sample_post)); [reflexivity|exact I|].
  reflexivity.
Defined.
