(* ===== verification/Document.v ===== *)
(** The document under the whole runtime: handlers, the refx middleware
    and the store of [Store] together.  The reusable-block round trip of
    the spec (a block converted to a reusable block and back is restored
    with its type and attributes) is proved by running both conversions
    through [dispatch] with [effects] and [editor_reducer]. *)

From S2P Require Import Prelude Blocks Actions Program PostSave Reusable Effects Store.

(** ** The document operations of the store *)

(** No block of [l] has the uid [p]. *)
Abbreviation fresh_in p l := (Forall (fun b : block => uid b <> p) l).

Lemma block_index_spec (u : string) (l : list block) i :
  block_index u l = Some i ->
  i < length l /\ fresh_in u (take i l).
Proof.
  revert i. induction l as [|b l IH]; intros i; simpl; [done|].
  destruct (String.eqb_spec (uid b) u) as [Hu|Hu].
  - intros [= <-]. split; [lia|]. constructor.
  - destruct (block_index u l) as [j|] eqn:E; simpl; [|done]. intros [= <-].
    destruct (IH j eq_refl) as (Hj & Hf). split; [lia|]. by constructor.
Qed.

(** The block [getBlock] finds has an index. *)
Lemma find_block_index (u : string) (l : list block) b :
  List.find (fun b => String.eqb (uid b) u) l = Some b -> is_Some (block_index u l).
Proof.
  induction l as [|b' l IH]; simpl; [done|].
  destruct (String.eqb (uid b') u); [by eexists|].
  intros Hf. destruct (IH Hf) as [j ->]. by eexists.
Qed.

Lemma block_index_fresh (p : string) (l : list block) :
  fresh_in p l -> block_index p l = None.
Proof.
  induction 1 as [|b l Hb _ IH]; simpl; [done|].
  destruct (String.eqb_spec (uid b) p); [done|]. by rewrite IH.
Qed.

Lemma find_fresh (p : string) (l : list block) :
  fresh_in p l -> List.find (fun b => String.eqb (uid b) p) l = None.
Proof.
  induction 1 as [|b l Hb _ IH]; simpl; [done|].
  destruct (String.eqb_spec (uid b) p); [done|]. done.
Qed.

(** [REPLACE_BLOCKS] keeps the blocks whose uid it does not name. *)
Lemma keep_fresh (p : string) (l : list block) :
  fresh_in p l -> keep_blocks [p] l = l.
Proof.
  intros Hp. apply list_filter_all. eapply Forall_impl; [exact Hp|]. intros b Hb.
  rewrite mem_str_Some. case_bool_decide as Hin; [|done].
  by apply list_elem_of_singleton in Hin.
Qed.

Lemma keep_blocks_fresh p uids (l : list block) : fresh_in p l -> fresh_in p (keep_blocks uids l).
Proof. apply Forall_list_filter. Qed.

#[local] Hint Resolve Forall_take Forall_drop keep_blocks_fresh : gb.

Lemma find_app {A} (f : A -> bool) (l1 l2 : list A) :
  List.find f (l1 ++ l2) = match List.find f l1 with Some x => Some x | None => List.find f l2 end.
Proof. induction l1 as [|x l1 IH]; simpl; [done|]. by destruct (f x). Qed.

(** After [REPLACE_BLOCKS [u] [ph]] on a block that is there, [getBlock]
    finds the placeholder by its fresh uid. *)
Lemma find_replaced (u : string) (ph : block) (l : list block) :
  fresh_in (uid ph) l -> is_Some (block_index u l) ->
  List.find (fun b => String.eqb (uid b) (uid ph)) (replace_blocks [u] [ph] l) = Some ph.
Proof.
  intros Hp [i Hi]. unfold replace_blocks. simpl. rewrite Hi.
  rewrite find_app, find_fresh by auto with gb. simpl. by rewrite String.eqb_refl.
Qed.

Lemma block_index_app_fresh (ph : block) (X Y : list block) :
  fresh_in (uid ph) X -> block_index (uid ph) (X ++ ph :: Y) = Some (length X).
Proof.
  induction 1 as [|b X Hb _ IH]; simpl; [by rewrite String.eqb_refl|].
  destruct (String.eqb_spec (uid b) (uid ph)); [done|]. by rewrite IH.
Qed.

(** Replacing a block by a placeholder with a fresh uid, and then the
    placeholder by [b'], replaces the block by [b'] in one step. *)
Lemma replace_blocks_twice (u : string) (ph b' : block) (l : list block) :
  fresh_in (uid ph) l -> is_Some (block_index u l) ->
  replace_blocks [uid ph] [b'] (replace_blocks [u] [ph] l) = replace_blocks [u] [b'] l.
Proof.
  intros Hp [i Hi]. destruct (block_index_spec u l i Hi) as [Hlen Hbefore].
  unfold replace_blocks at 2 3. simpl. rewrite Hi, (keep_fresh u (take i l) Hbefore).
  set (Y := keep_blocks [u] (drop i l)).
  assert (HY : fresh_in (uid ph) Y) by (apply keep_blocks_fresh, Forall_drop, Hp).
  assert (HX : fresh_in (uid ph) (take i l)) by (apply Forall_take, Hp).
  unfold replace_blocks. simpl. rewrite block_index_app_fresh by done. simpl.
  rewrite take_app_length, drop_app_length, (keep_fresh _ _ HX).
  assert (keep_blocks [uid ph] (ph :: Y) = Y) as ->; [|done].
  unfold keep_blocks. cbn [List.filter]. rewrite mem_str_Some, bool_decide_true by set_solver. cbn [negb].
  apply (keep_fresh _ _ HY).
Qed.

(** ** The reusable-block round trip *)

Section Roundtrip.
Context `{BlockRegistry} `{BlockParser}.
#[local] Existing Instance store_selectors.

Abbreviation step a w := (dispatch editor_reducer effects effects_fuel a w).

Lemma getBlock_uid (s : EditorState) u b : getBlock s u = Some b -> uid b = u.
Proof. simpl. intros Hb. apply List.find_some in Hb as [_ Hu]. by apply String.eqb_eq. Qed.

(** CONVERT_BLOCK_TO_REUSABLE under the runtime: the store gets the new
    reusable block [-uniqueId()] and the block is replaced by a
    placeholder with the next uid. *)
Lemma step_convert_to_reusable (w : world EditorState) u b bt rbt :
  getBlock (w_state w) u = Some b -> getBlockType (name b) = Some bt ->
  getBlockType "core/reusable-block" = Some rbt ->
  exists w1, step (ConvertBlockToReusable u) w = Ok w1 /\
    es_blocks (w_state w1)
    = replace_blocks [u] [mkBlock (uuid_string (w_uuid w)) "core/reusable-block"
                           (create_attributes (bt_attributes rbt)
                              (<["ref" := VNum (- Z.succ (w_unique w))]> ∅))]
        (es_blocks (w_state w)) /\
    es_reusable (w_state w1)
    = <[(- Z.succ (w_unique w))%Z := createReusableBlock (name b) (attributes b) (Z.succ (w_unique w))]>
        (es_reusable (w_state w)).
Proof.
  intros Hb Hbt Hrbt. pose proof (getBlock_uid _ _ _ Hb) as Hu. simpl in Hb.
  eexists. split.
  - cbn -[lookup insert]. rewrite Hb. cbn -[lookup insert]. unfold createBlock. rewrite Hrbt.
    cbn -[lookup insert]. rewrite lookup_insert_eq. cbn -[lookup insert].
    unfold createBlock. rewrite Hbt. reflexivity.
  - simpl. by rewrite Hu.
Qed.

(** CONVERT_BLOCK_TO_STATIC under the runtime: the placeholder is
    replaced by a fresh block of the referenced reusable block. *)
Lemma step_convert_to_static (w : world EditorState) p ph id rb bt :
  getBlock (w_state w) p = Some ph -> attributes ph !! "ref" = Some (VNum id) ->
  es_reusable (w_state w) !! id = Some rb -> getBlockType (rb_type rb) = Some bt ->
  exists w2, step (ConvertBlockToStatic p) w = Ok w2 /\
    es_blocks (w_state w2)
    = replace_blocks [uid ph]
        [mkBlock (uuid_string (w_uuid w)) (rb_type rb) (create_attributes (bt_attributes bt) (rb_attributes rb))]
        (es_blocks (w_state w)).
Proof.
  intros Hb Href Hrb Hbt. simpl in Hb. eexists. split.
  - cbn -[lookup insert]. rewrite Hb. cbn -[lookup insert]. rewrite Href. cbn -[lookup insert].
    rewrite Hrb. cbn -[lookup insert]. unfold createBlock. rewrite Hbt. reflexivity.
  - reflexivity.
Qed.

(** Both conversions run through the runtime, when the placeholder's uid
    is fresh. *)
Lemma convert_roundtrip (w : world EditorState) (u : string) (b : block) (bt rbt : block_type) src :
  getBlock (w_state w) u = Some b ->
  getBlockType (name b) = Some bt -> create_attributes (bt_attributes bt) (attributes b) = attributes b ->
  getBlockType "core/reusable-block" = Some rbt -> bt_attributes rbt !! "ref" = Some src ->
  fresh_in (uuid_string (w_uuid w)) (es_blocks (w_state w)) ->
  exists w1 w2 b',
    step (ConvertBlockToReusable u) w = Ok w1 /\
    step (ConvertBlockToStatic (uuid_string (w_uuid w))) w1 = Ok w2 /\
    name b' = name b /\ attributes b' = attributes b /\
    es_blocks (w_state w2) = replace_blocks [u] [b'] (es_blocks (w_state w)).
Proof.
  intros Hb Hbt Hnorm Hrbt Href Hfresh.
  destruct (step_convert_to_reusable w u b bt rbt Hb Hbt Hrbt) as (w1 & Hw1 & Hbl1 & Hr1).
  set (ph := mkBlock (uuid_string (w_uuid w)) "core/reusable-block"
               (create_attributes (bt_attributes rbt) (<["ref" := VNum (- Z.succ (w_unique w))]> ∅))).
  assert (Hidx : is_Some (block_index u (es_blocks (w_state w)))) by (eapply find_block_index, Hb).
  assert (Hph : getBlock (w_state w1) (uid ph) = Some ph).
  { simpl. rewrite Hbl1. exact (find_replaced u ph _ Hfresh Hidx). }
  assert (Hphref : attributes ph !! "ref" = Some (VNum (- Z.succ (w_unique w)))).
  { simpl. rewrite lookup_create_attributes, Href. simpl. by rewrite lookup_insert_eq. }
  assert (Hrb : es_reusable (w_state w1) !! (- Z.succ (w_unique w))%Z
                = Some (createReusableBlock (name b) (attributes b) (Z.succ (w_unique w)))).
  { by rewrite Hr1, lookup_insert_eq. }
  destruct (step_convert_to_static w1 _ _ _ _ bt Hph Hphref Hrb Hbt) as (w2 & Hw2 & Hbl2).
  exists w1, w2, (mkBlock (uuid_string (w_uuid w1)) (name b) (create_attributes (bt_attributes bt) (attributes b))).
  split; [done|]. split; [exact Hw2|].
  split; [reflexivity|]. split; [exact Hnorm|].
  rewrite Hbl2, Hbl1. by apply replace_blocks_twice.
Qed.

(** (C4) The spec's round trip: converting a block made by [createBlock]
    (its attributes are those of its schema) to a reusable block, and
    then the placeholder back to a static block, both through the refx
    runtime with the store, replaces the block by one with the same type
    and the same attributes, at the same place in the document, provided
    the placeholder's uid is fresh and the placeholder type keeps [ref]. *)
Theorem reusable_roundtrip (w : world EditorState) (u : string) (b : block) (bt rbt : block_type) src :
  getBlock (w_state w) u = Some b ->
  getBlockType (name b) = Some bt -> create_attributes (bt_attributes bt) (attributes b) = attributes b ->
  getBlockType "core/reusable-block" = Some rbt -> bt_attributes rbt !! "ref" = Some src ->
  fresh_in (uuid_string (w_uuid w)) (es_blocks (w_state w)) ->
  exists w1 w2 b',
    step (ConvertBlockToReusable u) w = Ok w1 /\
    step (ConvertBlockToStatic (uuid_string (w_uuid w))) w1 = Ok w2 /\
    name b' = name b /\ attributes b' = attributes b /\
    es_blocks (w_state w2) = replace_blocks [u] [b'] (es_blocks (w_state w)).
Proof. exact (convert_roundtrip w u b bt rbt src). Qed.
End Roundtrip.

(** ** Witnesses *)

#[local] Existing Instances fixture_registry plain_parser store_selectors.

(** Witness of (C4): the text block ["b1"] of [blocks_world] and back. *)
Lemma reusable_roundtrip_witness :
  exists w1 w2 b',
    dispatch editor_reducer effects effects_fuel (ConvertBlockToReusable "b1") blocks_world = Ok w1 /\
    dispatch editor_reducer effects effects_fuel (ConvertBlockToStatic (uuid_string 0)) w1 = Ok w2 /\
    name b' = name text_block /\ attributes b' = attributes text_block /\
    es_blocks (w_state w2) = replace_blocks ["b1"] [b'] (es_blocks (w_state blocks_world)).
Proof.
  exact (reusable_roundtrip blocks_world "b1" text_block
           (mkBlockType "core/text" {["content" := mkSource None]} None [] [])
           (mkBlockType "core/reusable-block" {["ref" := mkSource None]} None [] [])
           (mkSource None) eq_refl eq_refl eq_refl eq_refl eq_refl
           ltac:(repeat constructor; vm_compute; discriminate)).
Defined.
