(* ===== verification/Uids.v ===== *)
(** The uniqueness of block uids, the spec's invariant on the document,
    over every run of the editor with the concrete store of [Store].

    Blocks enter the document only through REPLACE_BLOCKS and RESET_BLOCKS,
    which MERGE_BLOCKS, SETUP_EDITOR, CONVERT_BLOCK_TO_STATIC and
    CONVERT_BLOCK_TO_REUSABLE dispatch.  Their new blocks get their uids from
    [uuid()] or keep the uid of a block they replace.  The invariant
    [doc_ok] says that the uids are distinct and that none of them is one
    [uuid()] is still to hand out.  It also says that every pending callback
    and timer [keeps_doc]: it changes no block.

    Two predicates on programs carry the proof:
    - [keeps_doc] (an instance of [deep_in]): the handler of every action
      that writes no block, and every callback, never dispatches one that
      does;
    - [safe B F]: a writing handler dispatches REPLACE_BLOCKS and RESET_BLOCKS
      only with distinct uids.  Each new uid is one of the fresh uids [F]
      that [uuid()] gave it, or a uid of [B] that the action replaces.  [B]
      holds the uids of blocks of the document that the handler was given.

    The user interface may dispatch any action, with two limits
    ([ui_ok]): MERGE_BLOCKS names a block of the document, and it writes
    blocks itself only to remove them. *)

From S2P Require Import Prelude Blocks Actions Program PostSave Trash Merge Autosave Setup MetaBoxes Reusable Effects Store System Document.

(** The actions that change the block list, or whose handler does. *)
Definition writes_blocks (a : action) : bool :=
  match a with
  | ResetBlocks _ | ReplaceBlocks _ _ | MergeBlocks _ _ | SetupEditor _ _
  | ConvertBlockToStatic _ | ConvertBlockToReusable _ => true
  | _ => false
  end.

Definition no_block_write (a : action) : Prop := writes_blocks a = false.
Definition any_request (r : request) : Prop := True.

(** Programs that change no block, down to the callbacks and timers they
    register. *)
Abbreviation keeps_doc := (deep_in no_block_write any_request).

(** Prove that a handler keeps the document. *)
Ltac solve_keeps :=
  repeat first
    [ deep_step
    | match goal with
      | |- no_block_write _ => reflexivity
      | |- writes_blocks _ = false => reflexivity
      | |- any_request _ => exact I
      | |- True => exact I
      end ].

(** [u] is no uid that [uuid()] hands out from the counter [n] on. *)
Definition bounded (n : N) (u : string) : Prop := forall i, u = uuid_string i -> (i < n)%N.

(** The blocks have distinct uids, none of them still to be handed out. *)
Definition uids_ok (n : N) (l : list block) : Prop :=
  NoDup (map uid l) /\ Forall (fun b => bounded n (uid b)) l.

(** ** Uids and the counter *)

Lemma bounded_mono n m u : (n <= m)%N -> bounded n u -> bounded m u.
Proof. intros Hnm Hb i Hi. specialize (Hb i Hi). lia. Qed.

Lemma bounded_uuid n u : bounded n u -> u <> uuid_string n.
Proof. intros Hb ->. specialize (Hb n eq_refl). lia. Qed.

Lemma bounded_next n : bounded (N.succ n) (uuid_string n).
Proof. intros i Hi%uuid_string_inj. lia. Qed.

Lemma Forall_bounded_mono n m (l : list string) :
  (n <= m)%N -> Forall (bounded n) l -> Forall (bounded m) l.
Proof. intros Hnm Hl. eapply Forall_impl; [exact Hl|]. eauto using bounded_mono. Qed.

Lemma uids_ok_mono n m l : (n <= m)%N -> uids_ok n l -> uids_ok m l.
Proof.
  intros Hnm [Hnd Hb]. split; [done|]. eapply Forall_impl; [exact Hb|]. eauto using bounded_mono.
Qed.

(** ** The block list under REPLACE_BLOCKS *)

Lemma keep_blocks_app uids (l1 l2 : list block) :
  keep_blocks uids (l1 ++ l2) = keep_blocks uids l1 ++ keep_blocks uids l2.
Proof. apply List.filter_app. Qed.

Lemma elem_of_keep_blocks uids (l : list block) b :
  b ∈ keep_blocks uids l <-> uid b ∉ uids /\ b ∈ l.
Proof.
  unfold keep_blocks. rewrite elem_of_List_filter, mem_str_Some.
  case_bool_decide; naive_solver.
Qed.

(** REPLACE_BLOCKS leaves the blocks it keeps and the new ones, in
    another order. *)
Lemma replace_blocks_perm uids bs (l : list block) :
  replace_blocks uids bs l ≡ₚ keep_blocks uids l ++ bs.
Proof.
  unfold replace_blocks. destruct (head uids ≫= _) as [i|]; [|done].
  rewrite <- (take_drop i l) at 3. rewrite keep_blocks_app, <- app_assoc.
  apply Permutation_app_head, Permutation_app_comm.
Qed.

(** The uids stay distinct when each new block is distinct from the
    others and takes a uid the action removes or one not in the list. *)
Lemma uids_ok_replace n uids bs (l : list block) :
  uids_ok n l -> NoDup (map uid bs) -> Forall (fun b => bounded n (uid b)) bs ->
  Forall (fun b => uid b ∈ uids \/ uid b ∉ map uid l) bs ->
  uids_ok n (replace_blocks uids bs l).
Proof.
  intros [Hnd Hb] Hbs Hbb Hnew. unfold uids_ok. rewrite (replace_blocks_perm uids bs l), map_app.
  split.
  - apply NoDup_app. split; [by apply NoDup_map_filter|]. split; [|done].
    intros x (b & -> & [Hk Hin]%elem_of_keep_blocks)%list_elem_of_fmap
      (b' & Hu & Hb')%list_elem_of_fmap.
    rewrite Forall_forall in Hnew. destruct (Hnew b' Hb') as [Hu'|Hu']; rewrite <- Hu in Hu'; [done|].
    apply Hu', list_elem_of_fmap. by exists b.
  - apply Forall_app. split; [by apply Forall_list_filter|done].
Qed.

(** A uid that is not in the list is not in it after REPLACE_BLOCKS
    unless a new block takes it. *)
Lemma not_in_replace uids bs (l : list block) u :
  u ∉ map uid l -> u ∉ map uid bs -> u ∉ map uid (replace_blocks uids bs l).
Proof.
  intros Hl Hbs. rewrite (replace_blocks_perm uids bs l), map_app, elem_of_app.
  intros [(b & -> & [_ Hin]%elem_of_keep_blocks)%list_elem_of_fmap|Hin]; [|done].
  apply Hl, list_elem_of_fmap. by exists b.
Qed.

Section KeepsDoc.
Context `{BlockRegistry} `{BlockParser}.
#[local] Existing Instance store_selectors.

(** Every pending callback and every timer changes no block. *)
Definition callbacks_ok (w : world EditorState) : Prop :=
  Forall (fun p : pending EditorState =>
            (forall r, keeps_doc (pend_ok p r)) /\ (forall e, keeps_doc (pend_ko p e))) (w_pending w) /\
  Forall keeps_doc (w_timers w).

Definition doc_ok (w : world EditorState) : Prop :=
  uids_ok (w_uuid w) (es_blocks (w_state w)) /\ callbacks_ok w.

(** [w'] has the blocks of [w] and a counter no smaller. *)
Definition kept (w w' : world EditorState) : Prop :=
  es_blocks (w_state w') = es_blocks (w_state w) /\ (w_uuid w <= w_uuid w')%N.

#[local] Instance kept_refl : Reflexive kept.
Proof. intros w. split; [done|lia]. Qed.

#[local] Instance kept_trans : Transitive kept.
Proof. intros w1 w2 w3 [H12 ?] [H23 ?]. split; [congruence|lia]. Qed.

Lemma doc_ok_kept w w' : doc_ok w -> kept w w' -> callbacks_ok w' -> doc_ok w'.
Proof. intros [Hu _] [Hb Hn] Hc. split; [|done]. rewrite Hb. by eapply uids_ok_mono. Qed.

(** A program that keeps the document keeps it under every dispatcher
    that does so for the actions it dispatches. *)
Lemma exec_keeps_doc (disp : action -> world EditorState -> outcome EditorState) p w w' :
  (forall a w1 w2, no_block_write a -> callbacks_ok w1 -> result_world (disp a w1) = Some w2 ->
     callbacks_ok w2 /\ kept w1 w2) ->
  keeps_doc p -> callbacks_ok w -> result_world (exec disp p w) = Some w' ->
  callbacks_ok w' /\ kept w w'.
Proof.
  intros Hd Hp. revert w.
  induction Hp as [|m|a k Ha Hk IH|k Hk IH|k Hk IH|k Hk IH|r ok ko _ Hok IHok Hko IHko
                   |cb k Hcb IHcb Hk IH|k Hk IH|id t u k Hk IH|u k Hk IH|b k Hk IH];
    intros w [Hps Hts] Hres; simpl in Hres.
  - injection Hres as <-. done.
  - injection Hres as <-. done.
  - destruct (disp a w) as [w1|m w1|] eqn:E; simpl in Hres; [|injection Hres as <-|done].
    + destruct (Hd a w w1 Ha (conj Hps Hts)) as [Hs1 Hk1]; [by rewrite E|].
      destruct (IH w1 Hs1 Hres) as [? Hk2]. split; [done|by transitivity w1].
    + apply (Hd a w); [done|done|by rewrite E].
  - by apply (IH (w_state w) w).
  - apply IH in Hres as [? Hk']; [|done]. split; [done|]. etransitivity; [|exact Hk']. split; simpl; [done|lia].
  - apply IH in Hres as [? Hk']; [|done]. split; [done|]. etransitivity; [|exact Hk']. done.
  - injection Hres as <-. split; [|done]. split; [|done]. simpl. apply Forall_app. auto.
  - apply IH in Hres as [? Hk']; [|split; [done|simpl; apply Forall_app; auto]]. done.
  - by apply (IH (w_history w) w).
  - apply IH in Hres as [? Hk']; done.
  - apply IH in Hres as [? Hk']; done.
  - apply IH in Hres as [? Hk']; done.
Qed.

Lemma reducer_keeps_blocks a s : no_block_write a -> es_blocks (editor_reducer a s) = es_blocks s.
Proof. unfold no_block_write. by destruct a. Qed.

(** The handler of an action that writes no block keeps the document. *)
Lemma effects_keeps_doc a h : no_block_write a -> effects a = Some h -> keeps_doc h.
Proof. unfold no_block_write. destruct a; simpl; intros Hw [= <-]; try discriminate; solve_keeps. Qed.

Lemma dispatch_keeps_doc f a w w' :
  no_block_write a -> callbacks_ok w ->
  result_world (dispatch editor_reducer effects f a w) = Some w' -> callbacks_ok w' /\ kept w w'.
Proof.
  revert a w w'. induction f as [|f IH]; intros a w w' Ha Hc Hres; simpl in Hres; [done|].
  assert (Hk1 : kept w (log_event (EvDispatch a) (set_state (editor_reducer a (w_state w)) w))).
  { split; simpl; [by apply reducer_keeps_blocks|lia]. }
  destruct (effects a) as [h|] eqn:E; [|injection Hres as <-; done].
  eapply exec_keeps_doc in Hres as [? Hk2]; [| |by eapply effects_keeps_doc|exact Hc].
  - split; [done|by etransitivity].
  - intros; eapply IH; eauto.
Qed.
End KeepsDoc.

(** ** Writing handlers *)

(** The uids a dispatch puts into the document. *)
Definition inserted (a : action) : list string :=
  match a with ResetBlocks bs | ReplaceBlocks _ bs => map uid bs | _ => [] end.

(** What a dispatch inside a writing handler may be, given the fresh uids
    [F] it holds and the uids [B] of the document blocks it was given: a
    write whose new uids are distinct and each fresh or replaced, or an
    action that writes no block. *)
Definition act_safe (B F : list string) (a : action) : Prop :=
  match a with
  | ResetBlocks bs => NoDup (map uid bs) /\ Forall (fun b => uid b ∈ F) bs
  | ReplaceBlocks uids bs =>
      NoDup (map uid bs) /\ Forall (fun b => uid b ∈ F \/ uid b ∈ uids /\ uid b ∈ B) bs
  | _ => no_block_write a
  end.

Inductive safe (B : list string) : list string -> prog EditorState -> Prop :=
| sf_done F : safe B F Done
| sf_throw F m : safe B F (Throw m)
| sf_dispatch F a k : act_safe B F a -> safe B (list_difference F (inserted a)) k ->
    safe B F (Dispatch a k)
| sf_get F k : (forall s, safe B F (k s)) -> safe B F (GetState k)
| sf_uuid F k : (forall u, u ∉ B -> u ∉ F -> safe B (u :: F) (k u)) -> safe B F (Uuid k)
| sf_unique F k : (forall n, safe B F (k n)) -> safe B F (UniqueId k)
| sf_request F r ok ko : (forall resp, keeps_doc (ok resp)) -> (forall e, keeps_doc (ko e)) ->
    safe B F (Request r ok ko)
| sf_timeout F cb k : keeps_doc cb -> safe B F k -> safe B F (SetTimeout cb k)
| sf_history F k : (forall o, safe B F (k o)) -> safe B F (HistoryStateId k)
| sf_replace F id t u k : safe B F k -> safe B F (ReplaceHistory id t u k)
| sf_location F u k : safe B F k -> safe B F (SetLocation u k)
| sf_hold F b k : safe B F k -> safe B F (HoldReady b k).

Lemma list_difference_nil_r (l : list string) : list_difference l [] = l.
Proof. induction l as [|x l IH]; [done|]. cbn [list_difference]. case_decide; [set_solver|by f_equal]. Qed.

Lemma act_safe_keep B F a : no_block_write a -> act_safe B F a.
Proof. unfold no_block_write. by destruct a. Qed.

Lemma inserted_keep a : no_block_write a -> inserted a = [].
Proof. unfold no_block_write. by destruct a. Qed.

(** A dispatch that writes no block is safe whatever the handler holds. *)
Lemma safe_dispatch_keep B F a k : no_block_write a -> safe B F k -> safe B F (Dispatch a k).
Proof.
  intros Ha Hk. constructor; [by apply act_safe_keep|]. by rewrite inserted_keep, list_difference_nil_r.
Qed.

Lemma safe_keeps B F p : keeps_doc p -> safe B F p.
Proof.
  intros Hp. revert F. induction Hp; intros F; first [apply safe_dispatch_keep; auto | constructor; auto].
Qed.

Lemma Forall_uid_in (bs : list block) : Forall (fun b => uid b ∈ map uid bs) bs.
Proof. apply Forall_forall. intros b Hb. apply list_elem_of_fmap. by exists b. Qed.

Section SafeBlocks.
Context `{BlockRegistry}.

Lemma createBlock_uid nm given u b : createBlock nm given u = Some b -> uid b = u.
Proof. unfold createBlock. destruct (getBlockType nm); [by intros [= <-]|done]. Qed.

Lemma safe_create_block B F nm given k :
  (forall b, uid b ∉ B -> uid b ∉ F -> safe B (uid b :: F) (k b)) -> safe B F (create_block nm given k).
Proof.
  intros Hk. constructor. intros u HB HF. destruct (createBlock nm given u) as [b|] eqn:E; [|constructor].
  apply createBlock_uid in E as <-. auto.
Qed.

(** A continuation that takes blocks with distinct uids, each fresh. *)
Definition fresh_cont (B F : list string) (k : list block -> prog EditorState) : Prop :=
  forall bs, NoDup (map uid bs) -> Forall (fun u => u ∉ B /\ u ∉ F) (map uid bs) ->
  safe B (map uid bs ++ F) (k bs).

Lemma safe_mono B F F' p : safe B F p -> F ⊆ F' -> safe B F' p.
Proof.
  intros Hp. revert F'. induction Hp as [F|F m|F a k Ha Hk IH|F k Hk IH|F k Hk IH|F k Hk IH|F r ok ko Hok Hko
                                         |F cb k Hcb Hk IH|F k Hk IH|F id t u k Hk IH|F u k Hk IH|F b k Hk IH];
    intros F' HF; try (constructor; auto; fail).
  - constructor.
    + destruct a; simpl in *; try done; destruct Ha as [? Hall]; (split; [done|]);
        (eapply Forall_impl; [exact Hall|]); set_solver.
    + apply IH. intros x. rewrite !list_elem_of_difference. set_solver.
  - constructor. intros u HB HF'. apply IH; set_solver.
Qed.

(** Drawing one more fresh block for the continuation. *)
Lemma fresh_cont_cons B F k b :
  uid b ∉ B -> uid b ∉ F -> fresh_cont B F k -> fresh_cont B (uid b :: F) (fun bs => k (b :: bs)).
Proof.
  intros HB HF Hk bs Hnd Hfr. eapply safe_mono; [apply (Hk (b :: bs))|].
  - simpl. constructor; [|done]. intros Hin. rewrite Forall_forall in Hfr. set_solver.
  - constructor; [done|]. eapply Forall_impl; [exact Hfr|]. set_solver.
  - simpl. set_solver.
Qed.

Lemma safe_create_blocks B F calls k : fresh_cont B F k -> safe B F (create_blocks calls k).
Proof.
  revert F k. induction calls as [|[nm given] calls IH]; intros F k Hk; simpl; [apply (Hk []); constructor|].
  apply safe_create_block. intros b HB HF. by apply IH, fresh_cont_cons.
Qed.

Lemma safe_with_uids B F parsed k : fresh_cont B F k -> safe B F (with_uids parsed k).
Proof.
  revert F k. induction parsed as [|[nm given] parsed IH]; intros F k Hk; simpl; [apply (Hk []); constructor|].
  constructor. intros u HB HF. apply IH, (fresh_cont_cons _ _ _ (mkBlock u nm given)); done.
Qed.

Lemma safe_template_blocks B F tpl k : fresh_cont B F k -> safe B F (template_blocks tpl k).
Proof.
  revert F k. induction tpl as [|[nm given] tpl IH]; intros F k Hk; simpl; [apply (Hk []); constructor|].
  apply safe_create_block. intros b HB HF.
  apply IH, (fresh_cont_cons _ _ _ (mkBlock (uid b) (name b) (attributes b <+ given))); done.
Qed.
End SafeBlocks.

Section SafeRun.
Context `{BlockRegistry} `{BlockParser}.
#[local] Existing Instance store_selectors.

(** The invariant while a writing handler runs: the document is as
    [doc_ok] says, the given and the fresh uids are handed out already,
    and no block has a fresh one. *)
Definition fresh_ok (B F : list string) (w : world EditorState) : Prop :=
  doc_ok w /\ Forall (bounded (w_uuid w)) (B ++ F) /\
  Forall (fun u => u ∉ map uid (es_blocks (w_state w))) F.

Lemma fresh_ok_kept B F w w' : fresh_ok B F w -> kept w w' -> callbacks_ok w' -> fresh_ok B F w'.
Proof.
  intros (Hd & Hb & Hf) Hk Hc. split; [by eapply doc_ok_kept|]. destruct Hk as [Hbl Hn]. rewrite Hbl.
  split; [by eapply Forall_bounded_mono|done].
Qed.

(** One dispatch of an allowed action keeps the invariant and uses up
    the fresh uids it inserts. *)
Lemma dispatch_safe f a B F w w' :
  act_safe B F a -> fresh_ok B F w ->
  result_world (dispatch editor_reducer effects f a w) = Some w' ->
  fresh_ok B (list_difference F (inserted a)) w'.
Proof.
  intros Ha Hw Hres. destruct (writes_blocks a) eqn:Ew.
  2:{ pose proof Hw as ((_ & Hc) & _). destruct (dispatch_keeps_doc f a w w' Ew Hc Hres) as [Hc' Hk].
      rewrite inserted_keep, list_difference_nil_r by done. by eapply fresh_ok_kept. }
  destruct f as [|f]; [done|]. destruct Hw as ((Hu & Hc) & Hb & Hf).
  apply Forall_app in Hb as [HbB HbF]. rewrite Forall_forall in HbB, HbF, Hf.
  destruct a; unfold act_safe, no_block_write in Ha; cbn [writes_blocks] in Ew, Ha;
    try discriminate; simpl in Hres; injection Hres as <-; destruct Ha as [Hnd Hin].
  - split; [split; [|exact Hc]|split]; simpl.
    + apply uids_ok_replace; [done|done|..]; (eapply Forall_impl; [exact Hin|]); intros b' [?|[? ?]]; auto.
    + apply Forall_app. split; [by apply Forall_forall|apply Forall_list_difference, Forall_forall; auto].
    + apply Forall_forall. intros x [HxF Hx]%list_elem_of_difference. by apply not_in_replace; [apply Hf|].
  - split; [split; [split|]|split]; simpl.
    + exact Hnd.
    + eapply Forall_impl; [exact Hin|]. auto.
    + exact Hc.
    + apply Forall_app. split; [by apply Forall_forall|apply Forall_list_difference, Forall_forall; auto].
    + apply Forall_forall. intros x [_ Hx]%list_elem_of_difference. done.
Qed.

(** [uuid()] hands a writing handler a uid that is neither given nor
    fresh yet, and the invariant holds with it among the fresh ones. *)
Lemma fresh_ok_uuid B F w :
  fresh_ok B F w ->
  uuid_string (w_uuid w) ∉ B /\ uuid_string (w_uuid w) ∉ F /\
  fresh_ok B (uuid_string (w_uuid w) :: F)
    (mkWorld (w_state w) (N.succ (w_uuid w)) (w_unique w) (w_history w) (w_log w)
       (w_pending w) (w_timers w)).
Proof.
  intros ((Hu & Hc) & Hb & Hf).
  assert (Hn : forall u, u ∈ B ++ F -> u <> uuid_string (w_uuid w)).
  { intros u Hin. apply bounded_uuid. by eapply Forall_forall in Hb. }
  split; [intros Hin; by apply (Hn (uuid_string (w_uuid w))); [set_solver|]|].
  split; [intros Hin; by apply (Hn (uuid_string (w_uuid w))); [set_solver|]|].
  split; [split; [eapply uids_ok_mono; [|exact Hu]; simpl; lia|exact Hc]|]. split; simpl.
  - apply Forall_app in Hb as [HbB HbF]. apply Forall_app. split; [eapply Forall_bounded_mono; [|done]; lia|].
    constructor; [apply bounded_next|eapply Forall_bounded_mono; [|done]; lia].
  - constructor; [|done]. intros (b & Hub & Hin)%list_elem_of_fmap. destruct Hu as [_ Hbd].
    eapply Forall_forall in Hbd; [|exact Hin]. by apply (bounded_uuid _ _ Hbd).
Qed.

(** A safe program keeps the document's uids distinct and handed out,
    whatever the answers of its primitives. *)
Lemma exec_safe f B F p w w' :
  safe B F p -> fresh_ok B F w ->
  result_world (exec (dispatch editor_reducer effects f) p w) = Some w' -> doc_ok w'.
Proof.
  intros Hp. revert w.
  induction Hp as [F|F m|F a k Ha Hk IH|F k Hk IH|F k Hk IH|F k Hk IH|F r ok ko Hok Hko
                  |F cb k Hcb Hk IH|F k Hk IH|F id t u k Hk IH|F u k Hk IH|F b k Hk IH];
    intros w Hw Hres; simpl in Hres.
  - injection Hres as <-. apply Hw.
  - injection Hres as <-. apply Hw.
  - destruct (dispatch editor_reducer effects f a w) as [w1|m w1|] eqn:E; simpl in Hres;
      [|injection Hres as <-|done].
    + apply (IH w1); [|done]. apply (dispatch_safe f a B F w w1); [done|done|by rewrite E].
    + refine (proj1 (dispatch_safe f a B F w w1 Ha Hw _)). by rewrite E.
  - by apply (IH (w_state w) w).
  - destruct (fresh_ok_uuid B F w Hw) as (HB & HF & Hw'). by apply (IH _ HB HF _ Hw').
  - eapply IH; [|exact Hres]. exact Hw.
  - injection Hres as <-. destruct Hw as ((Hu & Hps & Hts) & _).
    split; [done|]. split; [|done]. simpl. apply Forall_app. split; [done|]. by constructor.
  - apply IH in Hres; [done|]. destruct Hw as ((Hu & Hps & Hts) & Hb & Hf).
    split; [|done]. split; [done|]. split; [done|]. simpl. apply Forall_app. auto.
  - by apply (IH (w_history w) w).
  - eapply IH; [|exact Hres]. exact Hw.
  - eapply IH; [|exact Hres]. exact Hw.
  - eapply IH; [|exact Hres]. exact Hw.
Qed.
End SafeRun.

(** ** The writing handlers are safe *)

Section Handlers.
Context `{BlockRegistry} `{BlockParser}.
#[local] Existing Instance store_selectors.

(** A write of one block with a fresh uid. *)
Lemma act_safe_one B F uids b : uid b ∈ F -> act_safe B F (ReplaceBlocks uids [b]).
Proof. intros Hb. split; [apply NoDup_singleton|]. constructor; [by left|constructor]. Qed.

(** MERGE_BLOCKS replaces the two blocks by the merged one, which keeps
    the uid of the first, followed by the fresh blocks of the conversion. *)
Lemma merge_blocks_safe (blockA blockB : block) : safe [uid blockA] [] (MERGE_BLOCKS blockA blockB).
Proof.
  unfold MERGE_BLOCKS. destruct (getBlockType (name blockA)) as [bt|]; [|constructor].
  destruct (bt_merge bt) as [merge|]; [|apply safe_keeps; solve_keeps].
  unfold blocks_with_the_same_type. destruct (String.eqb _ _).
  - apply safe_dispatch_keep; [reflexivity|]. constructor; [|constructor].
    split; [apply NoDup_singleton|]. constructor; [right; simpl; set_solver|constructor].
  - destruct (switchToBlockType blockB (name blockA)) as [|msg|calls]; try constructor.
    apply safe_create_blocks. intros [|first rest] Hnd Hfr; [constructor|].
    apply safe_dispatch_keep; [reflexivity|]. constructor; [|constructor]. simpl in Hnd, Hfr.
    apply NoDup_cons in Hnd as [_ Hnd]. apply Forall_cons in Hfr as [_ Hfr]. split; simpl.
    + constructor; [|done]. intros Hin. eapply Forall_forall in Hfr; [|exact Hin]. set_solver.
    + constructor; [right; set_solver|]. eapply Forall_impl; [apply Forall_uid_in|]. set_solver.
Qed.

Lemma convert_block_to_static_safe u : safe [] [] (CONVERT_BLOCK_TO_STATIC u).
Proof.
  unfold CONVERT_BLOCK_TO_STATIC. constructor. intros s.
  destruct (getBlock s u) as [oldBlock|]; [|constructor]. constructor. intros s'.
  destruct (_ ≫= _) as [rb|]; [|constructor]. apply safe_create_block. intros nb _ _.
  constructor; [apply act_safe_one; set_solver|constructor].
Qed.

Lemma convert_block_to_reusable_safe u : safe [] [] (CONVERT_BLOCK_TO_REUSABLE u).
Proof.
  unfold CONVERT_BLOCK_TO_REUSABLE. constructor. intros s.
  destruct (getBlock s u) as [oldBlock|]; [|constructor]. constructor. intros n.
  apply safe_create_block. intros nb _ _.
  do 2 (apply safe_dispatch_keep; [reflexivity|]).
  constructor; [apply act_safe_one; set_solver|constructor].
Qed.

(** SETUP_EDITOR resets the document to blocks with fresh uids, then
    dispatches actions that write no block. *)
Lemma setup_reset_safe p : fresh_cont [] [] (fun blocks => dispatch_all (ResetBlocks blocks :: setup_post_actions p) Done).
Proof.
  intros bs Hnd _. cbn [dispatch_all]. constructor.
  - split; [done|]. eapply Forall_impl; [apply Forall_uid_in|]. set_solver.
  - apply safe_keeps. solve_keeps.
Qed.

Lemma setup_editor_safe p settings : safe [] [] (SETUP_EDITOR p settings).
Proof.
  unfold SETUP_EDITOR. destruct (str_truthy _); [by apply safe_with_uids, setup_reset_safe|].
  destruct (template settings); [by apply safe_template_blocks, setup_reset_safe|].
  apply safe_keeps. solve_keeps.
Qed.
End Handlers.

(** ** The editor keeps the uids distinct *)

(** The actions the user interface may dispatch in [w]: MERGE_BLOCKS of a
    block of the document, and block writes that only remove blocks;
    every other action is allowed. *)
Definition ui_ok (w : world EditorState) (a : action) : Prop :=
  match a with
  | ResetBlocks bs | ReplaceBlocks _ bs => bs = []
  | MergeBlocks blockA _ => blockA ∈ es_blocks (w_state w)
  | _ => True
  end.

Section Editor.
Context `{BlockRegistry} `{BlockParser}.
#[local] Existing Instance store_selectors.

(** A writing handler whose action the reducer ignores runs safely from a
    world in which its given uids are handed out. *)
Lemma dispatch_handler_safe f a B h w w' :
  result_world (dispatch editor_reducer effects (S f) a w) = Some w' ->
  effects a = Some h -> editor_reducer a (w_state w) = w_state w -> safe B [] h ->
  Forall (bounded (w_uuid w)) B -> doc_ok w -> doc_ok w'.
Proof.
  intros Hres Hh Hr Hs HB Hw. cbn [dispatch] in Hres. rewrite Hh, Hr in Hres.
  eapply exec_safe; [exact Hs| |exact Hres]. split; [exact Hw|]. by rewrite app_nil_r.
Qed.

(** A write from the user interface, which only removes blocks. *)
Lemma dispatch_remove_safe f a w w' :
  result_world (dispatch editor_reducer effects f a w) = Some w' ->
  act_safe [] [] a -> doc_ok w -> doc_ok w'.
Proof.
  intros Hres Ha Hw. refine (proj1 (dispatch_safe f a [] [] w w' Ha _ Hres)). by split.
Qed.

Lemma ui_dispatch_doc_ok a w w' :
  ui_ok w a -> doc_ok w ->
  result_world (dispatch editor_reducer effects effects_fuel a w) = Some w' -> doc_ok w'.
Proof.
  intros Hui Hw Hres. destruct (writes_blocks a) eqn:Ew.
  2:{ destruct Hw as [Hu Hc]. destruct (dispatch_keeps_doc _ a w w' Ew Hc Hres) as [Hc' Hk].
      by eapply doc_ok_kept. }
  destruct a;
    try discriminate Ew; simpl in Hui;
    try (subst; eapply (dispatch_remove_safe _ _ w w' Hres); [split; constructor|exact Hw]);
    (eapply (dispatch_handler_safe 2 _ _ _ w w' Hres);
      [reflexivity|reflexivity|first [apply merge_blocks_safe|apply setup_editor_safe
         |apply convert_block_to_static_safe|apply convert_block_to_reusable_safe]| |exact Hw]);
    [|done..].
  constructor; [|constructor]. destruct Hw as [[_ Hb] _]. by eapply Forall_forall in Hb.
Qed.

(** A callback or timer taken out of the world keeps the document. *)
Lemma run_doc_ok p w w' :
  keeps_doc p -> doc_ok w ->
  result_world (exec (dispatch editor_reducer effects effects_fuel) p w) = Some w' -> doc_ok w'.
Proof.
  intros Hp [Hu Hc] Hres.
  destruct (exec_keeps_doc _ p w w' (dispatch_keeps_doc _) Hp Hc Hres) as [Hc' Hk].
  by eapply doc_ok_kept.
Qed.

Lemma doc_ok_pending w pre p post :
  doc_ok w -> w_pending w = pre ++ p :: post ->
  (forall r, keeps_doc (pend_ok p r)) /\ (forall e, keeps_doc (pend_ko p e)) /\
  doc_ok (with_pending (pre ++ post) w).
Proof.
  intros [Hu [Hps Hts]] Hw. rewrite Hw in Hps. apply Forall_app in Hps as [Hpre [[Hok Hko] Hpost]%Forall_cons].
  split; [done|]. split; [done|]. split; [done|]. split; [apply Forall_app; auto|done].
Qed.

Lemma doc_ok_timer w pre cb post :
  doc_ok w -> w_timers w = pre ++ cb :: post -> keeps_doc cb /\ doc_ok (with_timers (pre ++ post) w).
Proof.
  intros [Hu [Hps Hts]] Hw. rewrite Hw in Hts. apply Forall_app in Hts as [Hpre [Hcb Hpost]%Forall_cons].
  split; [done|]. split; [done|]. split; [done|apply Forall_app; auto].
Qed.

Lemma sys_step_doc_ok w w' : doc_ok w -> sys_step editor_reducer ui_ok w w' -> doc_ok w'.
Proof.
  intros Hw Hstep.
  destruct Hstep as [a w w' Hui _ Hres|w pre p post resp w' Hp _ Hres|w pre p post err w' Hp Hres
                    |w pre cb post w' Ht Hres].
  - by eapply ui_dispatch_doc_ok.
  - destruct (doc_ok_pending w pre p post Hw Hp) as (Hok & _ & Hw'). by eapply run_doc_ok.
  - destruct (doc_ok_pending w pre p post Hw Hp) as (_ & Hko & Hw'). by eapply run_doc_ok.
  - destruct (doc_ok_timer w pre cb post Hw Ht) as (Hcb & Hw'). by eapply run_doc_ok.
Qed.

Lemma reachable_doc_ok (s : EditorState) (w : world EditorState) :
  uids_ok 0 (es_blocks s) -> rtc (sys_step editor_reducer ui_ok) (initial_world s) w -> doc_ok w.
Proof.
  intros Hs Hr. assert (Hi : doc_ok (initial_world s)) by (split; [done|split; constructor]).
  revert Hi. induction Hr as [w0|w0 w1 w2 Hstep _ IH]; [done|]. intros Hi. by apply IH, (sys_step_doc_ok w0).
Qed.
End Editor.

(** ** Theorems *)

Section Theorems.
Context `{BlockRegistry} `{BlockParser}.
#[local] Existing Instance store_selectors.

(** (C2) The spec's invariant on the document: from a document whose
    uids are distinct and none of the form [uuid()] gives, every world the
    editor reaches has blocks with distinct uids, and none of them is one
    [uuid()] is still to hand out.  This holds whatever the interleaving
    of user actions, server answers and timers, provided a merge names a
    block of the document and the user interface writes blocks only to
    remove them. *)
Theorem document_uids_unique (s : EditorState) (w : world EditorState) :
  uids_ok 0 (es_blocks s) -> rtc (sys_step editor_reducer ui_ok) (initial_world s) w ->
  NoDup (map uid (es_blocks (w_state w))) /\
  forall b i, b ∈ es_blocks (w_state w) -> uid b = uuid_string i -> (i < w_uuid w)%N.
Proof.
  intros Hs Hr. destruct (reachable_doc_ok s w Hs Hr) as [[Hnd Hb] _]. split; [done|].
  intros b i Hin Hu. eapply Forall_forall in Hb; [|exact Hin]. by apply Hb.
Qed.

(** (C5) The spec's round trip in every reachable world: there the next
    [uuid()] is fresh, so converting a block made by [createBlock] to a
    reusable block and the placeholder back, two steps of the editor,
    puts a block of the same type and attributes in its place. *)
Theorem reusable_roundtrip_reachable (s : EditorState) (w : world EditorState) u b bt rbt src :
  uids_ok 0 (es_blocks s) -> rtc (sys_step editor_reducer ui_ok) (initial_world s) w ->
  getBlock (w_state w) u = Some b -> getBlockType (name b) = Some bt ->
  create_attributes (bt_attributes bt) (attributes b) = attributes b ->
  getBlockType "core/reusable-block" = Some rbt -> bt_attributes rbt !! "ref" = Some src ->
  exists w1 w2 b',
    dispatch editor_reducer effects effects_fuel (ConvertBlockToReusable u) w = Ok w1 /\
    dispatch editor_reducer effects effects_fuel (ConvertBlockToStatic (uuid_string (w_uuid w))) w1 = Ok w2 /\
    sys_step editor_reducer ui_ok w w1 /\ sys_step editor_reducer ui_ok w1 w2 /\
    name b' = name b /\ attributes b' = attributes b /\
    es_blocks (w_state w2) = replace_blocks [u] [b'] (es_blocks (w_state w)).
Proof.
  intros Hs Hr Hb Hbt Hnorm Hrbt Href.
  assert (Hfresh : fresh_in (uuid_string (w_uuid w)) (es_blocks (w_state w))).
  { destruct (reachable_doc_ok s w Hs Hr) as [[_ Hbd] _].
    eapply Forall_impl; [exact Hbd|]. intros b0. apply bounded_uuid. }
  destruct (convert_roundtrip w u b bt rbt src Hb Hbt Hnorm Hrbt Href Hfresh)
    as (w1 & w2 & b' & H1 & H2 & Hrest).
  exists w1, w2, b'. do 2 (split; [done|]). split; [|split; [|done]].
  - apply (step_action editor_reducer ui_ok (ConvertBlockToReusable u)); [exact I|reflexivity|by rewrite H1].
  - apply (step_action editor_reducer ui_ok (ConvertBlockToStatic (uuid_string (w_uuid w))));
      [exact I|reflexivity|by rewrite H2].
Qed.
End Theorems.

(** ** Witnesses *)

#[local] Existing Instances fixture_registry plain_parser store_selectors.

(** The blocks of [blocks_world] have distinct uids of no [uuid()] form. *)
Lemma blocks_world_uids : uids_ok 0 (es_blocks (w_state blocks_world)).
Proof.
  split; [vm_compute; repeat constructor; set_solver|].
  repeat constructor; intros i Hi; discriminate Hi.
Qed.

(** Witness of (C2): the text block of [blocks_world] converted to a
    reusable block by the user. *)
Lemma document_uids_unique_witness :
  exists w,
    result_world (dispatch editor_reducer effects effects_fuel (ConvertBlockToReusable "b1") blocks_world)
    = Some w /\
    NoDup (map uid (es_blocks (w_state w))) /\
    forall b i, b ∈ es_blocks (w_state w) -> uid b = uuid_string i -> (i < w_uuid w)%N.
Proof.
  eexists. split; [vm_compute; reflexivity|].
  apply (document_uids_unique (w_state blocks_world)); [exact blocks_world_uids|].
  eapply rtc_l; [|apply rtc_refl].
  apply (step_action editor_reducer ui_ok (ConvertBlockToReusable "b1")); [exact I|reflexivity|].
  vm_compute. reflexivity.
Defined.

(** Witness of (C5): the text block of [blocks_world] and back. *)
Lemma reusable_roundtrip_reachable_witness :
  exists w1 w2 b',
    dispatch editor_reducer effects effects_fuel (ConvertBlockToReusable "b1") blocks_world = Ok w1 /\
    dispatch editor_reducer effects effects_fuel (ConvertBlockToStatic (uuid_string 0)) w1 = Ok w2 /\
    sys_step editor_reducer ui_ok blocks_world w1 /\ sys_step editor_reducer ui_ok w1 w2 /\
    name b' = name text_block /\ attributes b' = attributes text_block /\
    es_blocks (w_state w2) = replace_blocks ["b1"] [b'] (es_blocks (w_state blocks_world)).
Proof.
  exact (reusable_roundtrip_reachable (w_state blocks_world) blocks_world "b1" text_block
           (mkBlockType "core/text" {["content" := mkSource None]} None [] [])
           (mkBlockType "core/reusable-block" {["ref" := mkSource None]} None [] [])
           (mkSource None) blocks_world_uids (rtc_refl _ _) eq_refl eq_refl eq_refl eq_refl eq_refl).
Defined.
