(* ===== verification/PageAttributes.v ===== *)
(** The Page Attributes panel of the post sidebar:
    [src/edit-post/components/sidebar/page-attributes/index.js].

    The component renders a collapsible [PanelBody] whose [opened] prop
    is the edit-post store's answer to [isEditorSidebarPanelOpened(state,
    'page-attributes')] and whose [onToggle] dispatches
    [toggleSidebarPanel('page-attributes')].  The edit-post store is not
    under [src/]: what the component needs of it is the interface
    [PanelStore], a class whose laws say that toggling a panel flips that
    panel and no other.  The component's theorems are proved against the
    class; [panel_map_store] implements it with a map from panel names to
    booleans, as the spec's store of UI state. *)

From S2P Require Import Prelude.

(** The actions of the edit-post store the component dispatches. *)
Inductive ui_action :=
| ToggleSidebarPanel (panel : string).

#[local] Set Warnings "-register-all".

(** The elements the component renders; a callback prop is the action it
    dispatches. *)
Inductive element :=
| PageAttributesCheck (children : list element)
| PanelBody (title : string) (opened : bool) (onToggle : ui_action) (children : list element)
| PanelRow (children : list element)
| PageAttributesForm.

(** What the component needs of the edit-post store: the selector, the
    reducer, and the laws of toggling. *)
Class PanelStore (S : Type) := {
  isEditorSidebarPanelOpened : S -> string -> bool;
  ui_reducer : S -> ui_action -> S;
  toggle_flips s p :
    isEditorSidebarPanelOpened (ui_reducer s (ToggleSidebarPanel p)) p
    = negb (isEditorSidebarPanelOpened s p);
  toggle_other s p q :
    p <> q ->
    isEditorSidebarPanelOpened (ui_reducer s (ToggleSidebarPanel p)) q
    = isEditorSidebarPanelOpened s q
}.

(** Line 22. *)
Definition PANEL_NAME : string := "page-attributes".

Record page_attributes_props := mkPageAttributesProps {
  isOpened : bool;
  onTogglePanel : ui_action
}.

(** Lines 24-38. *)
Definition PageAttributes (props : page_attributes_props) : element :=
  PageAttributesCheck
    [PanelBody "Page Attributes" (isOpened props) (onTogglePanel props)
       [PanelRow [PageAttributesForm]]].

Section Connected.
Context {S : Type} `{PanelStore S}.

(** Lines 40-51: [connect(mapStateToProps, mapDispatchToProps)]. *)
Definition page_attributes_connected (state : S) : element :=
  PageAttributes (mkPageAttributesProps (isEditorSidebarPanelOpened state PANEL_NAME)
                                        (ToggleSidebarPanel PANEL_NAME)).
End Connected.

(** The panel state as a map from panel names to [opened]; an absent
    panel is closed. *)
Abbreviation panel_map := (gmap string bool).

Definition panel_opened (m : panel_map) (p : string) : bool := default false (m !! p).

Definition panel_reduce (m : panel_map) (a : ui_action) : panel_map :=
  match a with
  | ToggleSidebarPanel p => <[p := negb (panel_opened m p)]> m
  end.

#[export] Program Instance panel_map_store : PanelStore panel_map := {|
  isEditorSidebarPanelOpened := panel_opened;
  ui_reducer := panel_reduce
|}.
Next Obligation. intros m p. unfold panel_opened, panel_reduce. by rewrite lookup_insert_eq. Qed.
Next Obligation. intros m p q Hpq. unfold panel_opened, panel_reduce. by rewrite lookup_insert_ne. Qed.

Section Props.
Context {S : Type} `{PanelStore S}.

(** The [opened] prop of the rendered panel. *)
Definition rendered_opened (e : element) : option bool :=
  match e with
  | PageAttributesCheck [PanelBody _ o _ _] => Some o
  | _ => None
  end.

(** The action the panel's [onToggle] dispatches. *)
Definition rendered_toggle (e : element) : option ui_action :=
  match e with
  | PageAttributesCheck [PanelBody _ _ t _] => Some t
  | _ => None
  end.

(** (C39) Clicking the Page Attributes panel's header dispatches the
    action its [onToggle] carries; after the store reduces it, the panel
    renders with [opened] flipped and is otherwise the same, and a second
    click restores the first rendering.  Proved for every store that
    implements [PanelStore]. *)
Theorem page_attributes_toggle (s : S) :
  rendered_toggle (page_attributes_connected s) = Some (ToggleSidebarPanel PANEL_NAME) /\
  let s' := ui_reducer s (ToggleSidebarPanel PANEL_NAME) in
  rendered_opened (page_attributes_connected s')
    = negb <$> rendered_opened (page_attributes_connected s) /\
  page_attributes_connected (ui_reducer s' (ToggleSidebarPanel PANEL_NAME))
    = page_attributes_connected s.
Proof.
  split; [reflexivity|]. simpl. split.
  - by rewrite toggle_flips.
  - unfold page_attributes_connected. by rewrite !toggle_flips, negb_involutive.
Qed.

(** Toggling another panel leaves the Page Attributes panel as it is. *)
Lemma page_attributes_other_panel (s : S) (p : string) :
  p <> PANEL_NAME ->
  page_attributes_connected (ui_reducer s (ToggleSidebarPanel p)) = page_attributes_connected s.
Proof. intros Hp. unfold page_attributes_connected. by rewrite toggle_other. Qed.
End Props.
