(* ===== verification/CategorySelect.v ===== *)
(** The category selector of the latest-posts query panel:
    [src/blocks/query-panel/category-select.js].

    [withAPIData] fetches [/wp/v2/categories] and passes the response as
    the [categories] prop: absent until the request is made, and without
    [data] until it answers.  The component renders nothing until the data
    is there, then a [TermTreeSelect] over the tree [buildTermsTree] makes
    of the flat list.  [buildTermsTree] ([editor/utils/terms]) is not
    under [src/]: it enters as the class [TermsTree]. *)

From S2P Require Import Prelude.

(** A category as the REST API returns it. *)
Record term := mkTerm { term_id : Z; term_name : string; term_parent : Z }.

(** [buildTermsTree( flatTerms )] and the type of the trees it builds. *)
Class TermsTree := {
  terms_tree : Type;
  buildTermsTree : list term -> terms_tree
}.

(** The [categories] prop: the API response, whose [data] is [undefined]
    until the request answers. *)
Record api_data := mkApiData { data : option (list term) }.

Section Component.
Context `{TermsTree}.

(** What the component renders. *)
Inductive category_select_view :=
| RenderNull
| TermTreeSelect (label noOptionLabel : string) (onChange : Z -> unit)
    (termsTree : terms_tree) (selectedTerm : option Z).

(** Lines 12-23. *)
Definition CategorySelect (label noOptionLabel : string) (categories : option api_data)
    (selectedCategory : option Z) (onChange : Z -> unit) : category_select_view :=
  match categories with
  | Some c =>
      match data c with
      | Some d => TermTreeSelect label noOptionLabel onChange (buildTermsTree d) selectedCategory
      | None => RenderNull
      end
  | None => RenderNull
  end.
End Component.

(** Lines 25-27: the prop [withAPIData] fills and the path it requests. *)
Definition category_requests : list (string * string) := [("categories", "/wp/v2/categories")].

Section Props.
Context `{TermsTree}.

(** The selector renders nothing exactly while the categories have
    not arrived (no response, or a response without [data]); once they
    have, even an empty list, it renders a [TermTreeSelect] over the tree
    of all of them that passes its [label], [noOptionLabel], [onChange]
    and the selected category through. *)
Theorem category_select_render label noOptionLabel categories selectedCategory onChange :
  match categories ≫= data with
  | None => CategorySelect label noOptionLabel categories selectedCategory onChange = RenderNull
  | Some d => CategorySelect label noOptionLabel categories selectedCategory onChange
              = TermTreeSelect label noOptionLabel onChange (buildTermsTree d) selectedCategory
  end.
Proof. by destruct categories as [[[d|]]|]. Qed.
End Props.
